(** * DynamicGrid: the grid back-testing engine of [src/logic.py]

    A shallow embedding of [calculate_atr] (window mode) and of the class
    [DynamicGridBacktest]: [calculate_grid], the session clock,
    [check_daily_fee], [apply_overnight_fee], [close_all_positions], the
    per-tick body of [backtest] and the part of
    [calculate_performance_metrics] that is rational arithmetic.

    Numbers.  Python floats are read as exact rationals ([Q], compared
    with [==]); a pandas NaN is [None].  Sizes and counters are Python
    ints ([Z]).  A timestamp is a calendar day number together with the
    time of day in seconds.  Writing the trade log file ([log_trade]) has
    no effect on the engine state; every call of it is followed by an
    append of the same record to [trade_history], which is modelled. *)

From Stdlib Require Import QArith Qround Qabs ZArith List Bool Lia Lqa.
From stdpp Require Import base list.
Import ListNotations.

Open Scope Q_scope.

(** ** Numeric helpers *)

Definition Qlt_bool (x y : Q) : bool := negb (Qle_bool y x).

(** Python's [max(a, b)] and [min(a, b)]: the first argument wins a tie. *)
Definition pymax (a b : Q) : Q := if Qlt_bool a b then b else a.
Definition pymin (a b : Q) : Q := if Qlt_bool b a then b else a.

(** Python's [round(x, 1)] on exact values: to the nearest tenth, a tie
    going to the even tenth. *)
Definition round1 (x : Q) : Q :=
  let y := x * 10 in
  let f := Qfloor y in
  let r := y - inject_Z f in
  if Qlt_bool r (1 # 2) then inject_Z f / 10
  else if Qlt_bool (1 # 2) r then inject_Z (f + 1) / 10
  else if Z.even f then inject_Z f / 10 else inject_Z (f + 1) / 10.

Fixpoint Qsum (l : list Q) : Q :=
  match l with
  | [] => 0
  | x :: r => x + Qsum r
  end.

(** ** Timestamps and the session clock *)

Record Timestamp := mkTs { ts_date : Z; ts_time : Z }.

(** [datetime.time(h, m)] as seconds since midnight. *)
Definition time (h m : Z) : Z := (h * 3600 + m * 60)%Z.

Definition ts_seconds (t : Timestamp) : Z := (ts_date t * 86400 + ts_time t)%Z.

(** [pd.Timestamp.combine(date, time)] and the order of timestamps. *)
Definition combine (d : Z) (t : Z) : Timestamp := mkTs d t.
Definition ts_leb (a b : Timestamp) : bool :=
  (ts_date a <? ts_date b)%Z || ((ts_date a =? ts_date b)%Z && (ts_time a <=? ts_time b)%Z).
Definition ts_ltb (a b : Timestamp) : bool :=
  (ts_date a <? ts_date b)%Z || ((ts_date a =? ts_date b)%Z && (ts_time a <? ts_time b)%Z).

(** [(b - a).days] of a [Timedelta]: whole days, rounded down. *)
Definition timedelta_days (a b : Timestamp) : Z :=
  ((ts_seconds b - ts_seconds a) / 86400)%Z.

Definition is_trading_time (timestamp : Timestamp) : bool :=
  let trading_start := time 9 0 in
  let trading_end := time 14 29 in
  let current_time := ts_time timestamp in
  (trading_start <=? current_time)%Z && (current_time <=? trading_end)%Z.

Definition is_end_of_day (timestamp : Timestamp) : bool :=
  let end_start := time 14 29 in
  let end_close := time 14 30 in
  let current_time := ts_time timestamp in
  (end_start <=? current_time)%Z && (current_time <=? end_close)%Z.

(** ** Volatility estimator: [calculate_atr] with [window is not None] *)

(** [prices.diff().abs()]: the first entry is NaN. *)
Fixpoint diff_abs_from (prev : Q) (l : list Q) : list (option Q) :=
  match l with
  | [] => []
  | x :: r => Some (Qabs (x - prev)) :: diff_abs_from x r
  end.

Definition diff_abs (prices : list Q) : list (option Q) :=
  match prices with
  | [] => []
  | x :: r => None :: diff_abs_from x r
  end.

(** [s.tail(n)] for [n >= 0]: the last [n] entries. *)
Definition tail {A} (n : nat) (l : list A) : list A := skipn (length l - n) l.

Fixpoint dropna {A} (l : list (option A)) : list A :=
  match l with
  | [] => []
  | Some x :: r => x :: dropna r
  | None :: r => dropna r
  end.

(** [s.mean()]: NaN on an empty series. *)
Definition mean (l : list Q) : option Q :=
  match l with
  | [] => None
  | _ => Some (Qsum l / inject_Z (Z.of_nat (length l)))
  end.

Definition calculate_atr (prices : list Q) (window : nat) (last_valid_atr : Q) : Q :=
  let high_low := diff_abs prices in
  let atr := mean (dropna (tail window high_low)) in
  match atr with
  | Some a =>
      if (window / 2 <=? length (dropna (tail window high_low)))%nat
      then a else last_valid_atr
  | None => last_valid_atr
  end.

(** ** Data model of the engine *)

Inductive Side := BUY | SELL.

Definition side_eqb (a b : Side) : bool :=
  match a, b with
  | BUY, BUY | SELL, SELL => true
  | _, _ => false
  end.

(** A position is the tuple [(side, entry_price, size)]. *)
Record Position := mkPos { p_side : Side; p_entry : Q; p_size : Z }.

(** Equality of tuples, as [list.remove] uses it. *)
Definition pos_eqb (a b : Position) : bool :=
  side_eqb (p_side a) (p_side b) && Qeq_bool (p_entry a) (p_entry b)
  && (p_size a =? p_size b)%Z.

(** [l.remove(x)]: drops the first entry equal to [x].  Python raises
    [ValueError] when there is none; the engine only removes entries it
    has just read from the list, so the list is returned as it is. *)
Fixpoint remove (x : Position) (l : list Position) : list Position :=
  match l with
  | [] => []
  | y :: r => if pos_eqb y x then r else y :: remove x r
  end.

Inductive Kind :=
| OPEN (s : Side)          (* "BUY", "SELL" *)
| TAKE_PROFIT (s : Side)   (* "TAKE_PROFIT_BUY", "TAKE_PROFIT_SELL" *)
| CLOSE_PAIR
| CLOSE (s : Side)         (* "CLOSE_BUY", "CLOSE_SELL" *)
| TOTAL_FEE
| OVERNIGHT_FEE.

(** An entry of [trade_history]:
    [(timestamp, kind, price, size, profit, fee)]. *)
Record TradeRecord := mkRec {
  r_time : Timestamp; r_kind : Kind; r_price : Q; r_size : Z;
  r_profit : Q; r_fee : Q }.

(** An entry of [trades]: [(side, price, price, size)]. *)
Record Trade := mkTrade { t_side : Side; t_entry : Q; t_price : Q; t_size : Z }.

(** The constructor's arguments. *)
Record Config := mkConfig {
  cfg_capital : Q;
  contract_value : Q;
  margin_rate : Q;
  fee_per_trade : Q;
  grid_size_factor : Q;
  minimum_grid_size : Q;
  move_pivot : Q;
  max_loss : Q;
  take_profit_factor : Q }.

Definition default_config : Config :=
  mkConfig 500000000 100000 0.2 0.47 1.47 0.4 6 20 1.

Definition max_contracts : Z := 12.
Definition max_positions : nat := 12.
Definition daily_fee_limit : Q := 50000000.
Definition short_atr_window : nat := 60.

(** The mutable attributes of the object, and the two locals [grid_size]
    and [size] that [backtest] carries from one tick to the next.
    [equity_series] shares its index with the price series. *)
Record State := mkState {
  capital : Q;
  positions : list Position;
  trades : list Trade;
  last_date : option Z;
  daily_fee : Q;
  trade_history : list TradeRecord;
  last_valid_atr : Q;
  daily_atr : option Q;
  current_pivot : Q;
  equity_series : list (option Q);
  grid_size : option Q;
  size : Z }.

Definition set_capital (v : Q) (s : State) : State :=
  mkState v (positions s) (trades s) (last_date s) (daily_fee s) (trade_history s)
    (last_valid_atr s) (daily_atr s) (current_pivot s) (equity_series s)
    (grid_size s) (size s).
Definition set_positions (v : list Position) (s : State) : State :=
  mkState (capital s) v (trades s) (last_date s) (daily_fee s) (trade_history s)
    (last_valid_atr s) (daily_atr s) (current_pivot s) (equity_series s)
    (grid_size s) (size s).
Definition set_trades (v : list Trade) (s : State) : State :=
  mkState (capital s) (positions s) v (last_date s) (daily_fee s) (trade_history s)
    (last_valid_atr s) (daily_atr s) (current_pivot s) (equity_series s)
    (grid_size s) (size s).
Definition set_last_date (v : option Z) (s : State) : State :=
  mkState (capital s) (positions s) (trades s) v (daily_fee s) (trade_history s)
    (last_valid_atr s) (daily_atr s) (current_pivot s) (equity_series s)
    (grid_size s) (size s).
Definition set_daily_fee (v : Q) (s : State) : State :=
  mkState (capital s) (positions s) (trades s) (last_date s) v (trade_history s)
    (last_valid_atr s) (daily_atr s) (current_pivot s) (equity_series s)
    (grid_size s) (size s).
Definition set_trade_history (v : list TradeRecord) (s : State) : State :=
  mkState (capital s) (positions s) (trades s) (last_date s) (daily_fee s) v
    (last_valid_atr s) (daily_atr s) (current_pivot s) (equity_series s)
    (grid_size s) (size s).
Definition set_last_valid_atr (v : Q) (s : State) : State :=
  mkState (capital s) (positions s) (trades s) (last_date s) (daily_fee s)
    (trade_history s) v (daily_atr s) (current_pivot s) (equity_series s)
    (grid_size s) (size s).
Definition set_daily_atr (v : option Q) (s : State) : State :=
  mkState (capital s) (positions s) (trades s) (last_date s) (daily_fee s)
    (trade_history s) (last_valid_atr s) v (current_pivot s) (equity_series s)
    (grid_size s) (size s).
Definition set_current_pivot (v : Q) (s : State) : State :=
  mkState (capital s) (positions s) (trades s) (last_date s) (daily_fee s)
    (trade_history s) (last_valid_atr s) (daily_atr s) v (equity_series s)
    (grid_size s) (size s).
Definition set_equity_series (v : list (option Q)) (s : State) : State :=
  mkState (capital s) (positions s) (trades s) (last_date s) (daily_fee s)
    (trade_history s) (last_valid_atr s) (daily_atr s) (current_pivot s) v
    (grid_size s) (size s).
Definition set_grid (g : Q) (sz : Z) (s : State) : State :=
  mkState (capital s) (positions s) (trades s) (last_date s) (daily_fee s)
    (trade_history s) (last_valid_atr s) (daily_atr s) (current_pivot s)
    (equity_series s) (Some g) sz.

(** [self.equity_series.iloc[i] = v]. *)
Definition set_equity (i : nat) (v : Q) (s : State) : State :=
  set_equity_series (<[i := Some v]> (equity_series s)) s.

(** [self.trade_history.append(r)]. *)
Definition log (r : TradeRecord) (s : State) : State :=
  set_trade_history (trade_history s ++ [r]) s.

(** ** Operations of the engine *)

Section Engine.

Variable cfg : Config.

(** [calculate_grid]: the new [last_valid_atr] is kept in the state, the
    pair [(grid_size, size_per_level)] is returned. *)
Definition calculate_grid (current_price : Q) (current_atr : option Q)
    (prices : list Q) (index : nat) (s : State) : State * (Q * Z) :=
  let '(s, current_atr) :=
    match current_atr with
    | None => (s, last_valid_atr s)
    | Some a => (set_last_valid_atr a s, a)
    end in
  let grid_size := pymax (grid_size_factor cfg * current_atr) (minimum_grid_size cfg) in
  let grid_size := pymin grid_size 10 in
  let size_per_level := 1%Z in
  let total_open_contracts := fold_right Z.add 0%Z (map p_size (positions s)) in
  let size_per_level :=
    if (max_contracts <? total_open_contracts + size_per_level)%Z then 0%Z
    else size_per_level in
  let grid_size :=
    if (short_atr_window <=? index)%nat then
      let short_atr :=
        calculate_atr (firstn (index + 1) prices) short_atr_window (last_valid_atr s) in
      let grid_size := pymax grid_size (short_atr * grid_size_factor cfg) in
      pymin grid_size 10
    else grid_size in
  (s, (grid_size, size_per_level)).

Definition check_daily_fee (timestamp : Timestamp) (fee : option Q) (s : State)
    : State * bool :=
  let current_date := ts_date timestamp in
  let s :=
    match last_date s with
    | Some d =>
        if (d =? current_date)%Z then s
        else set_last_date (Some current_date) (set_daily_fee 0 s)
    | None => set_last_date (Some current_date) (set_daily_fee 0 s)
    end in
  let s := set_daily_fee (daily_fee s + match fee with Some f => f | None => 0 end) s in
  (s, Qlt_bool daily_fee_limit (daily_fee s)).

Definition apply_overnight_fee (timestamp : Timestamp) (s : State) : State :=
  match positions s with
  | [] => s
  | _ =>
      let overnight_fee_per_position := 2550 in
      let n := Z.of_nat (length (positions s)) in
      let total_overnight_fee := inject_Z n * overnight_fee_per_position in
      let s := set_capital (capital s - total_overnight_fee) s in
      log (mkRec timestamp OVERNIGHT_FEE 0 n 0 total_overnight_fee) s
  end.

(** Profit before fee of closing [pos] at [current_price]. *)
Definition gross_profit (current_price : Q) (pos : Position) : Q :=
  (match p_side pos with
   | BUY => current_price - p_entry pos
   | SELL => p_entry pos - current_price
   end) * inject_Z (p_size pos) * contract_value cfg.

(** The loop of [close_all_positions] over the copy [self.positions[:]];
    the accumulators are [total_profit] and [total_fee]. *)
Fixpoint close_loop (current_price : Q) (timestamp : Timestamp)
    (copy : list Position) (acc : State * (Q * Q)) : State * (Q * Q) :=
  match copy with
  | [] => acc
  | pos :: rest =>
      let '(s, (total_profit, total_fee)) := acc in
      let profit_before_fee := gross_profit current_price pos in
      let fee := fee_per_trade cfg * contract_value cfg in
      let profit := profit_before_fee - fee in
      let s := set_capital (capital s + profit) s in
      let s := set_positions (remove pos (positions s)) s in
      let s := log (mkRec timestamp (CLOSE (p_side pos)) current_price
                      (p_size pos) profit fee) s in
      close_loop current_price timestamp rest
        (s, (total_profit + profit, total_fee + fee))
  end.

Definition close_all_positions (current_price : Q) (timestamp : Timestamp)
    (s : State) : State * Q :=
  let '(s, (total_profit, total_fee)) :=
    close_loop current_price timestamp (positions s) (s, (0, 0)) in
  let s :=
    if Qlt_bool 0 total_fee
    then log (mkRec timestamp TOTAL_FEE current_price 0 0 total_fee) s
    else s in
  (s, total_profit).

(** The rebase that follows a forced liquidation: pivot to the current
    price, ATR from the short window, grid recomputed. *)
Definition rebase (prices : list Q) (i : nat) (current_price : Q) (s : State) : State :=
  let s := set_current_pivot current_price s in
  let current_atr :=
    calculate_atr (firstn (i + 1) prices) short_atr_window (last_valid_atr s) in
  let '(s, (g, sz)) := calculate_grid current_price (Some current_atr) prices i s in
  set_grid g sz s.

(** Lines 202 and 212: the loss of [pos] at [current_price], zero when
    the price has not moved against it. *)
Definition loss_of (current_price : Q) (pos : Position) : Q :=
  match p_side pos with
  | BUY =>
      if Qlt_bool current_price (p_entry pos)
      then (p_entry pos - current_price) * inject_Z (p_size pos) * contract_value cfg
      else 0
  | SELL =>
      if Qlt_bool (p_entry pos) current_price
      then (current_price - p_entry pos) * inject_Z (p_size pos) * contract_value cfg
      else 0
  end.

(** Lines 176-220: the take-profit and max-loss pass over the copy
    [self.positions[:]].  The result carries [forced_close_triggered]. *)
Fixpoint exit_loop (prices : list Q) (i : nat) (timestamp : Timestamp)
    (current_price take_profit max_loss_per_trade : Q)
    (copy : list Position) (s : State) : State * bool :=
  match copy with
  | [] => (s, false)
  | pos :: rest =>
      let profit := gross_profit current_price pos in
      if Qle_bool take_profit profit then
        let fee := fee_per_trade cfg * contract_value cfg in
        let profit := profit - fee in
        let s := set_capital (capital s + profit) s in
        let s := set_positions (remove pos (positions s)) s in
        let s := log (mkRec timestamp (TAKE_PROFIT (p_side pos)) current_price
                        (p_size pos) profit fee) s in
        exit_loop prices i timestamp current_price take_profit max_loss_per_trade rest s
      else
        let loss := loss_of current_price pos in
        if Qle_bool max_loss_per_trade loss then
          let '(s, _) := close_all_positions current_price timestamp s in
          (rebase prices i current_price s, true)
        else
          exit_loop prices i timestamp current_price take_profit max_loss_per_trade rest s
  end.

Definition is_side (sd : Side) (p : Position) : bool := side_eqb (p_side p) sd.

(** [any(p[0] == side and abs(p[1] - current_price) < grid_size * 0.5 ...)]. *)
Definition near (sd : Side) (current_price g : Q) (ps : list Position) : bool :=
  existsb (fun p => is_side sd p
                    && Qlt_bool (Qabs (p_entry p - current_price)) (g * (1 # 2))) ps.

(** The netting that follows an entry on side [sd]: the oldest position
    of the other side and the entry just made leave the ledger. *)
Definition pair_off (timestamp : Timestamp) (current_price : Q) (sd : Side)
    (other : Position) (s : State) : State :=
  let profit_before_fee :=
    (match sd with
     | BUY => p_entry other - current_price
     | SELL => current_price - p_entry other
     end) * inject_Z (size s) * contract_value cfg in
  let fee := fee_per_trade cfg * contract_value cfg in
  let profit := profit_before_fee - fee in
  let s := set_capital (capital s + profit) s in
  let s := set_positions (remove other (positions s)) s in
  let s := set_positions (remove (mkPos sd current_price (size s)) (positions s)) s in
  log (mkRec timestamp CLOSE_PAIR current_price (size s) profit fee) s.

(** The entry on side [sd]: lines 233-236 and 255-258. *)
Definition open_position (timestamp : Timestamp) (current_price : Q) (sd : Side)
    (s : State) : State :=
  let s := set_positions (positions s ++ [mkPos sd current_price (size s)]) s in
  let s := set_trades (trades s ++ [mkTrade sd current_price current_price (size s)]) s in
  log (mkRec timestamp (OPEN sd) current_price (size s) 0 0) s.

Definition max_buys : Z := 6.
Definition max_sells : Z := 6.

(** Lines 229-274: one turn of the scan of the grid levels, at level
    [n] with grid size [g]; the counters [num_buys] and [num_sells]
    travel with the state.  A [continue] ends the turn. *)
Definition entry_iter (timestamp : Timestamp) (current_price g : Q) (n : Z)
    (acc : Z * Z * State) : Z * Z * State :=
  let '(num_buys, num_sells, s) := acc in
  let buy_level := round1 (current_pivot s - (inject_Z n - (1 # 2)) * g) in
  let sell_level := round1 (current_pivot s + (inject_Z n - (1 # 2)) * g) in
  let sell_turn (num_buys : Z) (s : State) : Z * Z * State :=
    if (num_sells <? max_sells)%Z && Qle_bool sell_level current_price
       && negb (near SELL current_price g (positions s))
    then
      let s := open_position timestamp current_price SELL s in
      let num_sells := (num_sells + 1)%Z in
      match List.filter (is_side BUY) (positions s) with
      | buy_pos :: _ =>
          let s := pair_off timestamp current_price SELL buy_pos s in
          ((num_buys - 1)%Z, (num_sells - 1)%Z, s)
      | [] => (num_buys, num_sells, s)
      end
    else (num_buys, num_sells, s) in
  if (num_buys <? max_buys)%Z && Qle_bool current_price buy_level
     && negb (near BUY current_price g (positions s))
  then
    let s := open_position timestamp current_price BUY s in
    let num_buys := (num_buys + 1)%Z in
    match List.filter (is_side SELL) (positions s) with
    | sell_pos :: _ =>
        let s := pair_off timestamp current_price BUY sell_pos s in
        ((num_buys - 1)%Z, (num_sells - 1)%Z, s)
    | [] => sell_turn num_buys s
    end
  else sell_turn num_buys s.

(** Lines 228-274: [for n in range(1, 7)], over what is left of the range. *)
Fixpoint entry_loop (timestamp : Timestamp) (current_price g : Q) (ns : list Z)
    (acc : Z * Z * State) : Z * Z * State :=
  match ns with
  | [] => acc
  | n :: rest =>
      entry_loop timestamp current_price g rest
        (entry_iter timestamp current_price g n acc)
  end.

(** ** The per-tick body of [backtest] *)

Definition nonempty {A} (l : list A) : bool :=
  match l with [] => false | _ => true end.

(** The grid size of the tick; read only after the lazy initialisation
    of line 161, where it is a number. *)
Definition grid (s : State) : Q :=
  match grid_size s with Some g => g | None => 0 end.

(** Lines 136-138: the points of [current_date] from 08:45 up to 09:00. *)
Definition daily_initial_data (prices : list (Timestamp * Q)) (current_date : Z)
    : list Q :=
  let start_time := combine current_date (time 8 45) in
  let end_time := combine current_date (time 9 0) in
  map snd (List.filter (fun tp => ts_leb start_time (fst tp) && ts_ltb (fst tp) end_time)
             prices).

(** Lines 131-133. *)
Definition rollover (timestamp : Timestamp) (s : State) : State :=
  let current_date := ts_date timestamp in
  let same := match last_date s with Some d => (d =? current_date)%Z | None => false end in
  if same then s
  else set_last_date (Some current_date) (apply_overnight_fee timestamp s).

(** Lines 135-142. *)
Definition daily_atr_bootstrap (prices : list (Timestamp * Q)) (timestamp : Timestamp)
    (s : State) : State :=
  match daily_atr s with
  | None =>
      if is_trading_time timestamp then
        let d := daily_initial_data prices (ts_date timestamp) in
        if (2 <=? length d)%nat
        then set_daily_atr (Some (calculate_atr d (length d) 1)) s
        else set_daily_atr (Some (last_valid_atr s)) s
      else s
  | Some _ => s
  end.

(** Lines 144-147. *)
Definition current_atr_of (timestamp : Timestamp) (s : State) : Q :=
  match daily_atr s with
  | Some a => if is_trading_time timestamp then a else last_valid_atr s
  | None => last_valid_atr s
  end.

(** Lines 161-162. *)
Definition init_grid (values : list Q) (i : nat) (current_price current_atr : Q)
    (s : State) : State :=
  match grid_size s with
  | None =>
      let '(s, (g, sz)) := calculate_grid current_price (Some current_atr) values i s in
      set_grid g sz s
  | Some _ => s
  end.

Definition out_of_band (current_price : Q) (s : State) : bool :=
  let buypivot := current_pivot s - move_pivot cfg * grid s in
  let sellpivot := current_pivot s + move_pivot cfg * grid s in
  Qlt_bool current_price buypivot || Qlt_bool sellpivot current_price.

(** Lines 163-170; the flag tells whether the pivot was rebased. *)
Definition breach_step (values : list Q) (i : nat) (timestamp : Timestamp)
    (current_price : Q) (s : State) : State * bool :=
  if out_of_band current_price s then
    let '(s, _) := close_all_positions current_price timestamp s in
    (rebase values i current_price s, true)
  else (s, false).

(** Lines 172-220. *)
Definition exit_step (values : list Q) (i : nat) (timestamp : Timestamp)
    (current_price : Q) (s : State) : State * bool :=
  let max_loss_per_trade := 500000 * max_loss cfg in
  let take_profit := take_profit_factor cfg * grid s * contract_value cfg in
  exit_loop values i timestamp current_price take_profit max_loss_per_trade
    (positions s) s.

(** Lines 222-274. *)
Definition entry_step (timestamp : Timestamp) (current_price : Q)
    (forced_close_triggered : bool) (s : State) : State :=
  if (length (positions s) <? max_positions)%nat && (0 <? size s)%Z then
    let '(s, over) := check_daily_fee timestamp (Some 0) s in
    if negb over && negb forced_close_triggered then
      let num_buys := Z.of_nat (length (List.filter (is_side BUY) (positions s))) in
      let num_sells := Z.of_nat (length (List.filter (is_side SELL) (positions s))) in
      (entry_loop timestamp current_price (grid s) [1; 2; 3; 4; 5; 6]%Z
         (num_buys, num_sells, s)).2
    else s
  else s.

(** Lines 276-278. *)
Definition mark (current_price : Q) (s : State) : Q :=
  capital s + Qsum (map (gross_profit current_price) (positions s)).

(** How an iteration ends: on to the next tick, or [return None]. *)
Inductive Outcome := Continue (s : State) | ReturnNone (s : State).

Definition outcome_state (o : Outcome) : State :=
  match o with Continue s | ReturnNone s => s end.

(** Lines 161-285: a tick inside trading hours and before the
    end-of-day window. *)
Definition trading_tick (values : list Q) (i : nat) (is_last : bool)
    (timestamp : Timestamp) (current_price current_atr : Q) (s : State) : Outcome :=
  let s := init_grid values i current_price current_atr s in
  let '(s, _) := breach_step values i timestamp current_price s in
  let '(s, forced_close_triggered) := exit_step values i timestamp current_price s in
  let s := entry_step timestamp current_price forced_close_triggered s in
  let s := set_equity i (mark current_price s) s in
  if Qlt_bool (capital s) 0 then ReturnNone s
  else if is_last && nonempty (positions s) then
    let '(s, _) := close_all_positions current_price timestamp s in
    Continue (set_equity i (capital s) s)
  else Continue s.

(** The off-hours gate of lines 154-155. *)
Definition skipped (timestamp : Timestamp) (s : State) : bool :=
  negb (is_trading_time timestamp) && negb (is_end_of_day timestamp)
  && nonempty (positions s).

(** The terminal liquidation test of line 149. *)
Definition terminal (last_data_date : Z) (timestamp : Timestamp) (s : State) : bool :=
  (ts_date timestamp =? last_data_date)%Z && (time 14 29 <=? ts_time timestamp)%Z
  && nonempty (positions s).

Definition loop_body (prices : list (Timestamp * Q)) (last_data_date : Z) (i : nat)
    (s : State) : Outcome :=
  match prices !! i with
  | None => Continue s
  | Some (timestamp, current_price) =>
      let s := rollover timestamp s in
      let s := daily_atr_bootstrap prices timestamp s in
      let current_atr := current_atr_of timestamp s in
      if terminal last_data_date timestamp s then
        let '(s, _) := close_all_positions current_price timestamp s in
        Continue (set_equity i (capital s) s)
      else if skipped timestamp s then Continue s
      else if negb (is_trading_time timestamp) || is_end_of_day timestamp then
        Continue (set_equity i (capital s) s)
      else
        trading_tick (map snd prices) i (i =? length prices - 1)%nat
          timestamp current_price current_atr s
  end.

(** [for i in range(1, len(prices))], left early by [return None]. *)
Fixpoint for_loop (body : nat -> State -> Outcome) (idxs : list nat) (s : State)
    : Outcome :=
  match idxs with
  | [] => Continue s
  | i :: rest =>
      match body i s with
      | Continue s' => for_loop body rest s'
      | ReturnNone s' => ReturnNone s'
      end
  end.

(** The state at the head of the loop: the constructor's defaults and
    lines 110-121, for a series that starts with [(t0, p0)] and has [n]
    points. *)
Definition initial_state (t0 : Timestamp) (p0 : Q) (n : nat) : State :=
  mkState (cfg_capital cfg) [] [] (Some (ts_date t0)) 0 [] 1 None p0
    (<[0%nat := Some (cfg_capital cfg)]> (replicate n None)) None 0.

Definition last_data_date (prices : list (Timestamp * Q)) : Z :=
  match last prices with
  | Some (t, _) => ts_date t
  | None => 0%Z
  end.

(** The loop of [backtest] on a non-empty series. *)
Definition run (prices : list (Timestamp * Q)) : Outcome :=
  match prices with
  | [] => ReturnNone (mkState (cfg_capital cfg) [] [] None 0 [] 1 None 0 [] None 0)
  | (t0, p0) :: _ =>
      for_loop (loop_body prices (last_data_date prices))
        (seq 1 (length prices - 1)) (initial_state t0 p0 (length prices))
  end.

(** The states after each processed tick, in order. *)
Fixpoint trace_from (body : nat -> State -> Outcome) (idxs : list nat) (s : State)
    : list State :=
  match idxs with
  | [] => []
  | i :: rest =>
      match body i s with
      | Continue s' => s' :: trace_from body rest s'
      | ReturnNone s' => [s']
      end
  end.

Definition trace (prices : list (Timestamp * Q)) : list State :=
  match prices with
  | [] => []
  | (t0, p0) :: _ =>
      trace_from (loop_body prices (last_data_date prices))
        (seq 1 (length prices - 1)) (initial_state t0 p0 (length prices))
  end.

End Engine.

(** ** Performance analytics and the result of [backtest] *)

Inductive Exception := ZeroDivisionError.

(** The entries of the result dictionary that are rational functions of
    the run.  [annual_return], the Sharpe and the Sortino ratio need a
    real power and a square root and the drawdown entries are not used
    below; they are left out.  The evaluation order of the source is
    kept: [252 / days] is a division of Python ints and comes right after
    [hpr]. *)
Record Metrics := mkMetrics {
  hpr : Q;
  turnover_ratio : Q;
  final_capital : Q;
  m_equity_series : list (Timestamp * Q) }.

Inductive Result :=
| Returned (m : Metrics)
| ReturnedNone
| Raised (e : Exception).

(** [self.equity_series.dropna()], with its index. *)
Fixpoint series_dropna (index : list Timestamp) (values : list (option Q))
    : list (Timestamp * Q) :=
  match index, values with
  | t :: index', Some v :: values' => (t, v) :: series_dropna index' values'
  | _ :: index', None :: values' => series_dropna index' values'
  | _, _ => []
  end.

Definition total_volume (ts : list Trade) : Z :=
  fold_right Z.add 0%Z (map (fun trade => Z.abs (t_size trade)) ts).

Definition calculate_performance_metrics (cfg : Config) (index : list Timestamp)
    (s : State) : Result :=
  let equity := series_dropna index (equity_series s) in
  match equity, last equity with
  | (first_t, first_e) :: _, Some (last_t, last_e) =>
      let hpr := (last_e / first_e - 1) * 100 in
      let days := timedelta_days first_t last_t in
      if (days =? 0)%Z then Raised ZeroDivisionError
      else
        let turnover_ratio :=
          inject_Z (total_volume (trades s)) * contract_value cfg / capital s * 100 in
        Returned (mkMetrics hpr turnover_ratio last_e equity)
  | _, _ => ReturnedNone
  end.

Definition backtest (cfg : Config) (prices : list (Timestamp * Q)) : Result :=
  match prices with
  | [] => ReturnedNone
  | _ =>
      match run cfg prices with
      | ReturnNone _ => ReturnedNone
      | Continue s => calculate_performance_metrics cfg (map fst prices) s
      end
  end.

(** ** Sample runs *)

Definition at_ (d h m : Z) : Timestamp := mkTs d (time h m).

(** One entry on the first day, an off-hours tick, a second day. *)
Definition series_a : list (Timestamp * Q) :=
  [ (at_ 0 9 0, 100); (at_ 0 9 1, 99); (at_ 0 15 0, 99); (at_ 1 9 0, 99) ].

(** Two days, each with two pre-market points ahead of its first
    trading tick: the changes are 2 on the first day and 5 on the second. *)
Definition series_c : list (Timestamp * Q) :=
  [ (at_ 0 8 45, 100); (at_ 0 8 50, 102); (at_ 0 9 0, 102);
    (at_ 1 8 45, 100); (at_ 1 8 50, 105); (at_ 1 9 0, 105) ].

(** One trading session of three ticks. *)
Definition series_d : list (Timestamp * Q) :=
  [ (at_ 0 9 0, 100); (at_ 0 9 1, 100); (at_ 0 9 2, 100) ].



(** A configuration without fees, otherwise the defaults. *)
Definition no_fee_config : Config :=
  mkConfig 500000000 100000 0.2 0 1.47 0.4 6 20 1.

(** ** The window-mode estimator in the words of the specification *)

(** The absolute tick-to-tick changes of a series. *)
Fixpoint abs_changes_from (prev : Q) (l : list Q) : list Q :=
  match l with
  | [] => []
  | x :: r => Qabs (x - prev) :: abs_changes_from x r
  end.

Definition abs_changes (prices : list Q) : list Q :=
  match prices with
  | [] => []
  | x :: r => abs_changes_from x r
  end.

Definition floor_half (window : nat) : nat := (window / 2)%nat.
Definition ceil_half (window : nat) : nat := ((window + 1) / 2)%nat.

(** The mean of the changes over the most recent [window] ticks, with the
    fallback when fewer than [threshold window] of them exist or there is
    none to average. *)
Definition window_atr_spec (threshold : nat -> nat) (prices : list Q)
    (window : nat) (last_valid_atr : Q) : Q :=
  let recent := tail window (abs_changes prices) in
  match recent with
  | [] => last_valid_atr
  | _ =>
      if (length recent <? threshold window)%nat then last_valid_atr
      else Qsum recent / inject_Z (Z.of_nat (length recent))
  end.

(** ** Reading the trade history *)

Definition kind_eqb (a b : Kind) : bool :=
  match a, b with
  | OPEN x, OPEN y | TAKE_PROFIT x, TAKE_PROFIT y | CLOSE x, CLOSE y => side_eqb x y
  | CLOSE_PAIR, CLOSE_PAIR | TOTAL_FEE, TOTAL_FEE | OVERNIGHT_FEE, OVERNIGHT_FEE => true
  | _, _ => false
  end.

(** The records that [new] has after those of [old]. *)
Definition appended (old new : list TradeRecord) : list TradeRecord :=
  skipn (length old) new.

Definition logs_total_fee (old new : list TradeRecord) : bool :=
  existsb (fun r => kind_eqb (r_kind r) TOTAL_FEE) (appended old new).

(** Profit after fee of closing [pos] at [current_price], and the record
    that [close_all_positions] writes for it. *)
Definition net_profit (cfg : Config) (current_price : Q) (pos : Position) : Q :=
  gross_profit cfg current_price pos - fee_per_trade cfg * contract_value cfg.

Definition close_record (cfg : Config) (current_price : Q) (timestamp : Timestamp)
    (pos : Position) : TradeRecord :=
  mkRec timestamp (CLOSE (p_side pos)) current_price (p_size pos)
    (net_profit cfg current_price pos) (fee_per_trade cfg * contract_value cfg).

(** The fee of closing [n] positions. *)
Definition closing_fees (cfg : Config) (n : nat) : Q :=
  inject_Z (Z.of_nat n) * (fee_per_trade cfg * contract_value cfg).

(** The ledger of [series_a] after its entry, without fees. *)
Definition one_buy_no_fee : State :=
  nth 0 (trace no_fee_config series_a) (initial_state no_fee_config (at_ 0 9 0) 100 4).

(** ** Predicates on states *)

(** The bookkeeping that only [check_daily_fee], the daily bootstrap and
    the equity mark write. *)
Definition same_books (s s' : State) : Prop :=
  daily_fee s' = daily_fee s /\ daily_atr s' = daily_atr s
  /\ equity_series s' = equity_series s.

(** Number of open positions of one side. *)
Definition count_side (sd : Side) (ps : list Position) : nat :=
  length (List.filter (is_side sd) ps).

(** The capacity bounds of the ledger. *)
Definition within_caps (s : State) : Prop :=
  (length (positions s) <= max_positions)%nat
  /\ (count_side BUY (positions s) <= 6)%nat
  /\ (count_side SELL (positions s) <= 6)%nat.

(** The forced close of one position, lines 294-300. *)
Definition close_one (cfg : Config) (current_price : Q) (timestamp : Timestamp)
    (pos : Position) (s : State) : State :=
  log (close_record cfg current_price timestamp pos)
    (set_positions (remove pos (positions s))
       (set_capital (capital s + net_profit cfg current_price pos) s)).

(** The take-profit close of one position, lines 181-187 and 192-198. *)
Definition take_profit_one (cfg : Config) (current_price : Q)
    (timestamp : Timestamp) (pos : Position) (s : State) : State :=
  let profit := net_profit cfg current_price pos in
  log (mkRec timestamp (TAKE_PROFIT (p_side pos)) current_price (p_size pos)
         profit (fee_per_trade cfg * contract_value cfg))
    (set_positions (remove pos (positions s))
       (set_capital (capital s + profit) s)).

(** The fees that the records of day [d] charge; a TOTAL_FEE record
    repeats the fees of the CLOSE records before it and is not counted. *)
Definition fees_paid_on (d : Z) (h : list TradeRecord) : Q :=
  Qsum (map r_fee
          (List.filter (fun r => (ts_date (r_time r) =? d)%Z
                                 && negb (kind_eqb (r_kind r) TOTAL_FEE)) h)).

(** The counters of the entry scan agree with the ledger. *)
Definition in_sync (acc : Z * Z * State) : Prop :=
  let '(num_buys, num_sells, s) := acc in
  num_buys = Z.of_nat (count_side BUY (positions s))
  /\ num_sells = Z.of_nat (count_side SELL (positions s))
  /\ (count_side BUY (positions s) <= 6)%nat
  /\ (count_side SELL (positions s) <= 6)%nat.

(** Some entry of the ledger equals [x] as a tuple. *)
Definition held (x : Position) (ps : list Position) : bool :=
  existsb (fun y => pos_eqb y x) ps.

(** ** Reading capital off the trade history *)

Definition sum_profit (h : list TradeRecord) : Q := Qsum (map r_profit h).
Definition sum_fee (h : list TradeRecord) : Q := Qsum (map r_fee h).

(** What a record accounts for in capital: its profit, which for the
    closing kinds is already net of the fee of the record, and for an
    OVERNIGHT_FEE record the fee it charges. *)
Definition explained_by (r : TradeRecord) : Q :=
  match r_kind r with
  | OVERNIGHT_FEE => r_profit r - r_fee r
  | _ => r_profit r
  end.

Definition explained (h : list TradeRecord) : Q := Qsum (map explained_by h).

(** Capital is the initial capital plus what the history accounts for. *)
Definition accounted (cfg : Config) (s : State) : Prop :=
  capital s == cfg_capital cfg + explained (trade_history s).

(** The fees charged by the OVERNIGHT_FEE records. *)
Definition overnight_fees (h : list TradeRecord) : Q :=
  Qsum (map r_fee (List.filter (fun r => kind_eqb (r_kind r) OVERNIGHT_FEE) h)).

(** ** The pivot *)

Definition max_loss_per_trade (cfg : Config) : Q := 500000 * max_loss cfg.


(** The tick at [timestamp] gets as far as the grid evaluation of line
    161 from state [s]. *)
Definition reaches_grid (last_date_of_data : Z) (timestamp : Timestamp) (s : State)
    : bool :=
  negb (terminal last_date_of_data timestamp s) && negb (skipped timestamp s)
  && is_trading_time timestamp && negb (is_end_of_day timestamp).

(** ** The slots of the equity series *)

(** The tick at [timestamp] meets state [s] outside trading hours and
    outside the end-of-day window with positions open, and is not the
    terminal liquidation: lines 154-155 leave it without a mark. *)
Definition gated (last_date_of_data : Z) (timestamp : Timestamp) (s : State) : bool :=
  negb (terminal last_date_of_data timestamp s) && skipped timestamp s.

(** The states that the ticks of a run start from and end in: the state
    at the head of the loop, then the state after each processed tick. *)
Definition timeline (cfg : Config) (prices : list (Timestamp * Q)) : list State :=
  match prices with
  | [] => []
  | (t0, p0) :: _ => initial_state cfg t0 p0 (length prices) :: trace cfg prices
  end.

(** ** Volatility estimator: [calculate_atr] with [window is None] *)

(** [s.rolling(window=period, min_periods=1).mean()]: at each index the
    mean of the values that are not NaN among the last [period] entries up
    to that index, NaN when there is none.  pandas accepts the call for
    [period >= 1]. *)
Definition rolling_mean (period : nat) (l : list (option Q)) : list (option Q) :=
  map (fun i => mean (dropna (tail period (firstn (S i) l)))) (seq 0 (length l)).

Definition isna (x : option Q) : bool :=
  match x with None => true | Some _ => false end.

(** [s.fillna(method='bfill')]: a NaN takes the next value that is not
    NaN, and stays when none follows. *)
Fixpoint bfill (l : list (option Q)) : list (option Q) :=
  match l with
  | [] => []
  | x :: r =>
      let r' := bfill r in
      match x with
      | Some _ => x :: r'
      | None => match r' with y :: _ => y :: r' | [] => None :: r' end
      end
  end.

(** Lines 11 and 15-18 of [calculate_atr]: the rolling mode, which
    returns a series over the index of [prices]. *)
Definition calculate_atr_rolling (prices : list Q) (period : nat)
    (last_valid_atr : Q) : list (option Q) :=
  let high_low := diff_abs prices in
  let atr_series := rolling_mean period high_low in
  if forallb isna atr_series
  then replicate (length prices) (Some last_valid_atr)
  else bfill atr_series.

(** ** The shape of the ledger *)

(** The ledger holds positions of one side only. *)
Definition one_sided (ps : list Position) : Prop :=
  count_side BUY ps = 0%nat \/ count_side SELL ps = 0%nat.

(** Every position is of one contract. *)
Definition unit_sizes (ps : list Position) : Prop :=
  Forall (fun p => p_size p = 1%Z) ps.

(** One side only, at most six positions of a side, one contract each,
    and a [size] of 0 before the grid is first computed and 1 after. *)
Definition well_formed (s : State) : Prop :=
  one_sided (positions s)
  /\ (count_side BUY (positions s) <= 6)%nat
  /\ (count_side SELL (positions s) <= 6)%nat
  /\ unit_sizes (positions s)
  /\ match grid_size s with None => size s = 0%Z | Some _ => size s = 1%Z end.

(** What the entry scan keeps from turn to turn: counters in step with a
    one-sided ledger of unit positions, a [size] of 1 and the grid size
    [g0] it started with. *)
Definition scan_shape (g0 : option Q) (acc : Z * Z * State) : Prop :=
  in_sync acc /\ one_sided (positions acc.2) /\ unit_sizes (positions acc.2)
  /\ size acc.2 = 1%Z /\ grid_size acc.2 = g0.

(** The grid size, once computed, lies between the floor of the
    configuration and the ceiling of 10. *)
Definition grid_clamped (cfg : Config) (s : State) : Prop :=
  match grid_size s with
  | Some g => minimum_grid_size cfg <= g /\ g <= 10
  | None => True
  end.

(** State [s'] has the trade history and the entries of [s], and maybe
    more after them. *)
Definition extends (s s' : State) : Prop :=
  (exists k, trade_history s' = trade_history s ++ k)
  /\ (exists k, trades s' = trades s ++ k).

(** The overnight fee that the tick at [timestamp] finds to charge in
    state [s]: 2550 for each open position when the date differs from the
    one last seen, nothing otherwise. *)
Definition overnight_charge (timestamp : Timestamp) (s : State) : Q :=
  match last_date s with
  | Some d =>
      if (d =? ts_date timestamp)%Z then 0
      else inject_Z (Z.of_nat (length (positions s))) * 2550
  | None => inject_Z (Z.of_nat (length (positions s))) * 2550
  end.

(** The date last seen is the one of [timestamp] and the fees of the
    OVERNIGHT_FEE records sum to [c]. *)
Definition dated (timestamp : Timestamp) (c : Q) (u : State) : Prop :=
  last_date u = Some (ts_date timestamp) /\ overnight_fees (trade_history u) == c.

(** ** The drawdown of the analytics, lines 320-322 *)

(** [equity.cummax()]: the running maximum. *)
Fixpoint cummax_from (m : Q) (l : list Q) : list Q :=
  match l with
  | [] => []
  | x :: r => pymax m x :: cummax_from (pymax m x) r
  end.

Definition cummax (l : list Q) : list Q :=
  match l with
  | [] => []
  | x :: r => x :: cummax_from x r
  end.

(** [(equity - rolling_max) / rolling_max * 100]. *)
Definition drawdowns (equity : list Q) : list Q :=
  zip_with (fun e rolling_max => (e - rolling_max) / rolling_max * 100)
    equity (cummax equity).

(** [s.min()]: NaN on an empty series. *)
Definition series_min (l : list Q) : option Q :=
  match l with
  | [] => None
  | x :: r => Some (fold_left pymin r x)
  end.

Definition max_drawdown (equity : list Q) : option Q :=
  series_min (drawdowns equity).

(** ** The date range of [prepare_data], data_fetcher.py lines 128-141 *)

Definition in_date_range (start_date end_date : Timestamp) (tp : Timestamp * Q)
    : bool :=
  ts_leb start_date (fst tp) && ts_leb (fst tp) end_date.

(** The part of [prepare_data] that follows the fetch or load: [loaded]
    is the series obtained, [None] when every source failed.  The
    result is [None] when no point falls in the range. *)
Definition prepare_data (start_date end_date : Timestamp)
    (loaded : option (list (Timestamp * Q))) : option (list (Timestamp * Q)) :=
  match loaded with
  | Some prices =>
      let prices := List.filter (in_date_range start_date end_date) prices in
      match prices with
      | [] => None
      | _ => Some prices
      end
  | None => None
  end.

(** The entries that a trade history records, in the form in which
    [self.trades] keeps an entry. *)
Definition entries_of (h : list TradeRecord) : list Trade :=
  flat_map (fun r => match r_kind r with
                     | OPEN sd => [mkTrade sd (r_price r) (r_price r) (r_size r)]
                     | _ => []
                     end) h.

(** [self.trades] agrees with the entries of [self.trade_history], one
    contract each. *)
Definition booked (s : State) : Prop :=
  trades s = entries_of (trade_history s)
  /\ Forall (fun trade => t_size trade = 1%Z) (trades s).

(** A record written at the tick [(timestamp, price)] carries the time
    of the tick and its price, an OVERNIGHT_FEE record the price 0. *)
Definition stamped (timestamp : Timestamp) (price : Q) (r : TradeRecord) : Prop :=
  r_time r = timestamp
  /\ match r_kind r with
     | OVERNIGHT_FEE => r_price r = 0
     | _ => r_price r = price
     end.

(** [u] has the history of [s] and then records of the tick only. *)
Definition written (timestamp : Timestamp) (price : Q) (s u : State) : Prop :=
  exists k,
    trade_history u = trade_history s ++ k /\ Forall (stamped timestamp price) k.

(** * Proofs *)

(** ** Booleans and numbers *)

Lemma Qlt_bool_iff (x y : Q) : Qlt_bool x y = true <-> x < y.
Proof.
  unfold Qlt_bool. rewrite negb_true_iff, <- not_true_iff_false, Qle_bool_iff.
  split; [apply Qnot_le_lt | apply Qlt_not_le].
Qed.

Lemma Qlt_bool_false (x y : Q) : Qlt_bool x y = false <-> y <= x.
Proof.
  unfold Qlt_bool. rewrite negb_false_iff. apply Qle_bool_iff.
Qed.

(** ** The estimator *)

Lemma dropna_diff_abs_from (prev : Q) (l : list Q) (k : nat) :
  dropna (skipn k (diff_abs_from prev l)) = skipn k (abs_changes_from prev l).
Proof.
  revert prev k. induction l as [|x r IH]; intros prev k.
  - now destruct k.
  - destruct k as [|k]; simpl.
    + f_equal. apply (IH x 0%nat).
    + apply IH.
Qed.

Lemma length_diff_abs_from (prev : Q) (l : list Q) :
  length (diff_abs_from prev l) = length (abs_changes_from prev l).
Proof.
  revert prev. induction l as [|x r IH]; intros prev; simpl; [reflexivity|].
  now rewrite IH.
Qed.

Lemma dropna_tail_diff_abs (prices : list Q) (window : nat) :
  dropna (tail window (diff_abs prices)) = tail window (abs_changes prices).
Proof.
  destruct prices as [|x r]; unfold tail; simpl.
  - now destruct window.
  - rewrite length_diff_abs_from.
    set (n := length (abs_changes_from x r)).
    destruct (Nat.le_gt_cases window n) as [Hle | Hgt].
    + replace (S n - window)%nat with (S (n - window)) by lia.
      simpl. apply dropna_diff_abs_from.
    + replace (S n - window)%nat with 0%nat by lia.
      replace (n - window)%nat with 0%nat by lia.
      simpl. apply (dropna_diff_abs_from x r 0).
Qed.

(** C6, as stated: on two prices and a window of three there is one valid
    change, fewer than the two that half the window rounded up asks for,
    and the estimator returns the mean all the same. *)
Lemma calculate_atr_ceil_half_counterexample :
  calculate_atr [1; 2] 3 7 == 1 /\
  window_atr_spec ceil_half [1; 2] 3 7 == 7 /\
  ~ calculate_atr [1; 2] 3 7 == window_atr_spec ceil_half [1; 2] 3 7.
Proof.
  repeat split; try (vm_compute; reflexivity).
  vm_compute. discriminate.
Qed.

(** C6, amended: window-mode [calculate_atr] is the mean of the absolute
    tick-to-tick changes over the most recent [window] ticks, and it is
    [last_valid_atr] exactly when fewer than [window / 2] rounded down of
    them exist or there is none to average. *)
Theorem calculate_atr_window_floor_half (prices : list Q) (window : nat)
    (last_valid_atr : Q) :
  calculate_atr prices window last_valid_atr
  = window_atr_spec floor_half prices window last_valid_atr.
Proof.
  unfold calculate_atr, window_atr_spec, floor_half.
  rewrite dropna_tail_diff_abs.
  destruct (tail window (abs_changes prices)) as [|d ds] eqn:E; [reflexivity|].
  cbn [mean].
  destruct (Nat.leb_spec (window / 2) (length (d :: ds))) as [H|H];
    destruct (Nat.ltb_spec (length (d :: ds)) (window / 2)) as [H'|H'];
    try reflexivity; lia.
Qed.

(** ** Forced liquidation *)

Lemma pos_eqb_refl (p : Position) : pos_eqb p p = true.
Proof.
  unfold pos_eqb. destruct p as [[] e z]; simpl;
    rewrite Z.eqb_refl, andb_true_r; apply Qeq_bool_iff; reflexivity.
Qed.

Lemma remove_head (p : Position) (l : list Position) : remove p (p :: l) = l.
Proof. simpl. now rewrite pos_eqb_refl. Qed.

Section Liquidation.

Variable cfg : Config.
Variables (current_price : Q) (timestamp : Timestamp).

Lemma close_loop_cons (pos : Position) (rest : list Position) (s : State)
    (tp tf : Q) :
  close_loop cfg current_price timestamp (pos :: rest) (s, (tp, tf))
  = close_loop cfg current_price timestamp rest
      (close_one cfg current_price timestamp pos s,
       (tp + net_profit cfg current_price pos,
        tf + fee_per_trade cfg * contract_value cfg)).
Proof. reflexivity. Qed.

Lemma close_loop_spec (copy : list Position) :
  forall (s : State) (tp tf : Q),
    positions s = copy ->
    let r := close_loop cfg current_price timestamp copy (s, (tp, tf)) in
    positions r.1 = []
    /\ capital r.1 == capital s + Qsum (map (net_profit cfg current_price) copy)
    /\ r.2.1 == tp + Qsum (map (net_profit cfg current_price) copy)
    /\ r.2.2 == tf + closing_fees cfg (length copy)
    /\ trade_history r.1
       = trade_history s ++ map (close_record cfg current_price timestamp) copy.
Proof.
  induction copy as [|pos rest IH]; intros s tp tf Hs.
  - cbn. unfold closing_fees. cbn. rewrite app_nil_r.
    repeat split; auto; ring.
  - rewrite close_loop_cons.
    assert (Hp : positions (close_one cfg current_price timestamp pos s) = rest)
      by (cbn; rewrite Hs; apply remove_head).
    destruct (IH (close_one cfg current_price timestamp pos s) (tp + net_profit cfg current_price pos)
                (tf + fee_per_trade cfg * contract_value cfg) Hp)
      as (H1 & H2 & H3 & H4 & H5).
    cbn zeta. repeat split.
    + exact H1.
    + rewrite H2. cbn. ring.
    + rewrite H3. cbn. ring.
    + rewrite H4. unfold closing_fees.
      change (length (pos :: rest)) with (S (length rest)).
      rewrite Nat2Z.inj_succ, <- Z.add_1_r, inject_Z_plus. ring.
    + rewrite H5. cbn. now rewrite <- app_assoc.
Qed.

Lemma close_loop_frame (copy : list Position) :
  forall (s : State) (tp tf : Q),
    let s' := (close_loop cfg current_price timestamp copy (s, (tp, tf))).1 in
    trades s' = trades s /\ last_date s' = last_date s
    /\ daily_fee s' = daily_fee s /\ last_valid_atr s' = last_valid_atr s
    /\ daily_atr s' = daily_atr s /\ current_pivot s' = current_pivot s
    /\ equity_series s' = equity_series s /\ grid_size s' = grid_size s
    /\ size s' = size s.
Proof.
  induction copy as [|pos rest IH]; intros s tp tf.
  - cbn. repeat split.
  - rewrite close_loop_cons. apply (IH (close_one cfg current_price timestamp pos s)).
Qed.

End Liquidation.

Lemma trade_history_log (r : TradeRecord) (s : State) :
  trade_history (log r s) = trade_history s ++ [r].
Proof. reflexivity. Qed.

Lemma appended_app (old new : list TradeRecord) : appended old (old ++ new) = new.
Proof.
  unfold appended. now rewrite drop_app_length.
Qed.

Lemma existsb_close_records (cfg : Config) (price : Q) (timestamp : Timestamp)
    (ps : list Position) :
  existsb (fun r => kind_eqb (r_kind r) TOTAL_FEE)
    (map (close_record cfg price timestamp) ps) = false.
Proof.
  induction ps as [|p ps IH]; [reflexivity|]. simpl. exact IH.
Qed.

Lemma close_all_positions_frame (cfg : Config) (price : Q) (timestamp : Timestamp)
    (s : State) :
  let s' := (close_all_positions cfg price timestamp s).1 in
  trades s' = trades s /\ last_date s' = last_date s
  /\ daily_fee s' = daily_fee s /\ last_valid_atr s' = last_valid_atr s
  /\ daily_atr s' = daily_atr s /\ current_pivot s' = current_pivot s
  /\ equity_series s' = equity_series s /\ grid_size s' = grid_size s
  /\ size s' = size s.
Proof.
  unfold close_all_positions.
  pose proof (close_loop_frame cfg price timestamp (positions s) s 0 0) as H.
  destruct (close_loop cfg price timestamp (positions s) (s, (0, 0)))
    as [s1 [tp tf]]. cbn zeta in H. cbn [fst] in H.
  destruct (Qlt_bool 0 tf); cbn; exact H.
Qed.

(** The ledger is empty after [close_all_positions], whatever it held. *)
Lemma close_all_positions_empty (cfg : Config) (price : Q) (timestamp : Timestamp)
    (s : State) :
  positions (close_all_positions cfg price timestamp s).1 = [].
Proof.
  unfold close_all_positions.
  pose proof (close_loop_spec cfg price timestamp (positions s) s 0 0 eq_refl) as H.
  destruct (close_loop cfg price timestamp (positions s) (s, (0, 0)))
    as [s1 [tp tf]]. cbn zeta in H. cbn [fst] in H.
  destruct H as (H & _). destruct (Qlt_bool 0 tf); cbn; exact H.
Qed.

(** C10, as stated: without a per-trade fee the ledger of [series_a] is
    closed, one position leaves it, and no TOTAL_FEE record is written. *)
Lemma close_all_positions_total_fee_counterexample :
  let s := one_buy_no_fee in
  let r := close_all_positions no_fee_config 99 (at_ 1 9 0) s in
  positions s = [mkPos BUY 99 1]
  /\ positions r.1 = []
  /\ logs_total_fee (trade_history s) (trade_history r.1) = false
  /\ ~ (logs_total_fee (trade_history s) (trade_history r.1) = true
        <-> positions s <> []).
Proof.
  cbv zeta. repeat split; try (vm_compute; reflexivity).
  intros [_ H].
  assert (E : logs_total_fee (trade_history one_buy_no_fee)
                (trade_history
                   (close_all_positions no_fee_config 99 (at_ 1 9 0)
                      one_buy_no_fee).1) = false)
    by (vm_compute; reflexivity).
  rewrite E in H. discriminate H. vm_compute. discriminate.
Qed.

(** What [close_all_positions] does to capital, ledger and history. *)
Lemma close_all_positions_effect (cfg : Config) (current_price : Q)
    (timestamp : Timestamp) (s : State) :
  let r := close_all_positions cfg current_price timestamp s in
  let fees := closing_fees cfg (length (positions s)) in
  let closes := map (close_record cfg current_price timestamp) (positions s) in
  positions r.1 = []
  /\ capital r.1 == capital s + r.2
  /\ r.2 == Qsum (map (net_profit cfg current_price) (positions s))
  /\ logs_total_fee (trade_history s) (trade_history r.1) = Qlt_bool 0 fees
  /\ (exists tail_records,
        trade_history r.1 = trade_history s ++ closes ++ tail_records
        /\ (tail_records = []
            \/ exists total_fee,
                 total_fee == fees
                 /\ tail_records
                    = [mkRec timestamp TOTAL_FEE current_price 0 0 total_fee])).
Proof.
  cbv zeta. unfold close_all_positions.
  pose proof (close_loop_spec cfg current_price timestamp (positions s) s 0 0 eq_refl)
    as H.
  destruct (close_loop cfg current_price timestamp (positions s) (s, (0, 0)))
    as [s1 [tp tf]]. cbn zeta in H. cbn [fst snd] in H.
  destruct H as (H1 & H2 & H3 & H4 & H5).
  assert (Htf : tf == closing_fees cfg (length (positions s)))
    by (rewrite H4; ring).
  assert (Hb : Qlt_bool 0 tf = Qlt_bool 0 (closing_fees cfg (length (positions s)))).
  { destruct (Qlt_bool 0 tf) eqn:E1;
      destruct (Qlt_bool 0 (closing_fees cfg (length (positions s)))) eqn:E2;
      try reflexivity.
    - apply Qlt_bool_iff in E1. apply Qlt_bool_false in E2. lra.
    - apply Qlt_bool_iff in E2. apply Qlt_bool_false in E1. lra. }
  rewrite <- Hb. destruct (Qlt_bool 0 tf) eqn:E; cbn [fst snd].
  - repeat split.
    + exact H1.
    + cbn. rewrite H2, H3. ring.
    + rewrite H3. ring.
    + unfold logs_total_fee. rewrite trade_history_log, H5, <- app_assoc.
      rewrite appended_app, existsb_app, existsb_close_records. reflexivity.
    + eexists. split.
      * rewrite trade_history_log, H5, <- app_assoc. reflexivity.
      * right. exists tf. split; [exact Htf | reflexivity].
  - repeat split.
    + exact H1.
    + rewrite H2, H3. ring.
    + rewrite H3. ring.
    + rewrite H5. unfold logs_total_fee. rewrite appended_app.
      apply existsb_close_records.
    + exists []. split; [now rewrite app_nil_r | now left].
Qed.

(** C10, amended: after [close_all_positions] the ledger is empty, capital
    has grown by the returned total profit, which is the sum over the
    positions held of the side-signed price difference times size times
    [contract_value] less [fee_per_trade * contract_value] each; one
    CLOSE record per position is appended, and a TOTAL_FEE record after
    them if and only if the fee of the closed positions, their number
    times [fee_per_trade * contract_value], is strictly positive. *)
Theorem close_all_positions_spec (cfg : Config) (current_price : Q)
    (timestamp : Timestamp) (s : State) :
  let r := close_all_positions cfg current_price timestamp s in
  positions r.1 = []
  /\ capital r.1 == capital s + r.2
  /\ r.2 == Qsum (map (net_profit cfg current_price) (positions s))
  /\ firstn (length (positions s)) (appended (trade_history s) (trade_history r.1))
     = map (close_record cfg current_price timestamp) (positions s)
  /\ (logs_total_fee (trade_history s) (trade_history r.1) = true
      <-> 0 < closing_fees cfg (length (positions s))).
Proof.
  destruct (close_all_positions_effect cfg current_price timestamp s)
    as (H1 & H2 & H3 & H4 & (tl & H5 & _)).
  cbv zeta. refine (conj H1 (conj H2 (conj H3 (conj _ _)))).
  - rewrite H5, appended_app. apply take_app_length'. now rewrite length_map.
  - rewrite H4. apply Qlt_bool_iff.
Qed.

(** With a positive fee per trade the TOTAL_FEE record tells whether a
    position was closed. *)
Lemma close_all_positions_total_fee_positive (cfg : Config) (current_price : Q)
    (timestamp : Timestamp) (s : State) :
  0 < fee_per_trade cfg * contract_value cfg ->
  logs_total_fee (trade_history s)
    (trade_history (close_all_positions cfg current_price timestamp s).1) = true
  <-> positions s <> [].
Proof.
  intros Hfee.
  destruct (close_all_positions_effect cfg current_price timestamp s)
    as (_ & _ & _ & H4 & _).
  cbv zeta in H4. rewrite H4, Qlt_bool_iff. unfold closing_fees.
  destruct (positions s) as [|p ps]; cbn [length].
  - split; [|congruence]. intros H. exfalso. revert H.
    change (~ 0 < 0 * (fee_per_trade cfg * contract_value cfg)). lra.
  - split; [discriminate|]. intros _.
    apply Qmult_lt_0_compat; [|exact Hfee].
    change 0 with (inject_Z 0). rewrite <- Zlt_Qlt. lia.
Qed.

(** ** Loops and invariants *)

Ltac case_cond :=
  match goal with
  | |- context [if ?c then _ else _] => destruct c eqn:?
  | |- context [match ?l with [] => _ | _ :: _ => _ end] => destruct l eqn:?
  | |- context [match ?o with Some _ => _ | None => _ end] => destruct o eqn:?
  end.

Lemma for_loop_invariant (Inv : State -> Prop) (body : nat -> State -> Outcome)
    (idxs : list nat) :
  (forall i s, In i idxs -> Inv s -> Inv (outcome_state (body i s))) ->
  forall s, Inv s -> Inv (outcome_state (for_loop body idxs s)).
Proof.
  induction idxs as [|i rest IH]; intros Hb s Hs; [exact Hs|].
  cbn [for_loop]. pose proof (Hb i s (or_introl eq_refl) Hs) as H.
  destruct (body i s) as [s'|s']; cbn in H |- *; [|exact H].
  apply IH; [|exact H]. intros j t Hj. apply Hb. now right.
Qed.

Lemma trace_from_invariant (Inv : State -> Prop) (body : nat -> State -> Outcome)
    (idxs : list nat) :
  (forall i s, In i idxs -> Inv s -> Inv (outcome_state (body i s))) ->
  forall s, Inv s -> Forall Inv (trace_from body idxs s).
Proof.
  induction idxs as [|i rest IH]; intros Hb s Hs; [constructor|].
  cbn [trace_from]. pose proof (Hb i s (or_introl eq_refl) Hs) as H.
  destruct (body i s) as [s'|s']; cbn in H.
  - constructor; [exact H|]. apply IH; [|exact H].
    intros j t Hj. apply Hb. now right.
  - constructor; [exact H | constructor].
Qed.

(** ** What each operation leaves alone *)

Lemma same_books_refl (s : State) : same_books s s.
Proof. repeat split. Qed.

Lemma same_books_trans (a b c : State) :
  same_books a b -> same_books b c -> same_books a c.
Proof.
  unfold same_books. intros (H1 & H2 & H3) (H4 & H5 & H6).
  repeat split; congruence.
Qed.

Section Frames.

Variable cfg : Config.

Lemma close_all_positions_books (price : Q) (timestamp : Timestamp) (s : State) :
  same_books s (close_all_positions cfg price timestamp s).1.
Proof.
  pose proof (close_all_positions_frame cfg price timestamp s) as H.
  cbv zeta in H. unfold same_books. tauto.
Qed.

Lemma apply_overnight_fee_books (timestamp : Timestamp) (s : State) :
  same_books s (apply_overnight_fee timestamp s).
Proof.
  unfold apply_overnight_fee. destruct (positions s); repeat split.
Qed.

Lemma calculate_grid_state (price : Q) (atr : option Q) (values : list Q)
    (i : nat) (s : State) :
  (calculate_grid cfg price atr values i s).1
  = match atr with Some a => set_last_valid_atr a s | None => s end.
Proof.
  unfold calculate_grid. destruct atr; reflexivity.
Qed.

Lemma rebase_books (values : list Q) (i : nat) (price : Q) (s : State) :
  same_books s (rebase cfg values i price s).
Proof.
  unfold rebase.
  match goal with |- context [calculate_grid cfg ?p ?a ?v ?j ?t] =>
    pose proof (calculate_grid_state p a v j t) as H;
    destruct (calculate_grid cfg p a v j t) as [s1 [g sz]] end.
  cbn [fst] in H. subst s1. repeat split.
Qed.

Lemma rebase_fields (values : list Q) (i : nat) (price : Q) (s : State) :
  let s' := rebase cfg values i price s in
  capital s' = capital s /\ positions s' = positions s
  /\ trades s' = trades s /\ trade_history s' = trade_history s
  /\ last_date s' = last_date s /\ current_pivot s' = price.
Proof.
  unfold rebase.
  match goal with |- context [calculate_grid cfg ?p ?a ?v ?j ?t] =>
    pose proof (calculate_grid_state p a v j t) as H;
    destruct (calculate_grid cfg p a v j t) as [s1 [g sz]] end.
  cbn [fst] in H. subst s1. repeat split.
Qed.

Lemma exit_loop_books (values : list Q) (i : nat) (timestamp : Timestamp)
    (price tp ml : Q) (copy : list Position) :
  forall s, same_books s (exit_loop cfg values i timestamp price tp ml copy s).1.
Proof.
  induction copy as [|pos rest IH]; intros s; [apply same_books_refl|].
  cbn [exit_loop]. cbv zeta.
  destruct (Qle_bool tp (gross_profit cfg price pos)).
  - eapply same_books_trans; [|apply IH]. repeat split.
  - case_cond; [|apply IH].
    pose proof (close_all_positions_books price timestamp s) as H.
    destruct (close_all_positions cfg price timestamp s) as [s1 tot].
    cbn [fst] in *. eapply same_books_trans; [exact H|apply rebase_books].
Qed.

Lemma entry_iter_books (timestamp : Timestamp) (price g : Q) (n : Z)
    (acc : Z * Z * State) :
  same_books acc.2 (entry_iter cfg timestamp price g n acc).2.
Proof.
  destruct acc as [[nb ns] s]. unfold entry_iter.
  repeat case_cond; repeat split.
Qed.

Lemma entry_loop_books (timestamp : Timestamp) (price g : Q) (ns : list Z) :
  forall acc, same_books acc.2 (entry_loop cfg timestamp price g ns acc).2.
Proof.
  induction ns as [|n rest IH]; intros acc; [apply same_books_refl|].
  cbn [entry_loop]. eapply same_books_trans; [apply entry_iter_books | apply IH].
Qed.

End Frames.

(** ** An invariant of the primitive steps is an invariant of the tick *)

Section Preservation.

Variable cfg : Config.
Variable prices : list (Timestamp * Q).
Variable Inv : State -> Prop.

Hypothesis Inv_rollover : forall timestamp s, Inv s -> Inv (rollover timestamp s).
Hypothesis Inv_bootstrap :
  forall timestamp s, Inv s -> Inv (daily_atr_bootstrap prices timestamp s).
Hypothesis Inv_close_all :
  forall price timestamp s, Inv s -> Inv (close_all_positions cfg price timestamp s).1.
Hypothesis Inv_equity : forall i v s, Inv s -> Inv (set_equity i v s).
Hypothesis Inv_pivot : forall v s, Inv s -> Inv (set_current_pivot v s).
Hypothesis Inv_atr : forall v s, Inv s -> Inv (set_last_valid_atr v s).
Hypothesis Inv_grid : forall g sz s, Inv s -> Inv (set_grid g sz s).
Hypothesis Inv_take_profit :
  forall price timestamp pos s, Inv s -> Inv (take_profit_one cfg price timestamp pos s).
Hypothesis Inv_entry :
  forall timestamp price forced s, Inv s -> Inv (entry_step cfg timestamp price forced s).

Lemma Inv_calculate_grid (price : Q) (atr : option Q) (values : list Q) (i : nat)
    (s : State) :
  Inv s -> Inv (calculate_grid cfg price atr values i s).1.
Proof.
  intros H. rewrite calculate_grid_state. destruct atr; auto.
Qed.

Lemma Inv_rebase (values : list Q) (i : nat) (price : Q) (s : State) :
  Inv s -> Inv (rebase cfg values i price s).
Proof.
  intros H. unfold rebase.
  match goal with |- context [calculate_grid cfg ?p ?a ?v ?j ?t] =>
    pose proof (Inv_calculate_grid p a v j t) as Hg;
    destruct (calculate_grid cfg p a v j t) as [s1 [g sz]] end.
  cbn [fst] in Hg. auto.
Qed.

Lemma Inv_init_grid (values : list Q) (i : nat) (price atr : Q) (s : State) :
  Inv s -> Inv (init_grid cfg values i price atr s).
Proof.
  intros H. unfold init_grid. destruct (grid_size s); [exact H|].
  match goal with |- context [calculate_grid cfg ?p ?a ?v ?j ?t] =>
    pose proof (Inv_calculate_grid p a v j t) as Hg;
    destruct (calculate_grid cfg p a v j t) as [s1 [g sz]] end.
  cbn [fst] in Hg. auto.
Qed.

Lemma Inv_breach_step (values : list Q) (i : nat) (timestamp : Timestamp)
    (price : Q) (s : State) :
  Inv s -> Inv (breach_step cfg values i timestamp price s).1.
Proof.
  intros H. unfold breach_step. destruct (out_of_band cfg price s); [|exact H].
  pose proof (Inv_close_all price timestamp s H) as Hc.
  destruct (close_all_positions cfg price timestamp s) as [s1 tot].
  cbn [fst] in *. now apply Inv_rebase.
Qed.

Lemma exit_loop_cons (values : list Q) (i : nat) (timestamp : Timestamp)
    (price tp ml : Q) (pos : Position) (rest : list Position) (s : State) :
  exit_loop cfg values i timestamp price tp ml (pos :: rest) s
  = if Qle_bool tp (gross_profit cfg price pos) then
      exit_loop cfg values i timestamp price tp ml rest
        (take_profit_one cfg price timestamp pos s)
    else if Qle_bool ml (loss_of cfg price pos)
    then (rebase cfg values i price (close_all_positions cfg price timestamp s).1, true)
    else exit_loop cfg values i timestamp price tp ml rest s.
Proof.
  cbn [exit_loop]. cbv zeta.
  destruct (close_all_positions cfg price timestamp s). reflexivity.
Qed.

Lemma Inv_exit_loop (values : list Q) (i : nat) (timestamp : Timestamp)
    (price tp ml : Q) (copy : list Position) :
  forall s, Inv s -> Inv (exit_loop cfg values i timestamp price tp ml copy s).1.
Proof.
  induction copy as [|pos rest IH]; intros s H; [exact H|].
  rewrite exit_loop_cons. repeat case_cond; cbn [fst]; auto using Inv_rebase.
Qed.

Lemma Inv_trading_tick (values : list Q) (i : nat) (is_last : bool)
    (timestamp : Timestamp) (price atr : Q) (s : State) :
  Inv s ->
  Inv (outcome_state (trading_tick cfg values i is_last timestamp price atr s)).
Proof.
  intros H. unfold trading_tick.
  pose proof (Inv_init_grid values i price atr s H) as H1.
  set (s1 := init_grid cfg values i price atr s) in *.
  pose proof (Inv_breach_step values i timestamp price s1 H1) as H2.
  destruct (breach_step cfg values i timestamp price s1) as [s2 b].
  cbn [fst] in H2. unfold exit_step.
  match goal with |- context [exit_loop cfg ?v ?j ?t ?p ?a ?b ?c ?u] =>
    pose proof (Inv_exit_loop v j t p a b c u H2) as H3;
    destruct (exit_loop cfg v j t p a b c u) as [s3 forced] end.
  cbn [fst] in H3.
  pose proof (Inv_entry timestamp price forced s3 H3) as H4.
  set (s4 := entry_step cfg timestamp price forced s3) in *.
  pose proof (Inv_equity i (mark cfg price s4) s4 H4) as H5.
  set (s5 := set_equity i (mark cfg price s4) s4) in *.
  destruct (Qlt_bool (capital s5) 0); [exact H5|].
  destruct (is_last && nonempty (positions s5)); [|exact H5].
  pose proof (Inv_close_all price timestamp s5 H5) as H6.
  destruct (close_all_positions cfg price timestamp s5) as [s6 tot].
  cbn [fst outcome_state] in *. auto.
Qed.

Lemma Inv_loop_body (ld : Z) (i : nat) (s : State) :
  Inv s -> Inv (outcome_state (loop_body cfg prices ld i s)).
Proof.
  intros H. unfold loop_body.
  destruct (prices !! i) as [[timestamp price]|]; [|exact H].
  pose proof (Inv_bootstrap timestamp _ (Inv_rollover timestamp s H)) as H1.
  set (s1 := daily_atr_bootstrap prices timestamp (rollover timestamp s)) in *.
  destruct (terminal ld timestamp s1).
  - pose proof (Inv_close_all price timestamp s1 H1) as H2.
    destruct (close_all_positions cfg price timestamp s1) as [s2 tot].
    cbn [fst outcome_state] in *. auto.
  - destruct (skipped timestamp s1); [exact H1|].
    destruct (negb (is_trading_time timestamp) || is_end_of_day timestamp).
    + cbn [outcome_state]. auto.
    + now apply Inv_trading_tick.
Qed.

End Preservation.

(** Every state of a run satisfies whatever holds at the head of the loop
    and is kept by each tick. *)
Lemma Inv_trace (cfg : Config) (prices : list (Timestamp * Q)) (Inv : State -> Prop) :
  (forall t0 p0 n, Inv (initial_state cfg t0 p0 n)) ->
  (forall ld i s, Inv s -> Inv (outcome_state (loop_body cfg prices ld i s))) ->
  Forall Inv (trace cfg prices).
Proof.
  intros H0 Hb. unfold trace.
  destruct prices as [|[t0 p0] rest] eqn:E; [constructor|]. rewrite <- E in *.
  apply trace_from_invariant; [|apply H0]. intros. now apply Hb.
Qed.

Lemma Inv_run (cfg : Config) (prices : list (Timestamp * Q)) (Inv : State -> Prop) :
  (forall t0 p0 n, Inv (initial_state cfg t0 p0 n)) ->
  (forall ld i s, Inv s -> Inv (outcome_state (loop_body cfg prices ld i s))) ->
  prices <> [] ->
  Inv (outcome_state (run cfg prices)).
Proof.
  intros H0 Hb Hne. unfold run.
  destruct prices as [|[t0 p0] rest] eqn:E; [contradiction|]. rewrite <- E in *.
  apply for_loop_invariant; [|apply H0]. intros. now apply Hb.
Qed.

(** ** The entry stage and the bookkeeping *)

Lemma entry_step_books (cfg : Config) (timestamp : Timestamp) (price : Q)
    (forced : bool) (s : State) :
  let s' := entry_step cfg timestamp price forced s in
  daily_atr s' = daily_atr s /\ equity_series s' = equity_series s
  /\ (daily_fee s == 0 -> daily_fee s' == 0).
Proof.
  unfold entry_step. case_cond; [|repeat split; auto].
  unfold check_daily_fee. cbv zeta.
  match goal with |- context [set_daily_fee ?v ?t] => set (s1 := set_daily_fee v t) end.
  assert (H1 : daily_atr s1 = daily_atr s /\ equity_series s1 = equity_series s
               /\ (daily_fee s == 0 -> daily_fee s1 == 0)).
  { subst s1. repeat case_cond; cbn; repeat split; intros; lra. }
  destruct H1 as (Ha & Hb & Hc).
  case_cond; [|repeat split; auto].
  match goal with |- context [entry_loop cfg ?t ?p ?g ?ns ?acc] =>
    pose proof (entry_loop_books cfg t p g ns acc) as (H2 & H3 & H4) end.
  cbn [snd] in *. repeat split; try congruence. intros. rewrite H2. auto.
Qed.

(** ** The daily fee accumulator *)

(** The accumulator is fed by [check_daily_fee] alone, and its only call
    passes a fee of zero: it is zero after every tick. *)
Lemma daily_fee_stays_zero (cfg : Config) (prices : list (Timestamp * Q)) :
  Forall (fun s => daily_fee s == 0) (trace cfg prices).
Proof.
  apply (Inv_trace cfg prices (fun s => daily_fee s == 0)).
  - intros. reflexivity.
  - intros ld i s H. apply Inv_loop_body; [| | | | | | | | |exact H].
    + intros t u Hu. unfold rollover. case_cond; [exact Hu|].
      cbn. now rewrite (proj1 (apply_overnight_fee_books t u)).
    + intros t u Hu. unfold daily_atr_bootstrap. repeat case_cond; exact Hu.
    + intros p t u Hu. now rewrite (proj1 (close_all_positions_books cfg p t u)).
    + intros j v u Hu. exact Hu.
    + intros v u Hu. exact Hu.
    + intros v u Hu. exact Hu.
    + intros g sz u Hu. exact Hu.
    + intros p t pos u Hu. exact Hu.
    + intros t p forced u Hu. now apply entry_step_books.
Qed.

(** C7, on [series_a]: on the second day an overnight fee and a closing
    fee are paid, 49550 in all, and the accumulator of that day is 0. *)
Theorem daily_fee_misses_fees_paid :
  let s := outcome_state (run default_config series_a) in
  last_date s = Some 1%Z
  /\ fees_paid_on 1 (trade_history s) == 49550
  /\ daily_fee s == 0.
Proof.
  cbv zeta. repeat split; vm_compute; reflexivity.
Qed.

(** ** The daily ATR *)

(** Once set, [daily_atr] is never written again: no tick and no date
    rollover resets it. *)
Lemma daily_atr_is_kept (cfg : Config) (prices : list (Timestamp * Q)) (ld : Z)
    (i : nat) (a : Q) (s : State) :
  daily_atr s = Some a ->
  daily_atr (outcome_state (loop_body cfg prices ld i s)) = Some a.
Proof.
  apply (Inv_loop_body cfg prices (fun s => daily_atr s = Some a)).
  - intros t u Hu. unfold rollover. case_cond; [exact Hu|].
    cbn. now rewrite (proj1 (proj2 (apply_overnight_fee_books t u))).
  - intros t u Hu. unfold daily_atr_bootstrap. now rewrite Hu.
  - intros p t u Hu.
    now rewrite (proj1 (proj2 (close_all_positions_books cfg p t u))).
  - intros j v u Hu. exact Hu.
  - intros v u Hu. exact Hu.
  - intros v u Hu. exact Hu.
  - intros g sz u Hu. exact Hu.
  - intros p t pos u Hu. exact Hu.
  - intros t p forced u Hu.
    now rewrite (proj1 (entry_step_books cfg t p forced u)).
Qed.

(** C4, on [series_c]: the second day has its own pre-market window,
    whose estimate is 5, and at and after the first trading tick of that
    day the engine still holds the 2 of the first day. *)
Theorem daily_atr_not_recomputed_next_day :
  let s := outcome_state (run default_config series_c) in
  let window := daily_initial_data series_c 1 in
  length window = 2%nat
  /\ calculate_atr window (length window) 1 == 5
  /\ (exists a, daily_atr s = Some a /\ a == 2)
  /\ current_atr_of (at_ 1 9 0) s == 2.
Proof.
  cbv zeta. repeat split; try (vm_compute; reflexivity).
  eexists. split; vm_compute; reflexivity.
Qed.

(** ** The failure of the analytics on a short run *)

Lemma single_day_run_raises :
  backtest default_config series_d = Raised ZeroDivisionError.
Proof. vm_compute. reflexivity. Qed.

(** C8, on a series of one tick: the loop has nothing to do, the equity
    curve spans zero days and [252 / days] raises. *)
Theorem backtest_single_tick_raises (cfg : Config) (timestamp : Timestamp)
    (price : Q) :
  backtest cfg [(timestamp, price)] = Raised ZeroDivisionError.
Proof.
  unfold backtest, run. cbn.
  unfold calculate_performance_metrics. cbn.
  unfold timedelta_days. rewrite Z.sub_diag. reflexivity.
Qed.

(** ** The capacity of the ledger *)

Lemma pos_eqb_side (y x : Position) : pos_eqb y x = true -> p_side y = p_side x.
Proof.
  unfold pos_eqb. rewrite !andb_true_iff. intros [[H _] _].
  destruct (p_side y), (p_side x); auto; discriminate.
Qed.

Lemma is_side_eqb (sd : Side) (y x : Position) :
  pos_eqb y x = true -> is_side sd y = is_side sd x.
Proof.
  intros H. unfold is_side. now rewrite (pos_eqb_side y x H).
Qed.

Lemma count_side_app (sd : Side) (l : list Position) (p : Position) :
  count_side sd (l ++ [p]) = (count_side sd l + (if is_side sd p then 1 else 0))%nat.
Proof.
  unfold count_side. rewrite List.filter_app, length_app. cbn.
  destruct (is_side sd p); reflexivity.
Qed.

Lemma count_side_remove_le (sd : Side) (x : Position) (l : list Position) :
  (count_side sd (remove x l) <= count_side sd l)%nat.
Proof.
  unfold count_side. induction l as [|y r IH]; [reflexivity|].
  cbn. destruct (pos_eqb y x); cbn; destruct (is_side sd y); cbn; lia.
Qed.

Lemma count_side_remove_held (sd : Side) (x : Position) (l : list Position) :
  held x l = true ->
  (count_side sd (remove x l) + (if is_side sd x then 1 else 0))%nat
  = count_side sd l.
Proof.
  unfold count_side, held. induction l as [|y r IH]; [discriminate|].
  cbn. destruct (pos_eqb y x) eqn:E; cbn.
  - intros _. rewrite (is_side_eqb sd y x E). destruct (is_side sd x); cbn; lia.
  - intros H. specialize (IH H). destruct (is_side sd y); cbn; lia.
Qed.

Lemma held_in (x : Position) (l : list Position) : In x l -> held x l = true.
Proof.
  intros H. unfold held. apply existsb_exists. exists x.
  split; [exact H | apply pos_eqb_refl].
Qed.

Lemma held_remove_other (x y : Position) (l : list Position) :
  held x l = true -> p_side y <> p_side x -> held x (remove y l) = true.
Proof.
  unfold held. induction l as [|z r IH]; [discriminate|].
  cbn. intros H Hne. destruct (pos_eqb z y) eqn:Ezy.
  - destruct (pos_eqb z x) eqn:Ezx; [|exact H].
    exfalso. apply Hne.
    now rewrite <- (pos_eqb_side z y Ezy), <- (pos_eqb_side z x Ezx).
  - cbn. destruct (pos_eqb z x); [reflexivity|]. cbn in H. auto.
Qed.

Lemma filter_head (f : Position -> bool) (l : list Position) (y : Position)
    (r : list Position) :
  List.filter f l = y :: r -> In y l /\ f y = true.
Proof.
  intros H. apply List.filter_In. rewrite H. now left.
Qed.

Lemma length_count_sides (l : list Position) :
  length l = (count_side BUY l + count_side SELL l)%nat.
Proof.
  unfold count_side, is_side. induction l as [|[[] e z] r IH]; cbn; lia.
Qed.

Lemma within_caps_counts (s : State) :
  (count_side BUY (positions s) <= 6)%nat ->
  (count_side SELL (positions s) <= 6)%nat -> within_caps s.
Proof.
  intros H1 H2. unfold within_caps, max_positions.
  rewrite length_count_sides. lia.
Qed.

Section Caps.

Variable cfg : Config.
Variables (timestamp : Timestamp) (price : Q).

(** The counts after an entry on side [sd] that is netted against
    [other], the oldest position of the opposite side. *)
Lemma pair_off_counts (sd : Side) (other : Position) (s : State) (side : Side) :
  In other (positions s) -> p_side other <> sd ->
  held (mkPos sd price (size s)) (positions s) = true ->
  (count_side side (positions (pair_off cfg timestamp price sd other s)) + 1)%nat
  = count_side side (positions s).
Proof.
  intros Hin Hside Hheld.
  change (positions (pair_off cfg timestamp price sd other s))
    with (remove (mkPos sd price (size s)) (remove other (positions s))).
  pose proof (held_remove_other (mkPos sd price (size s)) other (positions s)
                Hheld Hside) as H1.
  pose proof (count_side_remove_held side _ _ H1) as H2.
  pose proof (count_side_remove_held side _ _ (held_in other _ Hin)) as H3.
  unfold is_side in H2, H3. cbn [p_side] in H2.
  destruct side, sd, (p_side other); cbn [side_eqb] in H2, H3;
    try contradiction; lia.
Qed.

Lemma open_position_held (sd : Side) (s : State) :
  held (mkPos sd price (size (open_position timestamp price sd s)))
    (positions (open_position timestamp price sd s)) = true.
Proof.
  change (held (mkPos sd price (size s)) (positions s ++ [mkPos sd price (size s)])
          = true).
  apply held_in, in_or_app. right. now left.
Qed.

Lemma open_position_count (sd side : Side) (s : State) :
  count_side side (positions (open_position timestamp price sd s))
  = (count_side side (positions s) + (if side_eqb sd side then 1 else 0))%nat.
Proof.
  change (positions (open_position timestamp price sd s))
    with (positions s ++ [mkPos sd price (size s)]).
  rewrite count_side_app. unfold is_side. reflexivity.
Qed.

Lemma pair_off_after_open (sd side : Side) (other : Position) (s : State) :
  In other (positions (open_position timestamp price sd s)) ->
  is_side sd other = false ->
  (count_side side
     (positions (pair_off cfg timestamp price sd other
                   (open_position timestamp price sd s))) + 1)%nat
  = count_side side (positions (open_position timestamp price sd s)).
Proof.
  intros Hin Hside. apply pair_off_counts; [exact Hin | | apply open_position_held].
  intros E. unfold is_side in Hside. rewrite E in Hside.
  destruct sd; discriminate.
Qed.

Lemma is_side_flip (sd : Side) (p : Position) :
  is_side sd p = true ->
  is_side (match sd with BUY => SELL | SELL => BUY end) p = false.
Proof.
  unfold is_side. destruct sd, (p_side p); auto.
Qed.

Lemma entry_iter_in_sync (g : Q) (n : Z) (acc : Z * Z * State) :
  in_sync acc -> in_sync (entry_iter cfg timestamp price g n acc).
Proof.
  destruct acc as [[nb ns] s]. intros (Hb & Hs & Hb6 & Hs6).
  unfold entry_iter, max_buys, max_sells.
  repeat case_cond;
  repeat match goal with
  | H : _ && _ = true |- _ => apply andb_true_iff in H; destruct H
  | H : (_ <? _)%Z = true |- _ => apply Z.ltb_lt in H
  | H : List.filter _ _ = _ :: _ |- _ =>
      apply filter_head in H; destruct H as [? H]; apply is_side_flip in H
  end;
  unfold in_sync;
  repeat match goal with
  | |- context [pair_off cfg timestamp price ?sd ?o ?t] =>
      let HB := fresh "HB" in let HS := fresh "HS" in
      pose proof (pair_off_after_open sd BUY o _ ltac:(eassumption) ltac:(eassumption))
        as HB;
      pose proof (pair_off_after_open sd SELL o _ ltac:(eassumption) ltac:(eassumption))
        as HS;
      generalize dependent (pair_off cfg timestamp price sd o t); intros
  end;
  rewrite ?open_position_count in *; cbn [side_eqb] in *; lia.
Qed.

Lemma entry_loop_in_sync (g : Q) (ns : list Z) :
  forall acc, in_sync acc -> in_sync (entry_loop cfg timestamp price g ns acc).
Proof.
  induction ns as [|n rest IH]; intros acc H; [exact H|].
  cbn [entry_loop]. apply IH. now apply entry_iter_in_sync.
Qed.

End Caps.

Lemma within_caps_positions (s s' : State) :
  positions s' = positions s -> within_caps s -> within_caps s'.
Proof. unfold within_caps. now intros ->. Qed.

Lemma apply_overnight_fee_positions (timestamp : Timestamp) (s : State) :
  positions (apply_overnight_fee timestamp s) = positions s.
Proof.
  unfold apply_overnight_fee. destruct (positions s) eqn:E; [exact E|].
  cbn. exact E.
Qed.

Lemma check_daily_fee_positions (timestamp : Timestamp) (fee : option Q) (s : State) :
  positions (check_daily_fee timestamp fee s).1 = positions s.
Proof. unfold check_daily_fee. repeat case_cond; reflexivity. Qed.

Lemma entry_step_within_caps (cfg : Config) (timestamp : Timestamp) (price : Q)
    (forced : bool) (s : State) :
  within_caps s -> within_caps (entry_step cfg timestamp price forced s).
Proof.
  intros H. unfold entry_step. case_cond; [|exact H].
  pose proof (check_daily_fee_positions timestamp (Some 0) s) as Hp.
  destruct (check_daily_fee timestamp (Some 0) s) as [s1 over]. cbn [fst] in Hp.
  case_cond; [|exact (within_caps_positions s s1 Hp H)].
  match goal with |- context [entry_loop cfg ?t ?p ?g ?ns ?acc] =>
    pose proof (entry_loop_in_sync cfg t p g ns acc) as Hs;
    destruct (entry_loop cfg t p g ns acc) as [[nb' ns'] s2] end.
  cbn [snd]. unfold in_sync in Hs. rewrite Hp in Hs.
  destruct H as (_ & H1 & H2).
  destruct (Hs (conj eq_refl (conj eq_refl (conj H1 H2)))) as (_ & _ & H3 & H4).
  now apply within_caps_counts.
Qed.

Lemma loop_body_within_caps (cfg : Config) (prices : list (Timestamp * Q)) (ld : Z)
    (i : nat) (s : State) :
  within_caps s -> within_caps (outcome_state (loop_body cfg prices ld i s)).
Proof.
  apply (Inv_loop_body cfg prices within_caps).
  - intros t u Hu. unfold rollover. case_cond; [exact Hu|].
    eapply within_caps_positions; [|exact Hu]. apply apply_overnight_fee_positions.
  - intros t u Hu. unfold daily_atr_bootstrap. repeat case_cond; exact Hu.
  - intros p t u _. apply within_caps_counts;
      rewrite close_all_positions_empty; cbn; lia.
  - intros j v u Hu. exact Hu.
  - intros v u Hu. exact Hu.
  - intros v u Hu. exact Hu.
  - intros g sz u Hu. exact Hu.
  - intros p t pos u (_ & H1 & H2). apply within_caps_counts.
    + etransitivity; [apply count_side_remove_le | exact H1].
    + etransitivity; [apply count_side_remove_le | exact H2].
  - intros t p forced u Hu. now apply entry_step_within_caps.
Qed.

(** C2: after every tick of a run the ledger holds at most
    [max_positions] = 12 positions, at most 6 of them BUY and at most 6
    of them SELL. *)
Theorem ledger_within_capacity (cfg : Config) (prices : list (Timestamp * Q)) :
  Forall (fun s =>
            (length (positions s) <= 12)%nat
            /\ (count_side BUY (positions s) <= 6)%nat
            /\ (count_side SELL (positions s) <= 6)%nat)
    (trace cfg prices).
Proof.
  apply (Inv_trace cfg prices within_caps).
  - intros. apply within_caps_counts; cbn; lia.
  - intros. now apply loop_body_within_caps.
Qed.

(** ** An invariant of entries and nettings is an invariant of the entry stage *)

Section EntryPreservation.

Variable cfg : Config.
Variable Inv : State -> Prop.

Hypothesis Inv_check :
  forall timestamp fee s, Inv s -> Inv (check_daily_fee timestamp fee s).1.
Hypothesis Inv_open :
  forall timestamp price sd s, Inv s -> Inv (open_position timestamp price sd s).
Hypothesis Inv_pair :
  forall timestamp price sd other s,
    Inv s -> Inv (pair_off cfg timestamp price sd other s).

Lemma Inv_entry_iter (timestamp : Timestamp) (price g : Q) (n : Z)
    (acc : Z * Z * State) :
  Inv acc.2 -> Inv (entry_iter cfg timestamp price g n acc).2.
Proof.
  destruct acc as [[nb ns] s]. cbn [snd]. intros H.
  unfold entry_iter. repeat case_cond; cbn [snd]; auto.
Qed.

Lemma Inv_entry_loop (timestamp : Timestamp) (price g : Q) (ns : list Z) :
  forall acc, Inv acc.2 -> Inv (entry_loop cfg timestamp price g ns acc).2.
Proof.
  induction ns as [|n rest IH]; intros acc H; [exact H|].
  cbn [entry_loop]. apply IH. now apply Inv_entry_iter.
Qed.

Lemma Inv_entry_step (timestamp : Timestamp) (price : Q) (forced : bool) (s : State) :
  Inv s -> Inv (entry_step cfg timestamp price forced s).
Proof.
  intros H. unfold entry_step. case_cond; [|exact H].
  pose proof (Inv_check timestamp (Some 0) s H) as H1.
  destruct (check_daily_fee timestamp (Some 0) s) as [s1 over]. cbn [fst] in H1.
  case_cond; [|exact H1]. now apply Inv_entry_loop.
Qed.

End EntryPreservation.

(** ** Capital and the trade history *)

Lemma Qsum_app (l l' : list Q) : Qsum (l ++ l') == Qsum l + Qsum l'.
Proof.
  induction l as [|x r IH]; cbn; [ring|]. rewrite IH. ring.
Qed.

Lemma explained_app (h h' : list TradeRecord) :
  explained (h ++ h') == explained h + explained h'.
Proof. unfold explained. rewrite map_app. apply Qsum_app. Qed.

Lemma explained_close_records (cfg : Config) (price : Q) (timestamp : Timestamp)
    (ps : list Position) :
  explained (map (close_record cfg price timestamp) ps)
  == Qsum (map (net_profit cfg price) ps).
Proof.
  unfold explained. induction ps as [|p r IH]; cbn; [reflexivity|].
  rewrite IH. reflexivity.
Qed.

Section Accounting.

Variable cfg : Config.

Lemma accounted_log (s : State) (r : TradeRecord) (c : Q) :
  accounted cfg s -> c == capital s + explained_by r ->
  accounted cfg (log r (set_capital c s)).
Proof.
  unfold accounted. intros H Hc.
  rewrite trade_history_log. cbn [capital log set_trade_history set_capital
    trade_history]. rewrite explained_app, Hc, H. unfold explained. cbn. ring.
Qed.

Lemma accounted_same (s s' : State) :
  capital s' = capital s -> trade_history s' = trade_history s ->
  accounted cfg s -> accounted cfg s'.
Proof. unfold accounted. now intros -> ->. Qed.

Lemma apply_overnight_fee_accounted (timestamp : Timestamp) (s : State) :
  accounted cfg s -> accounted cfg (apply_overnight_fee timestamp s).
Proof.
  intros H. unfold apply_overnight_fee. destruct (positions s); [exact H|].
  apply accounted_log; [exact H|]. unfold explained_by. cbn. ring.
Qed.

Lemma close_all_positions_accounted (price : Q) (timestamp : Timestamp) (s : State) :
  accounted cfg s -> accounted cfg (close_all_positions cfg price timestamp s).1.
Proof.
  unfold accounted. intros H.
  destruct (close_all_positions_effect cfg price timestamp s)
    as (_ & Hc & Ht & _ & (tl & Hh & Htl)).
  rewrite Hc, Ht, Hh, !explained_app, explained_close_records, H.
  destruct Htl as [-> | (f & _ & ->)]; unfold explained, explained_by; cbn; ring.
Qed.

Lemma take_profit_one_accounted (price : Q) (timestamp : Timestamp)
    (pos : Position) (s : State) :
  accounted cfg s -> accounted cfg (take_profit_one cfg price timestamp pos s).
Proof.
  intros H. unfold take_profit_one. cbv zeta.
  apply (accounted_same
           (log (mkRec timestamp (TAKE_PROFIT (p_side pos)) price (p_size pos)
                   (net_profit cfg price pos) (fee_per_trade cfg * contract_value cfg))
              (set_capital (capital s + net_profit cfg price pos) s)));
    [reflexivity | reflexivity |].
  apply accounted_log; [exact H|]. unfold explained_by. cbn. ring.
Qed.

Lemma open_position_accounted (timestamp : Timestamp) (price : Q) (sd : Side)
    (s : State) :
  accounted cfg s -> accounted cfg (open_position timestamp price sd s).
Proof.
  unfold accounted. intros H.
  change (trade_history (open_position timestamp price sd s))
    with (trade_history s ++ [mkRec timestamp (OPEN sd) price (size s) 0 0]).
  change (capital (open_position timestamp price sd s)) with (capital s).
  rewrite explained_app, H. unfold explained, explained_by. cbn. ring.
Qed.

Lemma pair_off_accounted (timestamp : Timestamp) (price : Q) (sd : Side)
    (other : Position) (s : State) :
  accounted cfg s -> accounted cfg (pair_off cfg timestamp price sd other s).
Proof.
  unfold accounted. intros H. unfold pair_off. cbv zeta.
  rewrite trade_history_log.
  cbn [capital trade_history set_positions set_capital log set_trade_history].
  rewrite explained_app.
  change (explained [?r]) with (explained_by r + 0).
  unfold explained_by. cbn [r_kind r_profit]. rewrite H. ring.
Qed.

Lemma loop_body_accounted (prices : list (Timestamp * Q)) (ld : Z) (i : nat)
    (s : State) :
  accounted cfg s -> accounted cfg (outcome_state (loop_body cfg prices ld i s)).
Proof.
  apply (Inv_loop_body cfg prices (accounted cfg)).
  - intros t u Hu. unfold rollover. case_cond; [exact Hu|].
    apply (accounted_same (apply_overnight_fee t u)); try reflexivity.
    now apply apply_overnight_fee_accounted.
  - intros t u Hu. unfold daily_atr_bootstrap. repeat case_cond; exact Hu.
  - intros p t u Hu. now apply close_all_positions_accounted.
  - intros j v u Hu. exact Hu.
  - intros v u Hu. exact Hu.
  - intros v u Hu. exact Hu.
  - intros g sz u Hu. exact Hu.
  - intros p t pos u Hu. now apply take_profit_one_accounted.
  - intros t p forced u Hu. apply Inv_entry_step; [| | |exact Hu].
    + intros t' fee u' Hu'. unfold check_daily_fee. repeat case_cond; exact Hu'.
    + intros. now apply open_position_accounted.
    + intros. now apply pair_off_accounted.
Qed.

End Accounting.

(** ** The equity series, tick by tick *)

Section Equity.

Variable cfg : Config.
Variable prices : list (Timestamp * Q).
Variable ld : Z.

Lemma init_grid_books (values : list Q) (i : nat) (price atr : Q) (s : State) :
  same_books s (init_grid cfg values i price atr s).
Proof.
  unfold init_grid. destruct (grid_size s); [apply same_books_refl|].
  match goal with |- context [calculate_grid cfg ?p ?a ?v ?j ?t] =>
    pose proof (calculate_grid_state cfg p a v j t) as H;
    destruct (calculate_grid cfg p a v j t) as [s1 [g sz]] end.
  cbn [fst] in H. subst s1. repeat split.
Qed.

Lemma breach_step_books (values : list Q) (i : nat) (timestamp : Timestamp)
    (price : Q) (s : State) :
  same_books s (breach_step cfg values i timestamp price s).1.
Proof.
  unfold breach_step. case_cond; [|apply same_books_refl].
  pose proof (close_all_positions_books cfg price timestamp s) as H.
  destruct (close_all_positions cfg price timestamp s) as [s1 tot].
  cbn [fst] in *. eapply same_books_trans; [exact H | apply rebase_books].
Qed.

Lemma trading_tick_equity (values : list Q) (i : nat) (is_last : bool)
    (timestamp : Timestamp) (price atr : Q) (s : State) :
  let o := trading_tick cfg values i is_last timestamp price atr s in
  exists v,
    equity_series (outcome_state o) = <[i := Some v]> (equity_series s)
    /\ (is_last = true -> forall s', o = Continue s' -> v == capital s').
Proof.
  cbv zeta. unfold trading_tick.
  pose proof (init_grid_books values i price atr s) as (_ & _ & E1).
  set (s1 := init_grid cfg values i price atr s) in *.
  pose proof (breach_step_books values i timestamp price s1) as (_ & _ & E2).
  destruct (breach_step cfg values i timestamp price s1) as [s2 b].
  cbn [fst] in E2. unfold exit_step.
  match goal with |- context [exit_loop cfg ?v ?j ?t ?p ?a ?b ?c ?u] =>
    pose proof (exit_loop_books cfg v j t p a b c u) as (_ & _ & E3);
    destruct (exit_loop cfg v j t p a b c u) as [s3 forced] end.
  cbn [fst] in E3.
  pose proof (entry_step_books cfg timestamp price forced s3) as (_ & E4 & _).
  set (s4 := entry_step cfg timestamp price forced s3) in *.
  assert (E : equity_series s4 = equity_series s) by congruence.
  set (s5 := set_equity i (mark cfg price s4) s4).
  assert (E5 : equity_series s5 = <[i := Some (mark cfg price s4)]> (equity_series s))
    by (subst s5; cbn; now rewrite E).
  destruct (Qlt_bool (capital s5) 0).
  { eexists. split; [exact E5 | discriminate]. }
  destruct is_last; cbn [andb].
  - destruct (positions s5) as [|pos ps] eqn:Ep; cbn [nonempty].
    + exists (mark cfg price s4). split; [exact E5|].
      intros _ s' [= <-]. unfold mark.
      change (positions s4) with (positions s5). rewrite Ep.
      change (capital s5) with (capital s4). cbn. ring.
    + pose proof (close_all_positions_books cfg price timestamp s5) as (_ & _ & E6).
      destruct (close_all_positions cfg price timestamp s5) as [s6 tot].
      cbn [fst outcome_state] in *. exists (capital s6). split.
      * cbn. rewrite E6, E5. apply list_insert_insert_eq.
      * intros _ s' [= <-]. reflexivity.
  - eexists. split; [exact E5 | discriminate].
Qed.

Lemma rollover_fields (timestamp : Timestamp) (s : State) :
  positions (rollover timestamp s) = positions s
  /\ equity_series (rollover timestamp s) = equity_series s.
Proof.
  unfold rollover. case_cond; [now split|]. cbn. split.
  - apply apply_overnight_fee_positions.
  - apply apply_overnight_fee_books.
Qed.

Lemma daily_atr_bootstrap_fields (timestamp : Timestamp) (s : State) :
  positions (daily_atr_bootstrap prices timestamp s) = positions s
  /\ equity_series (daily_atr_bootstrap prices timestamp s) = equity_series s
  /\ capital (daily_atr_bootstrap prices timestamp s) = capital s.
Proof.
  unfold daily_atr_bootstrap. repeat case_cond; repeat split.
Qed.

(** What a tick does to the series: nothing when the series has no such
    tick or the gate skips it, a mark in its own slot otherwise; the mark
    of the last tick of the series is the capital it leaves. *)
Lemma loop_body_equity (i : nat) (s : State) :
  let o := loop_body cfg prices ld i s in
  match prices !! i with
  | None => equity_series (outcome_state o) = equity_series s
  | Some (timestamp, _) =>
      if gated ld timestamp s then equity_series (outcome_state o) = equity_series s
      else exists v,
          equity_series (outcome_state o) = <[i := Some v]> (equity_series s)
          /\ (i = (length prices - 1)%nat ->
              forall s', o = Continue s' -> v == capital s')
  end.
Proof.
  cbv zeta. unfold loop_body.
  destruct (prices !! i) as [[timestamp price]|]; [|reflexivity].
  destruct (rollover_fields timestamp s) as (P1 & E1).
  destruct (daily_atr_bootstrap_fields timestamp (rollover timestamp s))
    as (P2 & E2 & _).
  set (s1 := daily_atr_bootstrap prices timestamp (rollover timestamp s)) in *.
  assert (P : positions s1 = positions s) by congruence.
  assert (E : equity_series s1 = equity_series s) by congruence.
  unfold gated, terminal, skipped. rewrite P.
  destruct ((ts_date timestamp =? ld)%Z && (time 14 29 <=? ts_time timestamp)%Z
            && nonempty (positions s)).
  - cbn [negb andb].
    pose proof (close_all_positions_books cfg price timestamp s1) as (_ & _ & E3).
    destruct (close_all_positions cfg price timestamp s1) as [s2 tot].
    cbn [fst outcome_state] in *. exists (capital s2). split.
    + cbn. congruence.
    + intros _ s' [= <-]. reflexivity.
  - cbn [negb andb].
    destruct (negb (is_trading_time timestamp) && negb (is_end_of_day timestamp)
              && nonempty (positions s)); [exact E|].
    destruct (negb (is_trading_time timestamp) || is_end_of_day timestamp).
    + exists (capital s1). split.
      * cbn. congruence.
      * intros _ s' [= <-]. reflexivity.
    + destruct (trading_tick_equity (map snd prices) i (i =? length prices - 1)%nat
                  timestamp price (current_atr_of timestamp s1) s1) as (v & Hv & Hl).
      exists v. split; [congruence|].
      intros ->. apply Hl. apply Nat.eqb_refl.
Qed.

Lemma loop_body_equity_other (i j : nat) (s : State) :
  i <> j ->
  equity_series (outcome_state (loop_body cfg prices ld i s)) !! j
  = equity_series s !! j.
Proof.
  intros Hne. pose proof (loop_body_equity i s) as H. cbv zeta in H.
  destruct (prices !! i) as [[timestamp price]|]; [|now rewrite H].
  destruct (gated ld timestamp s); [now rewrite H|].
  destruct H as (v & -> & _). now apply list_lookup_insert_ne.
Qed.

Lemma loop_body_equity_length (i : nat) (s : State) :
  length (equity_series (outcome_state (loop_body cfg prices ld i s)))
  = length (equity_series s).
Proof.
  pose proof (loop_body_equity i s) as H. cbv zeta in H.
  destruct (prices !! i) as [[timestamp price]|]; [|now rewrite H].
  destruct (gated ld timestamp s); [now rewrite H|].
  destruct H as (v & -> & _). apply length_insert.
Qed.

End Equity.

Section Slots.

Variable cfg : Config.
Variable prices : list (Timestamp * Q).
Variable ld : Z.

(** The slot of the tick that the loop is about to process. *)
Lemma slot_after_tick (a : nat) (s : State) (timestamp : Timestamp) (price : Q) :
  prices !! a = Some (timestamp, price) ->
  equity_series s !! a = Some None ->
  equity_series (outcome_state (loop_body cfg prices ld a s)) !! a = Some None
  <-> gated ld timestamp s = true.
Proof.
  intros Hp Hs. pose proof (loop_body_equity cfg prices ld a s) as H.
  cbv zeta in H. rewrite Hp in H. destruct (gated ld timestamp s).
  - rewrite H. tauto.
  - destruct H as (v & -> & _). rewrite list_lookup_insert_eq
      by (eapply lookup_lt_Some; exact Hs).
    split; intros; discriminate.
Qed.

Lemma slots_from (n : nat) :
  forall (a : nat) (s : State),
    let tr := trace_from (loop_body cfg prices ld) (seq a n) s in
    let s_end := outcome_state (for_loop (loop_body cfg prices ld) (seq a n) s) in
    length (equity_series s_end) = length (equity_series s)
    /\ (forall j, (j < a)%nat -> equity_series s_end !! j = equity_series s !! j)
    /\ (forall j, (a + length tr <= j)%nat ->
                  equity_series s_end !! j = equity_series s !! j)
    /\ (forall i sb timestamp price,
          (s :: tr) !! i = Some sb -> (i < length tr)%nat ->
          prices !! (a + i)%nat = Some (timestamp, price) ->
          equity_series s !! (a + i)%nat = Some None ->
          (equity_series s_end !! (a + i)%nat = Some None
           <-> gated ld timestamp sb = true)).
Proof.
  induction n as [|n IH]; intros a s.
  - cbn. refine (conj _ (conj _ (conj _ _))); auto. intros; lia.
  - cbn [seq for_loop trace_from]. cbv zeta.
    pose proof (loop_body_equity_length cfg prices ld a s) as HL.
    pose proof (fun j => loop_body_equity_other cfg prices ld a j s) as HO.
    pose proof (slot_after_tick a s) as HS.
    destruct (loop_body cfg prices ld a s) as [s'|s'] eqn:Eb; cbn [outcome_state] in *.
    + destruct (IH (S a) s') as (L & A & B & C). cbv zeta in *.
      refine (conj _ (conj _ (conj _ _))).
      * congruence.
      * intros j Hj. rewrite A by lia. apply HO. lia.
      * intros j Hj. cbn [length] in Hj. rewrite B by lia. apply HO. lia.
      * destruct i as [|i]; cbn [lookup list_lookup]; intros sb timestamp price
          Hsb Hi Hp Hslot.
        -- injection Hsb as <-. rewrite Nat.add_0_r in *.
           rewrite A by lia. now apply (HS timestamp price).
        -- cbn [length] in Hi. replace (a + S i)%nat with (S a + i)%nat in * by lia.
           apply (C i sb timestamp price); auto; try lia.
           rewrite HO by lia. exact Hslot.
    + refine (conj _ (conj _ (conj _ _))).
      * exact HL.
      * intros j Hj. apply HO. lia.
      * intros j Hj. cbn [length] in Hj. apply HO. lia.
      * destruct i as [|i]; cbn [length]; intros sb timestamp price
          Hsb Hi Hp Hslot; [|lia].
        injection Hsb as <-. rewrite Nat.add_0_r in *.
        now apply (HS timestamp price).
Qed.

End Slots.

(** C1, as stated: on [series_a] the run completes and the third tick,
    at 15:00 with a position open, has no entry; the reported curve has
    three entries for four ticks. *)
Lemma equity_series_missing_entry_counterexample :
  let s := outcome_state (run default_config series_a) in
  equity_series s !! 2%nat = Some None
  /\ (exists m, backtest default_config series_a = Returned m
                /\ length (m_equity_series m) = 3%nat)
  /\ ~ (forall i, (i < length series_a)%nat ->
                  exists v, equity_series s !! i = Some (Some v)).
Proof.
  cbv zeta. split; [vm_compute; reflexivity|]. split.
  - eexists. split; vm_compute; reflexivity.
  - intros H. destruct (H 2%nat) as (v & Hv); [cbn; lia|].
    vm_compute in Hv. discriminate Hv.
Qed.

(** C1, amended: for a non-empty series the equity series has exactly one
    slot per input tick and its first entry is the initial capital; the
    slot of a later tick is missing exactly when the run ended on a
    negative capital before reaching that tick, or the tick found
    positions open outside trading hours and outside the end-of-day
    window without being the terminal liquidation. *)
Theorem equity_series_slots (cfg : Config) (t0 : Timestamp) (p0 : Q)
    (rest : list (Timestamp * Q)) :
  let prices := (t0, p0) :: rest in
  let es := equity_series (outcome_state (run cfg prices)) in
  length es = length prices
  /\ es !! 0%nat = Some (Some (cfg_capital cfg))
  /\ (forall i timestamp price,
        prices !! S i = Some (timestamp, price) ->
        (es !! S i = Some None
         <-> (trace cfg prices !! i = None
              \/ exists sb, timeline cfg prices !! i = Some sb
                            /\ gated (last_data_date prices) timestamp sb = true))).
Proof.
  cbv zeta. unfold timeline, run, trace.
  set (prices := (t0, p0) :: rest). set (ld := last_data_date prices).
  set (s0 := initial_state cfg t0 p0 (length prices)).
  change (length prices - 1)%nat with (length rest - 0)%nat.
  rewrite Nat.sub_0_r.
  destruct (slots_from cfg prices ld (length rest) 1 s0) as (L & A & B & C).
  cbv zeta in *.
  set (tr := trace_from (loop_body cfg prices ld) (seq 1 (length rest)) s0) in *.
  set (s_end := outcome_state
                  (for_loop (loop_body cfg prices ld) (seq 1 (length rest)) s0)) in *.
  assert (L0 : length (equity_series s0) = length prices)
    by (subst s0; cbn [equity_series initial_state];
        now rewrite length_insert, length_replicate).
  assert (N : forall j, (S j < length prices)%nat ->
                        equity_series s0 !! S j = Some None).
  { intros j Hj. subst s0. cbn [equity_series initial_state].
    rewrite list_lookup_insert_ne by lia. now apply lookup_replicate_2. }
  refine (conj _ (conj _ _)).
  - congruence.
  - rewrite A by lia. subst s0. cbn [equity_series initial_state].
    apply list_lookup_insert_eq. rewrite length_replicate. cbn. lia.
  - intros i timestamp price Hp.
    assert (Hi : (S i < length prices)%nat) by (eapply lookup_lt_Some; exact Hp).
    destruct (Nat.lt_ge_cases i (length tr)) as [Hlt | Hge].
    + destruct (lookup_lt_is_Some_2 (s0 :: tr) i) as (sb & Hsb);
        [change (i < S (length tr))%nat; lia|].
      rewrite (C i sb timestamp price Hsb Hlt Hp (N i Hi)). split.
      * intros Hg. right. exists sb. now split.
      * intros [Hn | (sb' & Hsb' & Hg)].
        -- apply lookup_ge_None in Hn. lia.
        -- congruence.
    + rewrite B by lia. rewrite (N i Hi). split; [|reflexivity].
      intros _. left. now apply lookup_ge_None.
Qed.

(** ** The reported final capital *)

Lemma explained_split (h : list TradeRecord) :
  explained h == sum_profit h - overnight_fees h.
Proof.
  unfold explained, sum_profit, overnight_fees.
  induction h as [|r h IH]; cbn; [ring|].
  unfold explained_by at 1. destruct (r_kind r); cbn; rewrite IH; ring.
Qed.

Lemma for_loop_app (body : nat -> State -> Outcome) (l l' : list nat) (s : State) :
  for_loop body (l ++ l') s
  = match for_loop body l s with
    | Continue s' => for_loop body l' s'
    | ReturnNone s' => ReturnNone s'
    end.
Proof.
  revert s. induction l as [|i l IH]; intros s; [reflexivity|].
  cbn [for_loop app]. destruct (body i s); [apply IH | reflexivity].
Qed.

Lemma trace_from_length (body : nat -> State -> Outcome) (l : list nat) (s : State) :
  (length (trace_from body l s) <= length l)%nat.
Proof.
  revert s. induction l as [|i l IH]; intros s; [reflexivity|].
  cbn [trace_from]. destruct (body i s); cbn [length].
  - specialize (IH s0). lia.
  - lia.
Qed.

Lemma series_dropna_app (index index' : list Timestamp)
    (values values' : list (option Q)) :
  length index = length values ->
  series_dropna (index ++ index') (values ++ values')
  = series_dropna index values ++ series_dropna index' values'.
Proof.
  revert values. induction index as [|t index IH]; intros [|[v|] values] H;
    try discriminate; cbn in *; [reflexivity | |]; rewrite IH by lia; reflexivity.
Qed.

Lemma series_dropna_last (index : list Timestamp) (values : list (option Q))
    (t : Timestamp) (v : Q) :
  length index = length values ->
  index !! (length values - 1)%nat = Some t ->
  values !! (length values - 1)%nat = Some (Some v) ->
  last (series_dropna index values) = Some (t, v).
Proof.
  intros Hl Hi Hv.
  destruct (last values) as [x|] eqn:Ex;
    [|apply last_None in Ex; subst values; discriminate].
  apply last_Some in Ex. destruct Ex as (vs & ->).
  rewrite length_app in *. cbn [length] in *.
  replace (length vs + 1 - 1)%nat with (length vs) in * by lia.
  rewrite list_lookup_middle in Hv by reflexivity. injection Hv as ->.
  destruct (last index) as [y|] eqn:Ey;
    [|apply last_None in Ey; subst index; cbn in Hl; lia].
  apply last_Some in Ey. destruct Ey as (ix & ->).
  rewrite length_app in Hl. cbn [length] in Hl.
  rewrite list_lookup_middle in Hi by lia. injection Hi as ->.
  rewrite series_dropna_app by lia. cbn. apply last_snoc.
Qed.

(** The final capital that the analytics report is the value of the last
    slot of the series when that slot is marked. *)
Lemma final_capital_is_last_slot (cfg : Config) (index : list Timestamp)
    (s : State) (m : Metrics) (v : Q) :
  length index = length (equity_series s) ->
  equity_series s !! (length index - 1)%nat = Some (Some v) ->
  calculate_performance_metrics cfg index s = Returned m ->
  final_capital m = v.
Proof.
  intros Hl Hv Hm. unfold calculate_performance_metrics in Hm.
  assert (Hi : is_Some (index !! (length index - 1)%nat)).
  { apply lookup_lt_is_Some_2. apply lookup_lt_Some in Hv. lia. }
  destruct Hi as (t & Ht). rewrite Hl in Ht, Hv.
  pose proof (series_dropna_last index (equity_series s) t v Hl Ht Hv) as Hlast.
  cbv zeta in Hm.
  destruct (series_dropna index (equity_series s)) as [|[ft fe] eq]; [discriminate|].
  rewrite Hlast in Hm.
  destruct (timedelta_days ft t =? 0)%Z; [discriminate|].
  injection Hm as <-. reflexivity.
Qed.

Lemma series_dropna_in (index : list Timestamp) (values : list (option Q))
    (t : Timestamp) (v : Q) :
  In (t, v) (series_dropna index values) -> In t index.
Proof.
  revert values. induction index as [|t' index IH]; intros [|[x|] values] H;
    cbn in H; try contradiction.
  - destruct H as [[= -> _] | H]; [now left | right; eauto].
  - right. eauto.
Qed.

Lemma backtest_returned (cfg : Config) (prices : list (Timestamp * Q)) (m : Metrics) :
  backtest cfg prices = Returned m ->
  exists s, run cfg prices = Continue s
            /\ calculate_performance_metrics cfg (map fst prices) s = Returned m.
Proof.
  unfold backtest. destruct prices as [|tp rest]; [discriminate|].
  destruct (run cfg (tp :: rest)) as [s|s]; [|discriminate].
  intros H. now exists s.
Qed.

(** When the last slot of a completed run is marked, the mark is the
    capital the run ends with. *)
Lemma last_mark_is_capital (cfg : Config) (t0 : Timestamp) (p0 : Q)
    (rest : list (Timestamp * Q)) (s_end : State) (v : Q) :
  let prices := (t0, p0) :: rest in
  run cfg prices = Continue s_end ->
  equity_series s_end !! (length prices - 1)%nat = Some (Some v) ->
  v == capital s_end.
Proof.
  cbv zeta. unfold run.
  set (prices := (t0, p0) :: rest). set (ld := last_data_date prices).
  set (s0 := initial_state cfg t0 p0 (length prices)).
  change (length prices - 1)%nat with (length rest - 0)%nat. rewrite Nat.sub_0_r.
  destruct (last rest) as [x|] eqn:Ex.
  - apply last_Some in Ex. destruct Ex as (front & Hrest).
    assert (Hk : length rest = S (length front))
      by (rewrite Hrest, length_app; cbn; lia).
    rewrite Hk, seq_S, for_loop_app.
    destruct (slots_from cfg prices ld (length front) 1 s0) as (_ & _ & B & _).
    cbv zeta in B.
    pose proof (trace_from_length (loop_body cfg prices ld) (seq 1 (length front)) s0)
      as Hlen. rewrite length_seq in Hlen.
    specialize (B (1 + length front)%nat ltac:(lia)).
    destruct (for_loop (loop_body cfg prices ld) (seq 1 (length front)) s0)
      as [s_prev|s_prev]; [|discriminate].
    cbn [outcome_state for_loop] in *.
    assert (Hslot : equity_series s_prev !! (1 + length front)%nat = Some None).
    { rewrite B. subst s0. cbn [equity_series initial_state].
      rewrite list_lookup_insert_ne by lia. apply lookup_replicate_2.
      subst prices. cbn [length]. lia. }
    pose proof (loop_body_equity cfg prices ld (1 + length front) s_prev) as H.
    cbv zeta in H. change (1 + length front)%nat with (S (length front)) in *.
    destruct (prices !! S (length front)) as [[timestamp price]|] eqn:Ep.
    + destruct (loop_body cfg prices ld (S (length front)) s_prev) as [s'|s'] eqn:Eb;
        [|discriminate].
      intros [= ->] Hv. cbn [outcome_state] in H.
      destruct (gated ld timestamp s_prev).
      * rewrite H, Hslot in Hv. discriminate.
      * destruct H as (v' & Hv' & Hc). rewrite Hv' in Hv.
        rewrite list_lookup_insert_eq in Hv
          by (eapply lookup_lt_Some; exact Hslot).
        injection Hv as <-. apply Hc; [|reflexivity].
        subst prices. cbn [length]. lia.
    + apply lookup_ge_None in Ep. subst prices. cbn [length] in Ep. lia.
  - apply last_None in Ex. rewrite Ex. cbn. intros [= <-].
    cbn. intros [= <-]. reflexivity.
Qed.

(** The capital a run ends with is accounted for by its history. *)
Lemma run_accounted (cfg : Config) (t0 : Timestamp) (p0 : Q)
    (rest : list (Timestamp * Q)) :
  accounted cfg (outcome_state (run cfg ((t0, p0) :: rest))).
Proof.
  apply (Inv_run cfg _ (accounted cfg)); [| |discriminate].
  - intros. unfold accounted, explained. cbn. ring.
  - intros. now apply loop_body_accounted.
Qed.

Lemma run_equity_length (cfg : Config) (t0 : Timestamp) (p0 : Q)
    (rest : list (Timestamp * Q)) :
  length (equity_series (outcome_state (run cfg ((t0, p0) :: rest))))
  = length ((t0, p0) :: rest).
Proof.
  unfold run.
  destruct (slots_from cfg ((t0, p0) :: rest) (last_data_date ((t0, p0) :: rest))
              (length ((t0, p0) :: rest) - 1) 1
              (initial_state cfg t0 p0 (length ((t0, p0) :: rest)))) as (L & _).
  cbv zeta in L. rewrite L. cbn [equity_series initial_state].
  now rewrite length_insert, length_replicate.
Qed.

(** C9, as stated: on [series_a] the run completes with a final capital
    49550 below the initial capital, while the logged profits sum to
    -47000 and the logged fees to 96550: neither the profits, nor the
    profits less the fees, nor the profits plus the fees give the change
    of capital. *)
Lemma trade_log_round_trip_counterexample :
  exists m,
    backtest default_config series_a = Returned m
    /\ let h := trade_history (outcome_state (run default_config series_a)) in
       let change := final_capital m - cfg_capital default_config in
       change == - 49550
       /\ sum_profit h == - 47000
       /\ sum_fee h == 96550
       /\ ~ sum_profit h == change
       /\ ~ sum_profit h - sum_fee h == change
       /\ ~ sum_profit h + sum_fee h == change.
Proof.
  eexists. split; [vm_compute; reflexivity|]. cbv zeta.
  repeat split; try (vm_compute; reflexivity); vm_compute; discriminate.
Qed.

(** C9, amended: in every completed run the capital the run ends with,
    less the initial capital, is the sum of the logged profits (a closing
    profit is logged net of its fee) less the fees of the OVERNIGHT_FEE
    records; and the reported final capital is that capital whenever the
    last tick of the series left a mark in the equity series. *)
Theorem capital_explained_by_history (cfg : Config) (t0 : Timestamp) (p0 : Q)
    (rest : list (Timestamp * Q)) (m : Metrics) :
  let prices := (t0, p0) :: rest in
  backtest cfg prices = Returned m ->
  let s := outcome_state (run cfg prices) in
  capital s - cfg_capital cfg
  == sum_profit (trade_history s) - overnight_fees (trade_history s)
  /\ (equity_series s !! (length prices - 1)%nat <> Some None ->
      final_capital m == capital s).
Proof.
  cbv zeta. intros Hm. split.
  - pose proof (run_accounted cfg t0 p0 rest) as H.
    unfold accounted in H. rewrite H, explained_split. ring.
  - intros Hslot. destruct (backtest_returned _ _ _ Hm) as (s & Hrun & Hcalc).
    rewrite Hrun in *. cbn [outcome_state] in *.
    pose proof (run_equity_length cfg t0 p0 rest) as L.
    rewrite Hrun in L. cbn [outcome_state] in L.
    destruct (equity_series s !! (length ((t0, p0) :: rest) - 1)%nat)
      as [[v|]|] eqn:Ev.
    + rewrite (final_capital_is_last_slot cfg (map fst ((t0, p0) :: rest)) s m v).
      * now apply (last_mark_is_capital cfg t0 p0 rest s v).
      * now rewrite length_map.
      * now rewrite length_map.
      * exact Hcalc.
    + contradiction.
    + apply lookup_ge_None in Ev. cbn [length] in *. lia.
Qed.

Lemma capital_explained_by_history_witness :
  exists m,
    backtest default_config series_a = Returned m
    /\ let s := outcome_state (run default_config series_a) in
       capital s - cfg_capital default_config
       == sum_profit (trade_history s) - overnight_fees (trade_history s)
       /\ (equity_series s !! (length series_a - 1)%nat <> Some None ->
           final_capital m == capital s).
Proof.
  eexists. split; [vm_compute; reflexivity|].
  apply (capital_explained_by_history default_config (at_ 0 9 0) 100
           [(at_ 0 9 1, 99); (at_ 0 15 0, 99); (at_ 1 9 0, 99)]).
  vm_compute. reflexivity.
Defined.

(** ** The pivot and its rebase *)

Section Pivot.

Variable cfg : Config.
Variables (values : list Q) (i : nat) (timestamp : Timestamp) (price : Q).





End Pivot.



(** A tick that stops short of the grid evaluation leaves the pivot as
    it was. *)
Lemma loop_body_pivot_off_grid (cfg : Config) (prices : list (Timestamp * Q))
    (ld : Z) (i : nat) (s : State) (timestamp : Timestamp) (price : Q) :
  prices !! i = Some (timestamp, price) ->
  reaches_grid ld timestamp s = false ->
  current_pivot (outcome_state (loop_body cfg prices ld i s)) = current_pivot s.
Proof.
  intros Hp Hr. unfold loop_body. rewrite Hp.
  destruct (rollover_fields timestamp s) as (P1 & _).
  destruct (daily_atr_bootstrap_fields prices timestamp (rollover timestamp s))
    as (P2 & _ & _).
  assert (C1 : current_pivot (daily_atr_bootstrap prices timestamp (rollover timestamp s))
               = current_pivot s).
  { unfold daily_atr_bootstrap, rollover, apply_overnight_fee.
    repeat case_cond; reflexivity. }
  set (s1 := daily_atr_bootstrap prices timestamp (rollover timestamp s)) in *.
  assert (P : positions s1 = positions s) by congruence.
  unfold reaches_grid, terminal, skipped in *. rewrite P.
  destruct ((ts_date timestamp =? ld)%Z && (time 14 29 <=? ts_time timestamp)%Z
            && nonempty (positions s)).
  - pose proof (close_all_positions_frame cfg price timestamp s1)
      as (_ & _ & _ & _ & _ & Hc & _).
    cbv zeta in Hc. destruct (close_all_positions cfg price timestamp s1) as [s2 tot].
    cbn [fst outcome_state] in *. cbn. congruence.
  - destruct (negb (is_trading_time timestamp) && negb (is_end_of_day timestamp)
              && nonempty (positions s)); [exact C1|].
    destruct (is_trading_time timestamp), (is_end_of_day timestamp);
      cbn in Hr |- *; try discriminate; exact C1.
Qed.

(** ** The turnover ratio *)

(** C5, as stated: on [series_a] one contract is traded and the run ends
    with a capital of 499950450; the reported ratio divides by that
    capital, not by the initial 500000000. *)
Lemma turnover_ratio_initial_capital_counterexample :
  exists m,
    backtest default_config series_a = Returned m
    /\ let s := outcome_state (run default_config series_a) in
       total_volume (trades s) = 1%Z
       /\ capital s == 499950450
       /\ turnover_ratio m == 100000 / 499950450 * 100
       /\ ~ turnover_ratio m
            == inject_Z (total_volume (trades s)) * contract_value default_config
               / cfg_capital default_config * 100.
Proof.
  eexists. split; [vm_compute; reflexivity|]. cbv zeta.
  repeat split; try (vm_compute; reflexivity). vm_compute. discriminate.
Qed.

(** C5, amended: the reported turnover ratio is the sum of the absolute
    sizes of the entries times [contract_value], divided by the capital
    the run ends with, times 100; that capital is the initial capital
    plus the logged profits less the overnight fees (it is taken to be
    non-zero). *)
Theorem turnover_ratio_final_capital (cfg : Config) (t0 : Timestamp) (p0 : Q)
    (rest : list (Timestamp * Q)) (m : Metrics) :
  let prices := (t0, p0) :: rest in
  let s := outcome_state (run cfg prices) in
  backtest cfg prices = Returned m ->
  ~ capital s == 0 ->
  turnover_ratio m
  == inject_Z (total_volume (trades s)) * contract_value cfg / capital s * 100
  /\ capital s
     == cfg_capital cfg + sum_profit (trade_history s) - overnight_fees (trade_history s).
Proof.
  cbv zeta. intros Hm _. split.
  - destruct (backtest_returned _ _ _ Hm) as (s & Hrun & Hcalc).
    rewrite Hrun. cbn [outcome_state].
    unfold calculate_performance_metrics in Hcalc. cbv zeta in Hcalc.
    destruct (series_dropna (map fst ((t0, p0) :: rest)) (equity_series s))
      as [|[ft fe] eq]; [discriminate|].
    destruct (last ((ft, fe) :: eq)) as [[lt le]|]; [|discriminate].
    destruct (timedelta_days ft lt =? 0)%Z; [discriminate|].
    injection Hcalc as <-. reflexivity.
  - pose proof (run_accounted cfg t0 p0 rest) as H.
    unfold accounted in H. rewrite H, explained_split. ring.
Qed.

Lemma turnover_ratio_final_capital_witness :
  exists m,
    backtest default_config series_a = Returned m
    /\ let s := outcome_state (run default_config series_a) in
       turnover_ratio m
       == inject_Z (total_volume (trades s)) * contract_value default_config
          / capital s * 100
       /\ capital s
          == cfg_capital default_config + sum_profit (trade_history s)
             - overnight_fees (trade_history s).
Proof.
  eexists. split; [vm_compute; reflexivity|].
  apply (turnover_ratio_final_capital default_config (at_ 0 9 0) 100
           [(at_ 0 9 1, 99); (at_ 0 15 0, 99); (at_ 1 9 0, 99)]).
  - vm_compute. reflexivity.
  - vm_compute. discriminate.
Defined.

(** ** Runs inside one day *)

Lemma run_first_slot (cfg : Config) (t0 : Timestamp) (p0 : Q)
    (rest : list (Timestamp * Q)) :
  equity_series (outcome_state (run cfg ((t0, p0) :: rest))) !! 0%nat
  = Some (Some (cfg_capital cfg)).
Proof.
  unfold run.
  destruct (slots_from cfg ((t0, p0) :: rest) (last_data_date ((t0, p0) :: rest))
              (length ((t0, p0) :: rest) - 1) 1
              (initial_state cfg t0 p0 (length ((t0, p0) :: rest))))
    as (_ & A & _).
  cbv zeta in A. rewrite A by lia. cbn [equity_series initial_state].
  apply list_lookup_insert_eq. rewrite length_replicate. cbn. lia.
Qed.

(** A series that stays within 24 hours of its first tick never yields
    metrics: the run ends on a negative capital or the analytics divide
    by a span of zero days. *)
Lemma backtest_within_a_day (cfg : Config) (t0 : Timestamp) (p0 : Q)
    (rest : list (Timestamp * Q)) :
  (forall t, In t (map fst rest) ->
             (0 <= ts_seconds t - ts_seconds t0 < 86400)%Z) ->
  backtest cfg ((t0, p0) :: rest) = Raised ZeroDivisionError
  \/ backtest cfg ((t0, p0) :: rest) = ReturnedNone.
Proof.
  intros Hday. unfold backtest.
  pose proof (run_first_slot cfg t0 p0 rest) as H0.
  destruct (run cfg ((t0, p0) :: rest)) as [s|s]; [|now right].
  left. cbn [outcome_state] in H0. unfold calculate_performance_metrics.
  cbv zeta. cbn [map fst].
  destruct (equity_series s) as [|x values]; [discriminate|].
  cbn in H0. injection H0 as ->. cbn [series_dropna].
  destruct (last ((t0, cfg_capital cfg) :: series_dropna (map fst rest) values))
    as [[lt le]|] eqn:El.
  - assert (Hin : In lt (t0 :: map fst rest)).
    { apply last_Some in El. destruct El as (l' & El).
      apply (series_dropna_in (t0 :: map fst rest) (Some (cfg_capital cfg) :: values)
               lt le).
      cbn [series_dropna]. rewrite El. apply in_or_app. right. now left. }
    assert (Hz : timedelta_days t0 lt = 0%Z).
    { unfold timedelta_days. destruct Hin as [<- | Hin].
      - rewrite Z.sub_diag. reflexivity.
      - apply Z.div_small. now apply Hday. }
    rewrite Hz. reflexivity.
  - apply last_None in El. discriminate.
Qed.

(** * Further properties of the code *)

(** ** The rolling mode of the estimator *)

Lemma diff_abs_from_changes (prev : Q) (l : list Q) :
  diff_abs_from prev l = map Some (abs_changes_from prev l).
Proof.
  revert prev. induction l as [|x r IH]; intros prev; cbn; [reflexivity|].
  now rewrite IH.
Qed.

Lemma diff_abs_firstn (n : nat) (prices : list Q) :
  firstn n (diff_abs prices) = diff_abs (firstn n prices).
Proof.
  destruct prices as [|x r]; [now destruct n|].
  destruct n as [|n]; [reflexivity|]. cbn. f_equal.
  revert x n. induction r as [|y r IH]; intros x n; [now destruct n|].
  destruct n as [|n]; [reflexivity|]. cbn. f_equal. apply IH.
Qed.

Lemma length_diff_abs (prices : list Q) : length (diff_abs prices) = length prices.
Proof.
  destruct prices as [|x r]; [reflexivity|]. cbn. f_equal.
  revert x. induction r as [|y r IH]; intros x; cbn; [reflexivity|].
  now rewrite IH.
Qed.

Lemma length_abs_changes (prices : list Q) :
  length (abs_changes prices) = (length prices - 1)%nat.
Proof.
  destruct prices as [|x r]; [reflexivity|]. cbn. rewrite Nat.sub_0_r.
  revert x. induction r as [|y r IH]; intros x; cbn; [reflexivity|].
  now rewrite IH.
Qed.

(** The entry of the rolling mean at index [i], read on the prices. *)
Lemma rolling_mean_lookup (period i : nat) (prices : list Q) :
  (i < length prices)%nat ->
  rolling_mean period (diff_abs prices) !! i
  = Some (mean (tail period (abs_changes (firstn (S i) prices)))).
Proof.
  intros Hi. unfold rolling_mean. rewrite list_lookup_fmap.
  rewrite lookup_seq_lt by (now rewrite length_diff_abs). cbn [fmap option_fmap option_map].
  cbn. now rewrite diff_abs_firstn, dropna_tail_diff_abs.
Qed.

Lemma length_rolling_mean (period : nat) (l : list (option Q)) :
  length (rolling_mean period l) = length l.
Proof. unfold rolling_mean. now rewrite length_map, length_seq. Qed.

Lemma length_bfill (l : list (option Q)) : length (bfill l) = length l.
Proof.
  induction l as [|[x|] r IH]; cbn; [reflexivity| |].
  - now rewrite IH.
  - destruct (bfill r); cbn in *; now rewrite IH.
Qed.

Lemma length_tail {A} (n : nat) (l : list A) :
  length (tail n l) = Nat.min n (length l).
Proof. unfold tail. rewrite length_skipn. lia. Qed.

Lemma mean_is_Some (l : list Q) :
  l <> [] -> mean l = Some (Qsum l / inject_Z (Z.of_nat (length l))).
Proof. destruct l; [congruence | reflexivity]. Qed.

Lemma recent_changes_nonempty (period i : nat) (prices : list Q) :
  (1 <= period)%nat -> (1 <= i)%nat -> (i < length prices)%nat ->
  tail period (abs_changes (firstn (S i) prices)) <> [].
Proof.
  intros Hp Hi Hl H. apply (f_equal length) in H.
  rewrite length_tail, length_abs_changes, length_firstn in H.
  change (length (@nil Q)) with 0%nat in H. lia.
Qed.

Lemma bfill_defined (l : list (option Q)) :
  forallb (fun x => negb (isna x)) l = true -> bfill l = l.
Proof.
  induction l as [|[x|] r IH]; cbn; [reflexivity| |discriminate].
  intros H. now rewrite IH.
Qed.

(** The rolling mean of the changes: NaN at the first index and a value
    at every later one. *)
Lemma rolling_mean_shape (period : nat) (x y : Q) (r : list Q) :
  (1 <= period)%nat ->
  exists rest,
    rolling_mean period (diff_abs (x :: y :: r)) = None :: rest
    /\ rest <> []
    /\ forallb (fun v => negb (isna v)) rest = true.
Proof.
  intros Hp. set (prices := x :: y :: r).
  destruct (rolling_mean period (diff_abs prices)) as [|v rest] eqn:E.
  { apply (f_equal length) in E.
    rewrite length_rolling_mean, length_diff_abs in E. discriminate. }
  assert (Hl : length (v :: rest) = length prices)
    by (rewrite <- E; now rewrite length_rolling_mean, length_diff_abs).
  exists rest. split; [|split].
  - f_equal. pose proof (rolling_mean_lookup period 0 prices) as H0.
    rewrite E in H0. specialize (H0 ltac:(cbn; lia)).
    change ((v :: rest) !! 0%nat) with (Some v) in H0.
    assert (Hv : v = mean (tail period (abs_changes (firstn 1 prices))))
      by congruence.
    rewrite Hv. unfold tail. cbn. reflexivity.
  - intros ->. cbn in Hl. lia.
  - apply forallb_forall. intros w Hw. apply list_elem_of_In in Hw.
    apply list_elem_of_lookup in Hw. destruct Hw as (j & Hj).
    assert (Hjl : (S j < length prices)%nat).
    { apply lookup_lt_Some in Hj. cbn [length] in Hl. lia. }
    pose proof (rolling_mean_lookup period (S j) prices Hjl) as H1.
    rewrite E in H1. change ((v :: rest) !! S j) with (rest !! j) in H1.
    assert (Hw' : w = mean (tail period (abs_changes (firstn (S (S j)) prices))))
      by congruence.
    rewrite Hw', mean_is_Some; [reflexivity|].
    apply recent_changes_nonempty; lia.
Qed.

(** X1: for [period >= 1] the rolling estimate has one entry per price
    and none of them is NaN. *)
Theorem calculate_atr_rolling_defined (prices : list Q) (period : nat)
    (last_valid_atr : Q) :
  (1 <= period)%nat ->
  length (calculate_atr_rolling prices period last_valid_atr) = length prices
  /\ Forall (fun v => isna v = false)
       (calculate_atr_rolling prices period last_valid_atr).
Proof.
  intros Hp. unfold calculate_atr_rolling. cbv zeta.
  destruct prices as [|x [|y r]].
  - cbn. split; [reflexivity | constructor].
  - cbn. unfold rolling_mean, tail. cbn.
    replace (1 - period)%nat with 0%nat by lia.
    cbn. split; [reflexivity|]. constructor; [reflexivity | constructor].
  - destruct (rolling_mean_shape period x y r Hp) as (rest & E & Hne & Hall).
    rewrite E. destruct rest as [|[v|] rest]; [congruence| |discriminate].
    cbn [forallb isna andb]. cbn [bfill]. cbn in Hall.
    rewrite (bfill_defined rest Hall).
    assert (Hl : length (None :: Some v :: rest) = length (x :: y :: r))
      by (rewrite <- E; now rewrite length_rolling_mean, length_diff_abs).
    split.
    + cbn [length] in *. lia.
    + constructor; [reflexivity|]. constructor; [reflexivity|].
      apply Forall_forall. intros w Hw.
      apply list_elem_of_In in Hw.
      pose proof (proj1 (forallb_forall _ _) Hall w Hw) as H.
      now destruct w.
Qed.

Lemma calculate_atr_rolling_defined_witness :
  length (calculate_atr_rolling [100; 102; 101; 105] 2 1) = 4%nat
  /\ Forall (fun v => isna v = false) (calculate_atr_rolling [100; 102; 101; 105] 2 1).
Proof.
  apply (calculate_atr_rolling_defined [100; 102; 101; 105] 2 1). lia.
Defined.

Lemma abs_changes_firstn (i : nat) (prices : list Q) :
  abs_changes (firstn (S i) prices) = firstn i (abs_changes prices).
Proof.
  destruct prices as [|x r]; [now destruct i|]. cbn.
  revert x i. induction r as [|y r IH]; intros x i; [now destruct i|].
  destruct i as [|i]; [reflexivity|]. cbn. f_equal. apply IH.
Qed.

(** The rolling estimate at a later index and at the first one. *)
Lemma calculate_atr_rolling_lookup (prices : list Q) (period : nat)
    (last_valid_atr : Q) (i : nat) :
  (1 <= period)%nat -> (1 <= i)%nat -> (i < length prices)%nat ->
  calculate_atr_rolling prices period last_valid_atr !! i
  = Some (mean (tail period (firstn i (abs_changes prices))))
  /\ calculate_atr_rolling prices period last_valid_atr !! 0%nat
     = calculate_atr_rolling prices period last_valid_atr !! 1%nat.
Proof.
  intros Hp Hi Hl. unfold calculate_atr_rolling. cbv zeta.
  destruct prices as [|x [|y r]]; [cbn in Hl; lia | cbn in Hl; lia |].
  destruct (rolling_mean_shape period x y r Hp) as (rest & E & Hne & Hall).
  pose proof (rolling_mean_lookup period i (x :: y :: r) Hl) as Hi'.
  rewrite E in *. destruct rest as [|[v|] rest]; [congruence| |discriminate].
  cbn [forallb isna andb]. cbn [bfill]. cbn in Hall.
  rewrite (bfill_defined rest Hall). split; [|reflexivity].
  destruct i as [|i]; [lia|].
  change ((Some v :: Some v :: rest) !! S i) with ((None :: Some v :: rest) !! S i).
  rewrite Hi'. now rewrite abs_changes_firstn.
Qed.

(** X2: for [period >= 1], the rolling estimate at an index [i >= 1] is
    the mean of the last [min period i] absolute changes up to tick [i],
    and the entry of the first tick repeats the one of the second. *)
Theorem calculate_atr_rolling_values (prices : list Q) (period : nat)
    (last_valid_atr : Q) (i : nat) :
  (1 <= period)%nat -> (1 <= i)%nat -> (i < length prices)%nat ->
  let recent := tail period (firstn i (abs_changes prices)) in
  length recent = Nat.min period i
  /\ calculate_atr_rolling prices period last_valid_atr !! i
     = Some (Some (Qsum recent / inject_Z (Z.of_nat (Nat.min period i))))
  /\ calculate_atr_rolling prices period last_valid_atr !! 0%nat
     = calculate_atr_rolling prices period last_valid_atr !! 1%nat.
Proof.
  intros Hp Hi Hl. cbv zeta.
  destruct (calculate_atr_rolling_lookup prices period last_valid_atr i Hp Hi Hl)
    as (H1 & H2).
  assert (Hlen : length (tail period (firstn i (abs_changes prices)))
                 = Nat.min period i).
  { rewrite length_tail, length_firstn, length_abs_changes. lia. }
  refine (conj Hlen (conj _ H2)).
  rewrite H1, mean_is_Some, Hlen; [reflexivity|].
  intros E. rewrite E in Hlen. cbn in Hlen. lia.
Qed.

Lemma calculate_atr_rolling_values_witness :
  let recent := tail 2 (firstn 3 (abs_changes [100; 102; 101; 105])) in
  length recent = Nat.min 2 3
  /\ calculate_atr_rolling [100; 102; 101; 105] 2 1 !! 3%nat
     = Some (Some (Qsum recent / inject_Z (Z.of_nat (Nat.min 2 3))))
  /\ calculate_atr_rolling [100; 102; 101; 105] 2 1 !! 0%nat
     = calculate_atr_rolling [100; 102; 101; 105] 2 1 !! 1%nat.
Proof.
  apply (calculate_atr_rolling_values [100; 102; 101; 105] 2 1 3); cbn; lia.
Defined.

(** The window mode, read on the changes. *)
Lemma calculate_atr_on_changes (prices : list Q) (window : nat) (last_valid_atr : Q) :
  calculate_atr prices window last_valid_atr
  = match mean (tail window (abs_changes prices)) with
    | Some a =>
        if (window / 2 <=? length (tail window (abs_changes prices)))%nat
        then a else last_valid_atr
    | None => last_valid_atr
    end.
Proof. unfold calculate_atr. now rewrite dropna_tail_diff_abs. Qed.

(** X3: the two modes agree: once at least [period / 2] changes exist,
    the rolling estimate at tick [i] is the window-mode estimate of the
    prices up to that tick, whatever the fallback. *)
Theorem calculate_atr_rolling_is_window (prices : list Q) (period : nat)
    (last_valid_atr fallback : Q) (i : nat) :
  (1 <= period)%nat -> (1 <= i)%nat -> (i < length prices)%nat ->
  (period / 2 <= i)%nat ->
  calculate_atr_rolling prices period last_valid_atr !! i
  = Some (Some (calculate_atr (firstn (S i) prices) period fallback)).
Proof.
  intros Hp Hi Hl Hh.
  destruct (calculate_atr_rolling_lookup prices period last_valid_atr i Hp Hi Hl)
    as (H1 & _).
  rewrite H1, calculate_atr_on_changes, abs_changes_firstn.
  assert (Hlen : length (tail period (firstn i (abs_changes prices)))
                 = Nat.min period i).
  { rewrite length_tail, length_firstn, length_abs_changes. lia. }
  destruct (mean (tail period (firstn i (abs_changes prices)))) as [a|] eqn:E.
  - rewrite Hlen.
    assert (Hd : (period / 2 <= period)%nat) by (apply Nat.Div0.div_le_upper_bound; lia).
    destruct (Nat.leb_spec (period / 2) (Nat.min period i)); [reflexivity | lia].
  - exfalso. unfold mean in E.
    destruct (tail period (firstn i (abs_changes prices))); [cbn in Hlen; lia|].
    discriminate.
Qed.

Lemma calculate_atr_rolling_is_window_witness :
  calculate_atr_rolling [100; 102; 101; 105] 2 1 !! 3%nat
  = Some (Some (calculate_atr (firstn 4 [100; 102; 101; 105]) 2 7)).
Proof.
  apply (calculate_atr_rolling_is_window [100; 102; 101; 105] 2 1 7 3); cbn; lia.
Defined.

(** ** The window mode: sign and warm-up *)

Lemma abs_changes_from_nonneg (prev : Q) (l : list Q) :
  Forall (fun d => 0 <= d) (abs_changes_from prev l).
Proof.
  revert prev. induction l as [|x r IH]; intros prev; cbn [abs_changes_from];
    constructor.
  - apply Qabs_nonneg.
  - apply IH.
Qed.

Lemma abs_changes_nonneg (prices : list Q) :
  Forall (fun d => 0 <= d) (abs_changes prices).
Proof.
  destruct prices as [|x r]; [constructor | apply abs_changes_from_nonneg].
Qed.

Lemma Qsum_nonneg (l : list Q) : Forall (fun d => 0 <= d) l -> 0 <= Qsum l.
Proof.
  induction 1 as [|d l Hd _ IH]; cbn; [apply Qle_refl|].
  change 0 with (0 + 0). now apply Qplus_le_compat.
Qed.

Lemma mean_nonneg (l : list Q) (a : Q) :
  Forall (fun d => 0 <= d) l -> mean l = Some a -> 0 <= a.
Proof.
  intros Hl Hm. destruct l as [|d l]; [discriminate|]. injection Hm as <-.
  apply Qle_shift_div_l.
  - change 0 with (inject_Z 0). rewrite <- Zlt_Qlt. cbn [length]. lia.
  - rewrite Qmult_0_l. exact (Qsum_nonneg (d :: l) Hl).
Qed.

(** X4: the window-mode estimate is never negative when its fallback is
    not. *)
Theorem calculate_atr_nonneg (prices : list Q) (window : nat) (last_valid_atr : Q) :
  0 <= last_valid_atr -> 0 <= calculate_atr prices window last_valid_atr.
Proof.
  intros Hl. rewrite calculate_atr_on_changes.
  destruct (mean (tail window (abs_changes prices))) as [a|] eqn:E; [|exact Hl].
  destruct (window / 2 <=? length (tail window (abs_changes prices)))%nat;
    [|exact Hl].
  apply (mean_nonneg (tail window (abs_changes prices)) a); [|exact E].
  unfold tail. apply Forall_drop, abs_changes_nonneg.
Qed.

Lemma calculate_atr_nonneg_witness : 0 <= calculate_atr [100; 102; 101] 2 1.
Proof. apply calculate_atr_nonneg. lra. Defined.

(** X5: the warm-up of the window mode: a series of at most one price,
    or of at most [window / 2] prices, gives the fallback. *)
Theorem calculate_atr_warm_up (prices : list Q) (window : nat) (last_valid_atr : Q) :
  (length prices <= Nat.max 1 (window / 2))%nat ->
  calculate_atr prices window last_valid_atr = last_valid_atr.
Proof.
  intros Hl. rewrite calculate_atr_on_changes.
  pose proof (length_tail window (abs_changes prices)) as Ht.
  rewrite length_abs_changes in Ht.
  destruct (tail window (abs_changes prices)) as [|d ds] eqn:E; [reflexivity|].
  cbn [mean]. rewrite Ht.
  destruct (Nat.leb_spec (window / 2) (Nat.min window (length prices - 1)));
    [|reflexivity].
  exfalso. cbn [length] in Ht. lia.
Qed.

Lemma calculate_atr_warm_up_witness :
  calculate_atr (repeat 100 30) short_atr_window 7 = 7.
Proof. apply calculate_atr_warm_up. vm_compute. lia. Defined.

(** ** The grid calculator *)

Lemma pymax_ge_l (a b : Q) : a <= pymax a b.
Proof.
  unfold pymax. destruct (Qlt_bool a b) eqn:E; [|apply Qle_refl].
  apply Qlt_bool_iff in E. now apply Qlt_le_weak.
Qed.

Lemma pymax_ge_r (a b : Q) : b <= pymax a b.
Proof.
  unfold pymax. destruct (Qlt_bool a b) eqn:E; [apply Qle_refl|].
  now apply Qlt_bool_false in E.
Qed.

Lemma pymin_le_r (a b : Q) : pymin a b <= b.
Proof.
  unfold pymin. destruct (Qlt_bool b a) eqn:E; [apply Qle_refl|].
  now apply Qlt_bool_false in E.
Qed.

Lemma pymin_glb (a b c : Q) : c <= a -> c <= b -> c <= pymin a b.
Proof. intros Ha Hb. unfold pymin. now destruct (Qlt_bool b a). Qed.

Lemma pymin_below (a b : Q) : pymin a b < b -> pymin a b = a.
Proof.
  unfold pymin. destruct (Qlt_bool b a); [|reflexivity].
  intros H. exfalso. apply (Qlt_irrefl b H).
Qed.

(** The ATR that [calculate_grid] works with: the one it is given, or
    [last_valid_atr] when that is NaN. *)
Lemma calculate_grid_value (cfg : Config) (price : Q) (atr : option Q)
    (values : list Q) (index : nat) (s : State) :
  let a := match atr with Some a => a | None => last_valid_atr s end in
  let g1 := pymin (pymax (grid_size_factor cfg * a) (minimum_grid_size cfg)) 10 in
  (calculate_grid cfg price atr values index s).2
  = (if (short_atr_window <=? index)%nat
     then pymin (pymax g1 (calculate_atr (firstn (index + 1) values)
                             short_atr_window a * grid_size_factor cfg)) 10
     else g1,
     if (max_contracts <? fold_right Z.add 0%Z (map p_size (positions s)) + 1)%Z
     then 0%Z else 1%Z).
Proof. unfold calculate_grid. destruct atr; reflexivity. Qed.

(** X6: with [minimum_grid_size <= 10] the grid size that
    [calculate_grid] returns lies between [minimum_grid_size] and 10,
    and below 10 it is at least [grid_size_factor] times the ATR used. *)
Theorem calculate_grid_bounds (cfg : Config) (price : Q) (atr : option Q)
    (values : list Q) (index : nat) (s : State) :
  minimum_grid_size cfg <= 10 ->
  let g := (calculate_grid cfg price atr values index s).2.1 in
  let a := match atr with Some a => a | None => last_valid_atr s end in
  minimum_grid_size cfg <= g /\ g <= 10
  /\ (g < 10 -> grid_size_factor cfg * a <= g).
Proof.
  intros Hm. cbv zeta. rewrite calculate_grid_value. cbv zeta. cbn [fst snd].
  set (a := match atr with Some a => a | None => last_valid_atr s end).
  set (g1 := pymin (pymax (grid_size_factor cfg * a) (minimum_grid_size cfg)) 10).
  assert (H1 : minimum_grid_size cfg <= g1)
    by (apply pymin_glb; [apply pymax_ge_r | exact Hm]).
  assert (H2 : g1 < 10 -> grid_size_factor cfg * a <= g1).
  { intros H. subst g1. rewrite (pymin_below _ _ H). apply pymax_ge_l. }
  destruct (short_atr_window <=? index)%nat.
  - set (b := calculate_atr (firstn (index + 1) values) short_atr_window a
              * grid_size_factor cfg).
    refine (conj _ (conj (pymin_le_r _ _) _)).
    + apply pymin_glb; [|exact Hm].
      eapply Qle_trans; [exact H1 | apply pymax_ge_l].
    + intros H. pose proof (pymin_below _ _ H) as E. rewrite E in H |- *.
      pose proof (pymax_ge_l g1 b) as H3.
      eapply Qle_trans; [apply H2 | exact H3].
      eapply Qle_lt_trans; [exact H3 | exact H].
  - refine (conj H1 (conj (pymin_le_r _ _) H2)).
Qed.

Lemma calculate_grid_bounds_witness :
  let s := initial_state default_config (at_ 0 9 0) 100 2 in
  let g := (calculate_grid default_config 99 (Some 1) [100; 99] 1 s).2.1 in
  minimum_grid_size default_config <= g /\ g <= 10
  /\ (g < 10 -> grid_size_factor default_config * 1 <= g).
Proof.
  apply (calculate_grid_bounds default_config 99 (Some 1) [100; 99] 1).
  vm_compute. discriminate.
Defined.

(** ** An invariant of the stages of a tick is an invariant of the tick *)

Section TickPreservation.

Variable cfg : Config.
Variable prices : list (Timestamp * Q).
Variable Inv : State -> Prop.

Hypothesis Inv_rollover : forall timestamp s, Inv s -> Inv (rollover timestamp s).
Hypothesis Inv_bootstrap :
  forall timestamp s, Inv s -> Inv (daily_atr_bootstrap prices timestamp s).
Hypothesis Inv_close_all :
  forall price timestamp s, Inv s -> Inv (close_all_positions cfg price timestamp s).1.
Hypothesis Inv_equity : forall i v s, Inv s -> Inv (set_equity i v s).
Hypothesis Inv_init :
  forall values i price atr s, Inv s -> Inv (init_grid cfg values i price atr s).
Hypothesis Inv_rebased :
  forall values i price s, Inv s -> Inv (rebase cfg values i price s).
Hypothesis Inv_take_profit :
  forall price timestamp pos s, Inv s -> Inv (take_profit_one cfg price timestamp pos s).
Hypothesis Inv_entry :
  forall timestamp price forced s, Inv s -> Inv (entry_step cfg timestamp price forced s).

Lemma stage_breach_step (values : list Q) (i : nat) (timestamp : Timestamp)
    (price : Q) (s : State) :
  Inv s -> Inv (breach_step cfg values i timestamp price s).1.
Proof.
  intros H. unfold breach_step. destruct (out_of_band cfg price s); [|exact H].
  pose proof (Inv_close_all price timestamp s H) as Hc.
  destruct (close_all_positions cfg price timestamp s) as [s1 tot].
  cbn [fst] in *. now apply Inv_rebased.
Qed.

Lemma stage_exit_loop (values : list Q) (i : nat) (timestamp : Timestamp)
    (price tp ml : Q) (copy : list Position) :
  forall s, Inv s -> Inv (exit_loop cfg values i timestamp price tp ml copy s).1.
Proof.
  induction copy as [|pos rest IH]; intros s H; [exact H|].
  rewrite exit_loop_cons. repeat case_cond; cbn [fst]; auto.
Qed.

Lemma stage_trading_tick (values : list Q) (i : nat) (is_last : bool)
    (timestamp : Timestamp) (price atr : Q) (s : State) :
  Inv s ->
  Inv (outcome_state (trading_tick cfg values i is_last timestamp price atr s)).
Proof.
  intros H. unfold trading_tick.
  pose proof (Inv_init values i price atr s H) as H1.
  set (s1 := init_grid cfg values i price atr s) in *.
  pose proof (stage_breach_step values i timestamp price s1 H1) as H2.
  destruct (breach_step cfg values i timestamp price s1) as [s2 b].
  cbn [fst] in H2. unfold exit_step.
  match goal with |- context [exit_loop cfg ?v ?j ?t ?p ?a ?b ?c ?u] =>
    pose proof (stage_exit_loop v j t p a b c u H2) as H3;
    destruct (exit_loop cfg v j t p a b c u) as [s3 forced] end.
  cbn [fst] in H3.
  pose proof (Inv_entry timestamp price forced s3 H3) as H4.
  set (s4 := entry_step cfg timestamp price forced s3) in *.
  pose proof (Inv_equity i (mark cfg price s4) s4 H4) as H5.
  set (s5 := set_equity i (mark cfg price s4) s4) in *.
  destruct (Qlt_bool (capital s5) 0); [exact H5|].
  destruct (is_last && nonempty (positions s5)); [|exact H5].
  pose proof (Inv_close_all price timestamp s5 H5) as H6.
  destruct (close_all_positions cfg price timestamp s5) as [s6 tot].
  cbn [fst outcome_state] in *. auto.
Qed.

Lemma stage_loop_body (ld : Z) (i : nat) (s : State) :
  Inv s -> Inv (outcome_state (loop_body cfg prices ld i s)).
Proof.
  intros H. unfold loop_body.
  destruct (prices !! i) as [[timestamp price]|]; [|exact H].
  pose proof (Inv_bootstrap timestamp _ (Inv_rollover timestamp s H)) as H1.
  set (s1 := daily_atr_bootstrap prices timestamp (rollover timestamp s)) in *.
  destruct (terminal ld timestamp s1).
  - pose proof (Inv_close_all price timestamp s1 H1) as H2.
    destruct (close_all_positions cfg price timestamp s1) as [s2 tot].
    cbn [fst outcome_state] in *. auto.
  - destruct (skipped timestamp s1); [exact H1|].
    destruct (negb (is_trading_time timestamp) || is_end_of_day timestamp).
    + cbn [outcome_state]. auto.
    + now apply stage_trading_tick.
Qed.

End TickPreservation.

(** ** The shape of the ledger during a run *)

Lemma Forall_remove (P : Position -> Prop) (x : Position) (l : list Position) :
  Forall P l -> Forall P (remove x l).
Proof.
  induction 1 as [|y r Hy Hr IH]; cbn; [constructor|].
  destruct (pos_eqb y x); [exact Hr | now constructor].
Qed.

Lemma unit_sizes_total (ps : list Position) :
  unit_sizes ps -> fold_right Z.add 0%Z (map p_size ps) = Z.of_nat (length ps).
Proof.
  induction 1 as [|p r Hp Hr IH]; [reflexivity|].
  cbn [map fold_right length]. rewrite IH, Hp. lia.
Qed.

Lemma well_formed_same (s s' : State) :
  positions s' = positions s -> grid_size s' = grid_size s -> size s' = size s ->
  well_formed s -> well_formed s'.
Proof. unfold well_formed. now intros -> -> ->. Qed.

Lemma well_formed_total (s : State) :
  well_formed s -> (length (positions s) <= 6)%nat.
Proof.
  intros ([H | H] & Hb & Hs & _); rewrite length_count_sides; lia.
Qed.

Section Shape.

Variable cfg : Config.

(** In a well-formed state [calculate_grid] finds room for one more
    contract. *)
Lemma calculate_grid_size_one (price : Q) (atr : option Q) (values : list Q)
    (index : nat) (s : State) :
  well_formed s -> (calculate_grid cfg price atr values index s).2.2 = 1%Z.
Proof.
  intros H. rewrite calculate_grid_value. cbv zeta. cbn [snd].
  pose proof (well_formed_total s H) as Hl.
  destruct H as (_ & _ & _ & Hu & _). rewrite (unit_sizes_total _ Hu).
  unfold max_contracts. destruct (Z.ltb_spec 12 (Z.of_nat (length (positions s)) + 1));
    [lia | reflexivity].
Qed.

Lemma well_formed_regrid (price : Q) (atr : option Q) (values : list Q)
    (index : nat) (s : State) :
  well_formed s ->
  well_formed (set_grid (calculate_grid cfg price atr values index s).2.1
                 (calculate_grid cfg price atr values index s).2.2
                 (calculate_grid cfg price atr values index s).1).
Proof.
  intros H. rewrite (calculate_grid_size_one price atr values index s H).
  rewrite calculate_grid_state. destruct H as (H1 & H2 & H3 & H4 & _).
  destruct atr; repeat split; assumption.
Qed.

Lemma init_grid_well_formed (values : list Q) (i : nat) (price atr : Q) (s : State) :
  well_formed s -> well_formed (init_grid cfg values i price atr s).
Proof.
  intros H. unfold init_grid. destruct (grid_size s) eqn:E; [exact H|].
  pose proof (well_formed_regrid price (Some atr) values i s H) as Hr.
  destruct (calculate_grid cfg price (Some atr) values i s) as [s1 [g sz]].
  exact Hr.
Qed.

Lemma rebase_well_formed (values : list Q) (i : nat) (price : Q) (s : State) :
  well_formed s -> well_formed (rebase cfg values i price s).
Proof.
  intros H. unfold rebase.
  assert (Hp : well_formed (set_current_pivot price s)) by exact H.
  match goal with |- context [calculate_grid cfg ?p ?a ?v ?j ?t] =>
    pose proof (well_formed_regrid p a v j t Hp) as Hr;
    destruct (calculate_grid cfg p a v j t) as [s1 [g sz]] end.
  exact Hr.
Qed.

Lemma close_all_positions_well_formed (price : Q) (timestamp : Timestamp) (s : State) :
  well_formed s -> well_formed (close_all_positions cfg price timestamp s).1.
Proof.
  intros (_ & _ & _ & _ & Hg).
  pose proof (close_all_positions_empty cfg price timestamp s) as He.
  pose proof (close_all_positions_frame cfg price timestamp s)
    as (_ & _ & _ & _ & _ & _ & _ & Eg & Es).
  cbv zeta in Eg, Es. unfold well_formed, one_sided, unit_sizes.
  rewrite He, Eg, Es.
  refine (conj (or_introl eq_refl) (conj _ (conj _ (conj _ Hg)))).
  - cbn. lia.
  - cbn. lia.
  - constructor.
Qed.

Lemma take_profit_one_well_formed (price : Q) (timestamp : Timestamp)
    (pos : Position) (s : State) :
  well_formed s -> well_formed (take_profit_one cfg price timestamp pos s).
Proof.
  intros (H1 & H2 & H3 & H4 & H5). unfold well_formed, one_sided in *.
  change (positions (take_profit_one cfg price timestamp pos s))
    with (remove pos (positions s)).
  change (grid_size (take_profit_one cfg price timestamp pos s)) with (grid_size s).
  change (size (take_profit_one cfg price timestamp pos s)) with (size s).
  pose proof (count_side_remove_le BUY pos (positions s)).
  pose proof (count_side_remove_le SELL pos (positions s)).
  repeat split; try lia; [|exact H5]. now apply Forall_remove.
Qed.

Variables (timestamp : Timestamp) (price : Q).

Lemma filter_nil_count (sd : Side) (ps : list Position) :
  List.filter (is_side sd) ps = [] -> count_side sd ps = 0%nat.
Proof. unfold count_side. now intros ->. Qed.

(** A turn of the entry scan keeps the ledger on one side: an entry
    against positions of the other side is netted at once. *)
Lemma entry_iter_one_sided (g : Q) (n : Z) (acc : Z * Z * State) :
  in_sync acc -> one_sided (positions acc.2) ->
  one_sided (positions (entry_iter cfg timestamp price g n acc).2).
Proof.
  destruct acc as [[nb ns] s]. intros (Hb & Hs & Hb6 & Hs6) Ho. cbn [snd] in Ho.
  unfold entry_iter, max_buys, max_sells.
  repeat case_cond;
  repeat match goal with
  | H : _ && _ = true |- _ => apply andb_true_iff in H; destruct H
  | H : (_ <? _)%Z = true |- _ => apply Z.ltb_lt in H
  | H : List.filter _ _ = _ :: _ |- _ =>
      apply filter_head in H; destruct H as [? H]; apply is_side_flip in H
  | H : List.filter _ _ = [] |- _ => apply filter_nil_count in H
  end;
  cbn [snd]; unfold one_sided in *;
  repeat match goal with
  | |- context [pair_off cfg timestamp price ?sd ?o ?t] =>
      let HB := fresh "HB" in let HS := fresh "HS" in
      pose proof (pair_off_after_open cfg timestamp price sd BUY o _
                    ltac:(eassumption) ltac:(eassumption)) as HB;
      pose proof (pair_off_after_open cfg timestamp price sd SELL o _
                    ltac:(eassumption) ltac:(eassumption)) as HS;
      generalize dependent (pair_off cfg timestamp price sd o t); intros
  end;
  rewrite ?open_position_count in *; cbn [side_eqb] in *; lia.
Qed.

End Shape.

Section ShapeOfRun.

Variable cfg : Config.

Lemma entry_iter_scan_shape (timestamp : Timestamp) (price g : Q) (n : Z)
    (g0 : option Q) (acc : Z * Z * State) :
  scan_shape g0 acc -> scan_shape g0 (entry_iter cfg timestamp price g n acc).
Proof.
  intros (H1 & H2 & H3 & H4 & H5). unfold scan_shape.
  split; [now apply entry_iter_in_sync|].
  split; [now apply entry_iter_one_sided|].
  apply (Inv_entry_iter cfg
           (fun u => unit_sizes (positions u) /\ size u = 1%Z /\ grid_size u = g0)).
  - intros t p sd u (Ha & Hb & Hc). refine (conj _ (conj Hb Hc)).
    change (positions (open_position t p sd u))
      with (positions u ++ [mkPos sd p (size u)]).
    apply Forall_app. split; [exact Ha|]. constructor; [exact Hb | constructor].
  - intros t p sd other u (Ha & Hb & Hc). refine (conj _ (conj Hb Hc)).
    change (positions (pair_off cfg t p sd other u))
      with (remove (mkPos sd p (size u)) (remove other (positions u))).
    now apply Forall_remove, Forall_remove.
  - auto.
Qed.

Lemma entry_loop_scan_shape (timestamp : Timestamp) (price g : Q) (ns : list Z)
    (g0 : option Q) :
  forall acc, scan_shape g0 acc ->
              scan_shape g0 (entry_loop cfg timestamp price g ns acc).
Proof.
  induction ns as [|n rest IH]; intros acc H; [exact H|].
  cbn [entry_loop]. apply IH. now apply entry_iter_scan_shape.
Qed.

Lemma check_daily_fee_shape (timestamp : Timestamp) (fee : option Q) (s : State) :
  positions (check_daily_fee timestamp fee s).1 = positions s
  /\ grid_size (check_daily_fee timestamp fee s).1 = grid_size s
  /\ size (check_daily_fee timestamp fee s).1 = size s.
Proof. unfold check_daily_fee. repeat case_cond; repeat split. Qed.

Lemma entry_step_well_formed (timestamp : Timestamp) (price : Q) (forced : bool)
    (s : State) :
  well_formed s -> well_formed (entry_step cfg timestamp price forced s).
Proof.
  intros H. unfold entry_step. case_cond; [|exact H].
  destruct (check_daily_fee_shape timestamp (Some 0) s) as (Hp & Hg & Hs).
  destruct (check_daily_fee timestamp (Some 0) s) as [s1 over]. cbn [fst] in *.
  assert (H1 : well_formed s1) by (now apply (well_formed_same s s1)).
  case_cond; [|exact H1].
  apply andb_true_iff in Heqb. destruct Heqb as (_ & Hsz). apply Z.ltb_lt in Hsz.
  destruct H1 as (Ho & Hb & Hsl & Hu & Hgs).
  assert (Hone : size s1 = 1%Z).
  { rewrite Hs. rewrite Hs in Hgs. destruct (grid_size s1); lia. }
  match goal with |- context [entry_loop cfg ?t ?p ?g ?ns ?acc] =>
    pose proof (entry_loop_scan_shape t p g ns (grid_size s1) acc) as Hk;
    destruct (entry_loop cfg t p g ns acc) as [[nb' ns'] s2] end.
  destruct Hk as ((_ & _ & Hb' & Hs') & Ho' & Hu' & Hz' & Hg').
  { unfold scan_shape, in_sync. cbn [snd]. repeat split; auto. }
  cbn [snd] in *. unfold well_formed. rewrite Hg'.
  refine (conj Ho' (conj Hb' (conj Hs' (conj Hu' _)))).
  rewrite Hz'. destruct (grid_size s1); [reflexivity | lia].
Qed.

Lemma rollover_shape (timestamp : Timestamp) (s : State) :
  positions (rollover timestamp s) = positions s
  /\ grid_size (rollover timestamp s) = grid_size s
  /\ size (rollover timestamp s) = size s.
Proof.
  refine (conj (proj1 (rollover_fields timestamp s)) _).
  unfold rollover, apply_overnight_fee. repeat case_cond; split; reflexivity.
Qed.

Lemma daily_atr_bootstrap_shape (prices : list (Timestamp * Q))
    (timestamp : Timestamp) (s : State) :
  positions (daily_atr_bootstrap prices timestamp s) = positions s
  /\ grid_size (daily_atr_bootstrap prices timestamp s) = grid_size s
  /\ size (daily_atr_bootstrap prices timestamp s) = size s.
Proof. unfold daily_atr_bootstrap. repeat case_cond; repeat split. Qed.

Lemma loop_body_well_formed (prices : list (Timestamp * Q)) (ld : Z) (i : nat)
    (s : State) :
  well_formed s -> well_formed (outcome_state (loop_body cfg prices ld i s)).
Proof.
  apply (stage_loop_body cfg prices well_formed).
  - intros t u Hu. destruct (rollover_shape t u) as (H1 & H2 & H3).
    now apply (well_formed_same u).
  - intros t u Hu. destruct (daily_atr_bootstrap_shape prices t u) as (H1 & H2 & H3).
    now apply (well_formed_same u).
  - intros p t u Hu. now apply close_all_positions_well_formed.
  - intros j v u Hu. exact Hu.
  - intros v j p a u Hu. now apply init_grid_well_formed.
  - intros v j p u Hu. now apply rebase_well_formed.
  - intros p t pos u Hu. now apply take_profit_one_well_formed.
  - intros t p forced u Hu. now apply entry_step_well_formed.
Qed.

Lemma initial_state_well_formed (t0 : Timestamp) (p0 : Q) (n : nat) :
  well_formed (initial_state cfg t0 p0 n).
Proof.
  unfold well_formed, one_sided, unit_sizes. cbn.
  refine (conj (or_introl eq_refl) (conj _ (conj _ (conj _ eq_refl)))); try lia.
  constructor.
Qed.

End ShapeOfRun.

(** X7: after every tick of a run the ledger holds positions of one side
    only, BUY or SELL, and so at most six positions in all: an entry
    against positions of the other side is netted at once. *)
Theorem ledger_one_sided (cfg : Config) (prices : list (Timestamp * Q)) :
  Forall (fun s =>
            (count_side BUY (positions s) = 0%nat
             \/ count_side SELL (positions s) = 0%nat)
            /\ (length (positions s) <= 6)%nat)
    (trace cfg prices).
Proof.
  eapply Forall_impl.
  - apply (Inv_trace cfg prices well_formed).
    + apply initial_state_well_formed.
    + intros. now apply loop_body_well_formed.
  - intros s H. cbn beta. split; [apply H | now apply well_formed_total].
Qed.

(** X8: after every tick of a run every open position is of one
    contract, and the [size] of an entry is 0 until the grid is first
    computed and 1 from then on: the limit [max_contracts] = 12 never
    holds an entry back. *)
Theorem ledger_unit_sizes (cfg : Config) (prices : list (Timestamp * Q)) :
  Forall (fun s =>
            Forall (fun p => p_size p = 1%Z) (positions s)
            /\ fold_right Z.add 0%Z (map p_size (positions s)) + 1 <= max_contracts
            /\ size s = match grid_size s with None => 0 | Some _ => 1 end)%Z
    (trace cfg prices).
Proof.
  eapply Forall_impl.
  - apply (Inv_trace cfg prices well_formed).
    + apply initial_state_well_formed.
    + intros. now apply loop_body_well_formed.
  - intros s H. cbn beta. pose proof (well_formed_total s H) as Hl.
    destruct H as (_ & _ & _ & Hu & Hg).
    refine (conj Hu (conj _ _)).
    + rewrite (unit_sizes_total _ Hu). unfold max_contracts. lia.
    + destruct (grid_size s); exact Hg.
Qed.

(** ** From one state of the timeline to the next *)

Lemma trace_from_step (body : nat -> State -> Outcome) (n : nat) :
  forall (a : nat) (s : State) (i : nat) (u u' : State),
    (s :: trace_from body (seq a n) s) !! i = Some u ->
    (s :: trace_from body (seq a n) s) !! S i = Some u' ->
    u' = outcome_state (body (a + i)%nat u).
Proof.
  induction n as [|n IH]; intros a s i u u' Hu Hu'.
  - cbn in Hu'. destruct i; discriminate.
  - cbn [seq trace_from] in Hu, Hu'. destruct i as [|i].
    + injection Hu as <-. rewrite Nat.add_0_r.
      destruct (body a s) as [s1|s1]; cbn in Hu' |- *; congruence.
    + destruct (body a s) as [s1|s1] eqn:Eb.
      * replace (a + S i)%nat with (S a + i)%nat by lia.
        apply (IH (S a) s1 i u u'); assumption.
      * destruct i; discriminate.
Qed.

(** Consecutive states of the timeline are the two ends of a tick. *)
Lemma timeline_step (cfg : Config) (prices : list (Timestamp * Q)) (i : nat)
    (u u' : State) :
  timeline cfg prices !! i = Some u ->
  timeline cfg prices !! S i = Some u' ->
  u' = outcome_state (loop_body cfg prices (last_data_date prices) (S i) u).
Proof.
  unfold timeline, trace. destruct prices as [|[t0 p0] rest] eqn:E; [discriminate|].
  rewrite <- E. intros Hu Hu'.
  apply (trace_from_step _ (length prices - 1) 1 _ i u u' Hu Hu').
Qed.

Lemma timeline_head (cfg : Config) (t0 : Timestamp) (p0 : Q)
    (rest : list (Timestamp * Q)) :
  timeline cfg ((t0, p0) :: rest) !! 0%nat
  = Some (initial_state cfg t0 p0 (length ((t0, p0) :: rest))).
Proof. reflexivity. Qed.

(** What holds at the head of the loop and is kept by each tick holds
    along the timeline. *)
Lemma Inv_timeline (cfg : Config) (prices : list (Timestamp * Q)) (Inv : State -> Prop) :
  (forall t0 p0 n, Inv (initial_state cfg t0 p0 n)) ->
  (forall ld i s, Inv s -> Inv (outcome_state (loop_body cfg prices ld i s))) ->
  Forall Inv (timeline cfg prices).
Proof.
  intros H0 Hb. unfold timeline. destruct prices as [|[t0 p0] rest] eqn:E;
    [constructor|]. rewrite <- E in *. constructor; [apply H0|].
  now apply Inv_trace.
Qed.

(** ** The grid size during a run *)

Section GridOfRun.

Variable cfg : Config.
Hypothesis floor_below_ceiling : minimum_grid_size cfg <= 10.

Lemma calculate_grid_clamped (price : Q) (atr : option Q) (values : list Q)
    (index : nat) (s : State) :
  minimum_grid_size cfg <= (calculate_grid cfg price atr values index s).2.1
  /\ (calculate_grid cfg price atr values index s).2.1 <= 10.
Proof.
  rewrite calculate_grid_value. cbv zeta. cbn [fst snd].
  set (a := match atr with Some a => a | None => last_valid_atr s end).
  set (g1 := pymin (pymax (grid_size_factor cfg * a) (minimum_grid_size cfg)) 10).
  assert (H1 : minimum_grid_size cfg <= g1)
    by (apply pymin_glb; [apply pymax_ge_r | exact floor_below_ceiling]).
  destruct (short_atr_window <=? index)%nat.
  - split; [|apply pymin_le_r].
    apply pymin_glb; [|exact floor_below_ceiling].
    eapply Qle_trans; [exact H1 | apply pymax_ge_l].
  - split; [exact H1 | apply pymin_le_r].
Qed.

Lemma grid_clamped_same (s s' : State) :
  grid_size s' = grid_size s -> grid_clamped cfg s -> grid_clamped cfg s'.
Proof. unfold grid_clamped. now intros ->. Qed.

Lemma entry_step_grid_size (timestamp : Timestamp) (price : Q) (forced : bool)
    (s : State) :
  grid_size (entry_step cfg timestamp price forced s) = grid_size s.
Proof.
  apply (Inv_entry_step cfg (fun u => grid_size u = grid_size s));
    try reflexivity.
  - intros t fee u Hu. now rewrite (proj1 (proj2 (check_daily_fee_shape t fee u))).
  - intros t p sd u Hu. exact Hu.
  - intros t p sd other u Hu. exact Hu.
Qed.

Lemma loop_body_grid_clamped (prices : list (Timestamp * Q)) (ld : Z) (i : nat)
    (s : State) :
  grid_clamped cfg s -> grid_clamped cfg (outcome_state (loop_body cfg prices ld i s)).
Proof.
  apply (stage_loop_body cfg prices (grid_clamped cfg)).
  - intros t u Hu. apply (grid_clamped_same u); [|exact Hu].
    apply rollover_shape.
  - intros t u Hu. apply (grid_clamped_same u); [|exact Hu].
    apply daily_atr_bootstrap_shape.
  - intros p t u Hu. apply (grid_clamped_same u); [|exact Hu].
    apply (close_all_positions_frame cfg p t u).
  - intros j v u Hu. exact Hu.
  - intros v j p a u Hu. unfold init_grid. destruct (grid_size u) eqn:E; [exact Hu|].
    pose proof (calculate_grid_clamped p (Some a) v j u) as Hc.
    destruct (calculate_grid cfg p (Some a) v j u) as [s1 [g sz]]. exact Hc.
  - intros v j p u Hu. unfold rebase.
    match goal with |- context [calculate_grid cfg ?p ?a ?v ?j ?t] =>
      pose proof (calculate_grid_clamped p a v j t) as Hc;
      destruct (calculate_grid cfg p a v j t) as [s1 [g sz]] end.
    exact Hc.
  - intros p t pos u Hu. exact Hu.
  - intros t p forced u Hu. apply (grid_clamped_same u); [|exact Hu].
    apply entry_step_grid_size.
Qed.

End GridOfRun.

(** X9: with [minimum_grid_size <= 10], after every tick of a run the
    grid size is either not yet computed or lies between
    [minimum_grid_size] and 10. *)
Theorem grid_size_clamped (cfg : Config) (prices : list (Timestamp * Q)) :
  minimum_grid_size cfg <= 10 ->
  Forall (fun s =>
            match grid_size s with
            | Some g => minimum_grid_size cfg <= g /\ g <= 10
            | None => True
            end)
    (trace cfg prices).
Proof.
  intros Hm. apply (Inv_trace cfg prices (grid_clamped cfg)).
  - intros. exact I.
  - intros. now apply loop_body_grid_clamped.
Qed.

Lemma grid_size_clamped_witness :
  Forall (fun s =>
            match grid_size s with
            | Some g => minimum_grid_size default_config <= g /\ g <= 10
            | None => True
            end)
    (trace default_config series_a).
Proof.
  apply (grid_size_clamped default_config series_a). vm_compute. discriminate.
Defined.

(** ** The logs only grow *)

Lemma extends_refl (s : State) : extends s s.
Proof. split; exists []; now rewrite app_nil_r. Qed.

Lemma extends_trans (a b c : State) : extends a b -> extends b c -> extends a c.
Proof.
  intros ((k1 & H1) & (k2 & H2)) ((k3 & H3) & (k4 & H4)). split.
  - exists (k1 ++ k3). now rewrite H3, H1, app_assoc.
  - exists (k2 ++ k4). now rewrite H4, H2, app_assoc.
Qed.

Lemma extends_log (r : TradeRecord) (s s' : State) :
  trade_history s' = trade_history s ++ [r] -> trades s' = trades s -> extends s s'.
Proof.
  intros H1 H2. split; [now exists [r]|]. exists []. now rewrite app_nil_r.
Qed.

Lemma extends_same (s s' : State) :
  trade_history s' = trade_history s -> trades s' = trades s -> extends s s'.
Proof. intros H1 H2. split; exists []; now rewrite app_nil_r. Qed.

Lemma loop_body_extends (cfg : Config) (prices : list (Timestamp * Q)) (ld : Z)
    (i : nat) (s : State) :
  extends s (outcome_state (loop_body cfg prices ld i s)).
Proof.
  apply (Inv_loop_body cfg prices (extends s)); try (intros; assumption).
  - intros t u Hu. apply (extends_trans s u); [exact Hu|].
    unfold rollover, apply_overnight_fee. repeat case_cond;
      try apply extends_refl; try (now apply extends_same).
    eapply extends_log; reflexivity.
  - intros t u Hu. apply (extends_trans s u); [exact Hu|].
    unfold daily_atr_bootstrap. repeat case_cond; now apply extends_same.
  - intros p t u Hu. apply (extends_trans s u); [exact Hu|].
    destruct (close_all_positions_effect cfg p t u) as (_ & _ & _ & _ & (tl & H & _)).
    pose proof (close_all_positions_frame cfg p t u) as (Ht & _).
    cbv zeta in Ht. split; [eexists; exact H|].
    exists []. now rewrite app_nil_r.
  - intros p t pos u Hu. apply (extends_trans s u); [exact Hu|].
    eapply extends_log; reflexivity.
  - intros t p forced u Hu. apply (extends_trans s u); [exact Hu|].
    apply (Inv_entry_step cfg (extends u)); [| | |apply extends_refl].
    + intros t' fee v Hv. apply (extends_trans u v); [exact Hv|].
      unfold check_daily_fee. repeat case_cond; now apply extends_same.
    + intros t' p' sd v Hv. apply (extends_trans u v); [exact Hv|].
      split; eexists; reflexivity.
    + intros t' p' sd other v Hv. apply (extends_trans u v); [exact Hv|].
      eapply extends_log; reflexivity.
  - apply extends_refl.
Qed.

Lemma timeline_extends (cfg : Config) (prices : list (Timestamp * Q)) (d : nat) :
  forall (i : nat) (u u' : State),
    timeline cfg prices !! i = Some u ->
    timeline cfg prices !! (i + d)%nat = Some u' ->
    extends u u'.
Proof.
  induction d as [|d IH]; intros i u u' Hu Hu'.
  - rewrite Nat.add_0_r in Hu'. assert (u' = u) by congruence. subst.
    apply extends_refl.
  - replace (i + S d)%nat with (S (i + d)) in Hu' by lia.
    destruct (lookup_lt_is_Some_2 (timeline cfg prices) (i + d)) as (v & Hv).
    { apply lookup_lt_Some in Hu'. lia. }
    apply (extends_trans u v); [now apply (IH i)|].
    rewrite (timeline_step cfg prices (i + d) v u' Hv Hu').
    apply loop_body_extends.
Qed.

(** X10: the trade history and the list of entries are append-only: what
    they hold at one point of a run they still hold, in place, at every
    later point. *)
Theorem logs_append_only (cfg : Config) (prices : list (Timestamp * Q))
    (i j : nat) (u u' : State) :
  (i <= j)%nat ->
  timeline cfg prices !! i = Some u ->
  timeline cfg prices !! j = Some u' ->
  (exists k, trade_history u' = trade_history u ++ k)
  /\ (exists k, trades u' = trades u ++ k).
Proof.
  intros Hij Hu Hu'. replace j with (i + (j - i))%nat in Hu' by lia.
  exact (timeline_extends cfg prices (j - i) i u u' Hu Hu').
Qed.

Lemma logs_append_only_witness :
  (exists k, trade_history (outcome_state (run default_config series_a))
             = trade_history (initial_state default_config (at_ 0 9 0) 100 4) ++ k)
  /\ (exists k, trades (outcome_state (run default_config series_a))
                = trades (initial_state default_config (at_ 0 9 0) 100 4) ++ k).
Proof.
  apply (logs_append_only default_config series_a 0 3).
  - lia.
  - reflexivity.
  - vm_compute. reflexivity.
Defined.

(** ** An invariant of the stages of one tick *)

Section OneTick.

Variable cfg : Config.
Variable prices : list (Timestamp * Q).
Variables (i : nat) (timestamp : Timestamp) (price : Q).
Variables (Pre Inv : State -> Prop).

Hypothesis Pre_rollover : forall s, Pre s -> Inv (rollover timestamp s).
Hypothesis At_bootstrap :
  forall s, Inv s -> Inv (daily_atr_bootstrap prices timestamp s).
Hypothesis At_close_all :
  forall s, Inv s -> Inv (close_all_positions cfg price timestamp s).1.
Hypothesis At_equity : forall v s, Inv s -> Inv (set_equity i v s).
Hypothesis At_init :
  forall atr s, Inv s -> Inv (init_grid cfg (map snd prices) i price atr s).
Hypothesis At_rebase :
  forall s, Inv s -> Inv (rebase cfg (map snd prices) i price s).
Hypothesis At_take_profit :
  forall pos s, Inv s -> Inv (take_profit_one cfg price timestamp pos s).
Hypothesis At_entry :
  forall forced s, Inv s -> Inv (entry_step cfg timestamp price forced s).

Lemma at_exit_loop (tp ml : Q) (copy : list Position) :
  forall s,
    Inv s ->
    Inv (exit_loop cfg (map snd prices) i timestamp price tp ml copy s).1.
Proof.
  induction copy as [|pos rest IH]; intros s H; [exact H|].
  rewrite exit_loop_cons. repeat case_cond; cbn [fst]; auto.
Qed.

Lemma at_trading_tick (is_last : bool) (atr : Q) (s : State) :
  Inv s ->
  Inv (outcome_state
         (trading_tick cfg (map snd prices) i is_last timestamp price atr s)).
Proof.
  intros H. unfold trading_tick.
  pose proof (At_init atr s H) as H1.
  set (s1 := init_grid cfg (map snd prices) i price atr s) in *.
  assert (H2 : Inv (breach_step cfg (map snd prices) i timestamp price s1).1).
  { unfold breach_step. destruct (out_of_band cfg price s1); [|exact H1].
    pose proof (At_close_all s1 H1) as Hc.
    destruct (close_all_positions cfg price timestamp s1) as [s' tot].
    cbn [fst] in *. now apply At_rebase. }
  destruct (breach_step cfg (map snd prices) i timestamp price s1) as [s2 b].
  cbn [fst] in H2. unfold exit_step.
  match goal with |- context [exit_loop cfg ?v ?j ?t ?p ?a ?b ?c ?u] =>
    pose proof (at_exit_loop a b c u H2) as H3;
    destruct (exit_loop cfg v j t p a b c u) as [s3 forced] end.
  cbn [fst] in H3.
  pose proof (At_entry forced s3 H3) as H4.
  set (s4 := entry_step cfg timestamp price forced s3) in *.
  pose proof (At_equity (mark cfg price s4) s4 H4) as H5.
  set (s5 := set_equity i (mark cfg price s4) s4) in *.
  destruct (Qlt_bool (capital s5) 0); [exact H5|].
  destruct (is_last && nonempty (positions s5)); [|exact H5].
  pose proof (At_close_all s5 H5) as H6.
  destruct (close_all_positions cfg price timestamp s5) as [s6 tot].
  cbn [fst outcome_state] in *. auto.
Qed.

Lemma at_loop_body (ld : Z) (s : State) :
  prices !! i = Some (timestamp, price) ->
  Pre s -> Inv (outcome_state (loop_body cfg prices ld i s)).
Proof.
  intros Hp H. unfold loop_body. rewrite Hp.
  pose proof (At_bootstrap _ (Pre_rollover s H)) as H1.
  set (s1 := daily_atr_bootstrap prices timestamp (rollover timestamp s)) in *.
  destruct (terminal ld timestamp s1).
  - pose proof (At_close_all s1 H1) as H2.
    destruct (close_all_positions cfg price timestamp s1) as [s2 tot].
    cbn [fst outcome_state] in *. auto.
  - destruct (skipped timestamp s1); [exact H1|].
    destruct (negb (is_trading_time timestamp) || is_end_of_day timestamp).
    + cbn [outcome_state]. auto.
    + now apply at_trading_tick.
Qed.

End OneTick.

(** ** The overnight fee *)

Lemma overnight_fees_app (h k : list TradeRecord) :
  overnight_fees (h ++ k) == overnight_fees h + overnight_fees k.
Proof.
  unfold overnight_fees. rewrite List.filter_app, map_app. apply Qsum_app.
Qed.

Lemma overnight_fees_other (h : list TradeRecord) (r : TradeRecord) :
  kind_eqb (r_kind r) OVERNIGHT_FEE = false ->
  overnight_fees (h ++ [r]) == overnight_fees h.
Proof.
  intros H. rewrite overnight_fees_app. unfold overnight_fees at 2. cbn.
  rewrite H. cbn. ring.
Qed.

Lemma overnight_fees_close_records (cfg : Config) (price : Q) (timestamp : Timestamp)
    (ps : list Position) :
  overnight_fees (map (close_record cfg price timestamp) ps) == 0.
Proof.
  unfold overnight_fees. induction ps as [|p ps IH]; [reflexivity|]. exact IH.
Qed.

Section Overnight.

Variable cfg : Config.
Variable prices : list (Timestamp * Q).
Variables (timestamp : Timestamp) (price : Q).

Lemma dated_same (c : Q) (u u' : State) :
  last_date u' = last_date u -> trade_history u' = trade_history u ->
  dated timestamp c u -> dated timestamp c u'.
Proof. unfold dated. now intros -> ->. Qed.

Lemma dated_log (c : Q) (u u' : State) (r : TradeRecord) :
  last_date u' = last_date u -> trade_history u' = trade_history u ++ [r] ->
  kind_eqb (r_kind r) OVERNIGHT_FEE = false ->
  dated timestamp c u -> dated timestamp c u'.
Proof.
  unfold dated. intros -> -> Hk (H1 & H2). split; [exact H1|].
  now rewrite overnight_fees_other.
Qed.

Lemma overnight_fees_charge (s : State) (n : Z) (ts : Timestamp) :
  overnight_fees
    (trade_history s ++ [mkRec ts OVERNIGHT_FEE 0 n 0 (inject_Z n * 2550)])
  == overnight_fees (trade_history s) + inject_Z n * 2550.
Proof.
  rewrite overnight_fees_app. unfold overnight_fees at 2. cbn. ring.
Qed.

Lemma apply_overnight_fee_history (s : State) :
  overnight_fees (trade_history (apply_overnight_fee timestamp s))
  == overnight_fees (trade_history s)
     + inject_Z (Z.of_nat (length (positions s))) * 2550.
Proof.
  unfold apply_overnight_fee. destruct (positions s) as [|p ps] eqn:E.
  - change (inject_Z (Z.of_nat (length (@nil Position)))) with 0. ring.
  - cbv zeta. rewrite trade_history_log.
    change (trade_history (set_capital ?c s)) with (trade_history s).
    apply overnight_fees_charge.
Qed.

Lemma rollover_dated (s : State) :
  dated timestamp (overnight_fees (trade_history s) + overnight_charge timestamp s)
    (rollover timestamp s).
Proof.
  unfold dated, rollover, overnight_charge.
  destruct (last_date s) as [d|] eqn:E.
  - destruct (Z.eqb_spec d (ts_date timestamp)) as [-> | Hne].
    + split; [exact E | ring].
    + split; [reflexivity | apply apply_overnight_fee_history].
  - split; [reflexivity | apply apply_overnight_fee_history].
Qed.

Lemma close_all_positions_dated (c : Q) (p : Q) (u : State) :
  dated timestamp c u -> dated timestamp c (close_all_positions cfg p timestamp u).1.
Proof.
  intros (H1 & H2).
  destruct (close_all_positions_effect cfg p timestamp u)
    as (_ & _ & _ & _ & (tl & Hh & Htl)).
  pose proof (close_all_positions_frame cfg p timestamp u) as (_ & Hd & _).
  cbv zeta in Hd. unfold dated. rewrite Hd, Hh. split; [exact H1|].
  rewrite !overnight_fees_app, overnight_fees_close_records, H2.
  destruct Htl as [-> | (f & _ & ->)]; unfold overnight_fees; cbn; ring.
Qed.

Lemma entry_step_dated (c : Q) (forced : bool) (u : State) :
  dated timestamp c u -> dated timestamp c (entry_step cfg timestamp price forced u).
Proof.
  unfold entry_step. intros H. case_cond; [|exact H].
  assert (H1 : dated timestamp c (check_daily_fee timestamp (Some 0) u).1).
  { destruct H as (Hd & Hc). unfold check_daily_fee. rewrite Hd, Z.eqb_refl.
    split; [exact Hd | exact Hc]. }
  destruct (check_daily_fee timestamp (Some 0) u) as [u1 over]. cbn [fst] in H1.
  case_cond; [|exact H1].
  apply (Inv_entry_loop cfg (dated timestamp c)); [| |exact H1].
  - intros t p sd v Hv. eapply dated_log; [| | |exact Hv]; reflexivity.
  - intros t p sd other v Hv. eapply dated_log; [| | |exact Hv]; reflexivity.
Qed.

(** What a tick adds to the overnight fees, and the date it leaves. *)
Lemma loop_body_overnight (ld : Z) (i : nat) (s : State) :
  prices !! i = Some (timestamp, price) ->
  dated timestamp (overnight_fees (trade_history s) + overnight_charge timestamp s)
    (outcome_state (loop_body cfg prices ld i s)).
Proof.
  intros Hp.
  apply (at_loop_body cfg prices i timestamp price (fun u => u = s)
           (dated timestamp (overnight_fees (trade_history s) + overnight_charge timestamp s)));
    [| | | | | | | |exact Hp|reflexivity].
  - intros u ->. apply rollover_dated.
  - intros u Hu. unfold daily_atr_bootstrap.
    repeat case_cond; try exact Hu; now apply (dated_same _ u).
  - intros u Hu. now apply close_all_positions_dated.
  - intros v u Hu. exact Hu.
  - intros a u Hu. unfold init_grid. destruct (grid_size u); [exact Hu|].
    pose proof (calculate_grid_state cfg price (Some a) (map snd prices) i u) as Hs.
    destruct (calculate_grid cfg price (Some a) (map snd prices) i u) as [u1 [g sz]].
    cbn [fst] in Hs. subst u1. exact Hu.
  - intros u Hu.
    destruct (rebase_fields cfg (map snd prices) i price u)
      as (_ & _ & _ & Hh & Hd & _).
    now apply (dated_same _ u).
  - intros pos u Hu. eapply dated_log; [| | |exact Hu]; reflexivity.
  - intros forced u Hu. now apply entry_step_dated.
Qed.

End Overnight.

(** X11: the overnight fee is charged once per change of date: from one
    tick to the next the fees of the OVERNIGHT_FEE records grow by 2550
    for each position open at the change when the two ticks differ in
    date, and not at all when they share it. *)
Theorem overnight_fee_once_per_date (cfg : Config) (prices : list (Timestamp * Q))
    (i : nat) (u u' : State) (t t' : Timestamp) (p p' : Q) :
  timeline cfg prices !! i = Some u ->
  timeline cfg prices !! S i = Some u' ->
  prices !! i = Some (t, p) ->
  prices !! S i = Some (t', p') ->
  last_date u = Some (ts_date t)
  /\ overnight_fees (trade_history u')
     == overnight_fees (trade_history u)
        + (if (ts_date t =? ts_date t')%Z then 0
           else inject_Z (Z.of_nat (length (positions u))) * 2550).
Proof.
  intros Hu Hu' Hp Hp'.
  assert (Hd : last_date u = Some (ts_date t)).
  { destruct i as [|i].
    - unfold timeline in Hu. destruct prices as [|[t0 p0] rest]; [discriminate|].
      cbn in Hu, Hp. injection Hu as <-. injection Hp as -> _. reflexivity.
    - destruct (lookup_lt_is_Some_2 (timeline cfg prices) i) as (v & Hv).
      { apply lookup_lt_Some in Hu. lia. }
      rewrite (timeline_step cfg prices i v u Hv Hu).
      apply (loop_body_overnight cfg prices t p _ (S i) v Hp). }
  split; [exact Hd|].
  rewrite (timeline_step cfg prices i u u' Hu Hu').
  destruct (loop_body_overnight cfg prices t' p' (last_data_date prices) (S i) u Hp')
    as (_ & H).
  rewrite H. unfold overnight_charge. rewrite Hd. reflexivity.
Qed.

Lemma overnight_fee_once_per_date_witness :
  let u := nth 2 (timeline default_config series_a)
             (initial_state default_config (at_ 0 9 0) 100 4) in
  let u' := nth 3 (timeline default_config series_a)
              (initial_state default_config (at_ 0 9 0) 100 4) in
  last_date u = Some (ts_date (at_ 0 15 0))
  /\ overnight_fees (trade_history u')
     == overnight_fees (trade_history u)
        + (if (ts_date (at_ 0 15 0) =? ts_date (at_ 1 9 0))%Z then 0
           else inject_Z (Z.of_nat (length (positions u))) * 2550).
Proof.
  apply (overnight_fee_once_per_date default_config series_a 2 _ _
           (at_ 0 15 0) (at_ 1 9 0) 99 99); vm_compute; reflexivity.
Defined.

(** ** Entries and the session clock *)

Lemma reaches_grid_hours (ld : Z) (timestamp : Timestamp) (s : State) :
  reaches_grid ld timestamp s = true ->
  (time 9 0 <= ts_time timestamp < time 14 29)%Z.
Proof.
  unfold reaches_grid. intros H.
  apply andb_true_iff in H. destruct H as (H & He).
  apply andb_true_iff in H. destruct H as (_ & Ht).
  unfold is_trading_time in Ht. unfold is_end_of_day in He. cbv zeta in Ht, He.
  apply andb_true_iff in Ht. destruct Ht as (H1 & H2).
  apply negb_true_iff, andb_false_iff in He.
  apply Z.leb_le in H1, H2. rewrite !Z.leb_gt in He. unfold time in *. lia.
Qed.

(** A tick that stops short of the grid evaluation opens nothing. *)
Lemma loop_body_off_grid (cfg : Config) (prices : list (Timestamp * Q))
    (ld : Z) (i : nat) (s : State) (timestamp : Timestamp) (price : Q) :
  prices !! i = Some (timestamp, price) ->
  reaches_grid ld timestamp s = false ->
  trades (outcome_state (loop_body cfg prices ld i s)) = trades s
  /\ (length (positions (outcome_state (loop_body cfg prices ld i s)))
      <= length (positions s))%nat.
Proof.
  intros Hp Hr. unfold loop_body. rewrite Hp.
  destruct (rollover_fields timestamp s) as (P1 & _).
  destruct (daily_atr_bootstrap_fields prices timestamp (rollover timestamp s))
    as (P2 & _ & _).
  assert (T1 : trades (daily_atr_bootstrap prices timestamp (rollover timestamp s))
               = trades s).
  { unfold daily_atr_bootstrap, rollover, apply_overnight_fee.
    repeat case_cond; reflexivity. }
  set (s1 := daily_atr_bootstrap prices timestamp (rollover timestamp s)) in *.
  assert (P : positions s1 = positions s) by congruence.
  unfold reaches_grid, terminal, skipped in *. rewrite P.
  destruct ((ts_date timestamp =? ld)%Z && (time 14 29 <=? ts_time timestamp)%Z
            && nonempty (positions s)).
  - pose proof (close_all_positions_frame cfg price timestamp s1) as (Ht & _).
    pose proof (close_all_positions_empty cfg price timestamp s1) as He.
    cbv zeta in Ht. destruct (close_all_positions cfg price timestamp s1) as [s2 tot].
    cbn [fst outcome_state] in *.
    change (trades (set_equity i (capital s2) s2)) with (trades s2).
    change (positions (set_equity i (capital s2) s2)) with (positions s2).
    rewrite He. split; [congruence | cbn; lia].
  - destruct (negb (is_trading_time timestamp) && negb (is_end_of_day timestamp)
              && nonempty (positions s)).
    { cbn [outcome_state]. rewrite P. split; [exact T1 | lia]. }
    destruct (is_trading_time timestamp), (is_end_of_day timestamp);
      cbn in Hr |- *; try discriminate; rewrite P; split; try exact T1; lia.
Qed.

(** X12: a tick adds an entry to [trades], or leaves the ledger longer
    than it found it, only at a time of day from 09:00 up to, and not
    including, 14:29. *)
Theorem entries_only_in_session (cfg : Config) (prices : list (Timestamp * Q))
    (ld : Z) (i : nat) (s : State) (timestamp : Timestamp) (price : Q) :
  let s' := outcome_state (loop_body cfg prices ld i s) in
  prices !! i = Some (timestamp, price) ->
  trades s' <> trades s \/ (length (positions s) < length (positions s'))%nat ->
  (time 9 0 <= ts_time timestamp < time 14 29)%Z.
Proof.
  cbv zeta. intros Hp Hgrow.
  destruct (reaches_grid ld timestamp s) eqn:E;
    [now apply (reaches_grid_hours ld timestamp s)|].
  destruct (loop_body_off_grid cfg prices ld i s timestamp price Hp E) as (Ht & Hl).
  destruct Hgrow as [H | H]; [contradiction | lia].
Qed.

Lemma entries_only_in_session_witness :
  (time 9 0 <= ts_time (at_ 0 9 1) < time 14 29)%Z.
Proof.
  apply (entries_only_in_session default_config series_a 1 1
           (initial_state default_config (at_ 0 9 0) 100 4) (at_ 0 9 1) 99).
  - reflexivity.
  - right. vm_compute. lia.
Defined.

(** ** The ways a run ends *)

Lemma trading_tick_return_none (cfg : Config) (values : list Q) (i : nat)
    (is_last : bool) (timestamp : Timestamp) (price atr : Q) (s s' : State) :
  trading_tick cfg values i is_last timestamp price atr s = ReturnNone s' ->
  capital s' < 0.
Proof.
  unfold trading_tick.
  destruct (breach_step cfg values i timestamp price
              (init_grid cfg values i price atr s)) as [s2 b].
  destruct (exit_step cfg values i timestamp price s2) as [s3 forced].
  set (s5 := set_equity i _ _).
  destruct (Qlt_bool (capital s5) 0) eqn:E.
  - intros [= <-]. now apply Qlt_bool_iff.
  - destruct (is_last && nonempty (positions s5)); [|discriminate].
    destruct (close_all_positions cfg price timestamp s5). discriminate.
Qed.

Lemma loop_body_return_none (cfg : Config) (prices : list (Timestamp * Q)) (ld : Z)
    (i : nat) (s s' : State) :
  loop_body cfg prices ld i s = ReturnNone s' -> capital s' < 0.
Proof.
  unfold loop_body. destruct (prices !! i) as [[timestamp price]|]; [|discriminate].
  set (s1 := daily_atr_bootstrap prices timestamp (rollover timestamp s)).
  destruct (terminal ld timestamp s1).
  { destruct (close_all_positions cfg price timestamp s1). discriminate. }
  destruct (skipped timestamp s1); [discriminate|].
  destruct (negb (is_trading_time timestamp) || is_end_of_day timestamp);
    [discriminate|].
  apply trading_tick_return_none.
Qed.

Lemma for_loop_return_none (body : nat -> State -> Outcome) (P : State -> Prop)
    (idxs : list nat) :
  (forall i u u', body i u = ReturnNone u' -> P u') ->
  forall s s', for_loop body idxs s = ReturnNone s' -> P s'.
Proof.
  intros Hb. induction idxs as [|i rest IH]; intros s s'; [discriminate|].
  cbn [for_loop]. destruct (body i s) as [u|u] eqn:E.
  - apply IH.
  - intros [= <-]. exact (Hb i s u E).
Qed.

Lemma metrics_not_none (cfg : Config) (index : list Timestamp) (s : State)
    (t : Timestamp) (c : Q) (index' : list Timestamp) (values : list (option Q)) :
  index = t :: index' -> equity_series s = Some c :: values ->
  calculate_performance_metrics cfg index s <> ReturnedNone.
Proof.
  intros -> Hs. unfold calculate_performance_metrics. rewrite Hs. cbv zeta.
  cbn [series_dropna].
  destruct (last ((t, c) :: series_dropna index' values)) as [[lt le]|] eqn:El.
  - destruct (timedelta_days t lt =? 0)%Z; discriminate.
  - apply last_None in El. discriminate.
Qed.

(** X13: on a non-empty series [backtest] returns [None] exactly when the
    loop ends early, and it ends early only with a negative capital: the
    analytics never find the equity series of a finished loop empty. *)
Theorem backtest_none_is_insolvency (cfg : Config) (t0 : Timestamp) (p0 : Q)
    (rest : list (Timestamp * Q)) :
  let prices := (t0, p0) :: rest in
  (backtest cfg prices = ReturnedNone <-> exists s, run cfg prices = ReturnNone s)
  /\ (forall s, run cfg prices = ReturnNone s -> capital s < 0).
Proof.
  cbv zeta. split.
  - unfold backtest. pose proof (run_first_slot cfg t0 p0 rest) as H0.
    destruct (run cfg ((t0, p0) :: rest)) as [s|s] eqn:E.
    + split; [|intros (u & Hu); discriminate]. intros H. exfalso.
      cbn [outcome_state] in H0.
      destruct (equity_series s) as [|[c|] values] eqn:Es; try discriminate.
      exact (metrics_not_none cfg _ s t0 c (map fst rest) values eq_refl Es H).
    + split; [intros _; now exists s | reflexivity].
  - intros s. unfold run.
    apply (for_loop_return_none _ (fun u => capital u < 0)).
    intros i u u'. apply loop_body_return_none.
Qed.

(** ** The last tick *)

(** A completed run of more than one tick ends with the tick of the last
    index, whose slot nothing has marked before. *)
Lemma run_last_tick (cfg : Config) (t0 : Timestamp) (p0 : Q)
    (front : list (Timestamp * Q)) (x : Timestamp * Q) (s_end : State) :
  let prices := (t0, p0) :: front ++ [x] in
  run cfg prices = Continue s_end ->
  exists s_prev,
    loop_body cfg prices (last_data_date prices) (S (length front)) s_prev
    = Continue s_end
    /\ equity_series s_prev !! S (length front) = Some None.
Proof.
  cbv zeta. unfold run.
  set (prices := (t0, p0) :: front ++ [x]). set (ld := last_data_date prices).
  set (s0 := initial_state cfg t0 p0 (length prices)).
  assert (Hk : (length prices - 1 = S (length front))%nat)
    by (subst prices; cbn [length]; rewrite length_app; cbn; lia).
  rewrite Hk, seq_S, for_loop_app.
  destruct (slots_from cfg prices ld (length front) 1 s0) as (_ & _ & B & _).
  cbv zeta in B.
  pose proof (trace_from_length (loop_body cfg prices ld) (seq 1 (length front)) s0)
    as Hlen. rewrite length_seq in Hlen.
  specialize (B (1 + length front)%nat ltac:(lia)).
  destruct (for_loop (loop_body cfg prices ld) (seq 1 (length front)) s0)
    as [s_prev|s_prev]; [|discriminate].
  cbn [outcome_state for_loop] in *.
  change (1 + length front)%nat with (S (length front)) in *.
  intros H. exists s_prev. split.
  - destruct (loop_body cfg prices ld (S (length front)) s_prev); congruence.
  - rewrite B. subst s0. cbn [equity_series initial_state].
    rewrite list_lookup_insert_ne by lia. apply lookup_replicate_2. lia.
Qed.

Lemma last_data_date_snoc (t0 : Timestamp) (p0 : Q) (front : list (Timestamp * Q))
    (t : Timestamp) (p : Q) :
  last_data_date ((t0, p0) :: front ++ [(t, p)]) = ts_date t.
Proof.
  unfold last_data_date. change ((t0, p0) :: front ++ [(t, p)])
    with (((t0, p0) :: front) ++ [(t, p)]). now rewrite last_snoc.
Qed.

(** The last tick of the series, when the off-hours gate lets it
    through, leaves the ledger empty. *)
Lemma last_tick_flat (cfg : Config) (prices : list (Timestamp * Q)) (i : nat)
    (timestamp : Timestamp) (price : Q) (s s' : State) :
  prices !! i = Some (timestamp, price) ->
  i = (length prices - 1)%nat ->
  loop_body cfg prices (ts_date timestamp) i s = Continue s' ->
  gated (ts_date timestamp) timestamp s = false ->
  positions s' = [].
Proof.
  intros Hp Hi. unfold loop_body, gated. rewrite Hp.
  destruct (rollover_fields timestamp s) as (P1 & _).
  destruct (daily_atr_bootstrap_fields prices timestamp (rollover timestamp s))
    as (P2 & _ & _).
  set (s1 := daily_atr_bootstrap prices timestamp (rollover timestamp s)) in *.
  assert (P : positions s1 = positions s) by congruence.
  unfold terminal, skipped. rewrite P, Z.eqb_refl. cbn [andb].
  destruct (time 14 29 <=? ts_time timestamp)%Z eqn:Et; cbn [andb].
  - destruct (positions s) as [|q qs] eqn:Eq; cbn [nonempty negb andb].
    + rewrite andb_false_r.
      assert (He : is_trading_time timestamp = true ->
                   is_end_of_day timestamp = true).
      { unfold is_trading_time, is_end_of_day. cbv zeta.
        rewrite !andb_true_iff, !Z.leb_le. apply Z.leb_le in Et.
        unfold time in *. lia. }
      destruct (is_trading_time timestamp) eqn:E1.
      * rewrite (He eq_refl). cbn. intros [= <-] _. cbn. congruence.
      * cbn. intros [= <-] _. cbn. congruence.
    + pose proof (close_all_positions_empty cfg price timestamp s1) as He.
      destruct (close_all_positions cfg price timestamp s1) as [s2 tot].
      intros [= <-] _. exact He.
  - destruct (negb (is_trading_time timestamp) && negb (is_end_of_day timestamp)
              && nonempty (positions s)) eqn:Es; [intros _; discriminate|].
    assert (He : is_end_of_day timestamp = false).
    { unfold is_end_of_day. cbv zeta. apply Z.leb_gt in Et.
      apply andb_false_iff. left. now apply Z.leb_gt. }
    rewrite He in *. rewrite orb_false_r.
    destruct (is_trading_time timestamp) eqn:E1; cbn [negb andb] in *.
    + intros H _. rewrite Hi, Nat.eqb_refl in H. unfold trading_tick in H.
      destruct (breach_step cfg (map snd prices) (length prices - 1) timestamp price
                  (init_grid cfg (map snd prices) (length prices - 1) price
                     (current_atr_of timestamp s1) s1)) as [s2 b].
      destruct (exit_step cfg (map snd prices) (length prices - 1) timestamp price s2)
        as [s3 forced].
      set (s5 := set_equity _ _ _) in H.
      destruct (Qlt_bool (capital s5) 0); [discriminate|]. cbn [andb] in H.
      destruct (positions s5) as [|q qs] eqn:E5; cbn [nonempty] in H.
      * injection H as <-. exact E5.
      * pose proof (close_all_positions_empty cfg price timestamp s5) as He5.
        destruct (close_all_positions cfg price timestamp s5) as [s6 tot].
        injection H as <-. exact He5.
    + destruct (positions s) as [|q qs] eqn:Eq; [|discriminate].
      intros [= <-] _. cbn. congruence.
Qed.

(** X14: a run that completes and leaves a mark in the last slot of the
    equity series ends with an empty ledger: whatever is open at the last
    tick is liquidated there. *)
Theorem completed_run_ends_flat (cfg : Config) (t0 : Timestamp) (p0 : Q)
    (rest : list (Timestamp * Q)) (s : State) :
  let prices := (t0, p0) :: rest in
  run cfg prices = Continue s ->
  equity_series s !! (length prices - 1)%nat <> Some None ->
  positions s = [].
Proof.
  cbv zeta. destruct (last rest) as [[t p]|] eqn:El.
  - apply last_Some in El. destruct El as (front & ->).
    intros Hrun Hslot.
    destruct (run_last_tick cfg t0 p0 front (t, p) s Hrun) as (s_prev & Hb & Hn).
    cbv zeta in Hb. rewrite last_data_date_snoc in Hb.
    set (prices := (t0, p0) :: front ++ [(t, p)]) in *.
    assert (Hl : (length prices - 1 = S (length front))%nat)
      by (subst prices; cbn [length]; rewrite length_app; cbn; lia).
    assert (Hp : prices !! S (length front) = Some (t, p)).
    { change (prices !! S (length front))
        with ((front ++ [(t, p)]) !! length front).
      now apply list_lookup_middle. }
    apply (last_tick_flat cfg prices (S (length front)) t p s_prev s Hp);
      [lia | exact Hb |].
    destruct (gated (ts_date t) t s_prev) eqn:Eg; [|reflexivity].
    exfalso. apply Hslot. rewrite Hl.
    pose proof (loop_body_equity cfg prices (ts_date t) (S (length front)) s_prev)
      as He. cbv zeta in He. rewrite Hp, Eg, Hb in He. cbn [outcome_state] in He.
    now rewrite He.
  - apply last_None in El. subst rest. unfold run. cbn. intros [= <-] _.
    reflexivity.
Qed.

Lemma completed_run_ends_flat_witness :
  positions (outcome_state (run default_config series_a)) = [].
Proof.
  apply (completed_run_ends_flat default_config (at_ 0 9 0) 100
           [(at_ 0 9 1, 99); (at_ 0 15 0, 99); (at_ 1 9 0, 99)]).
  - vm_compute. reflexivity.
  - vm_compute. discriminate.
Defined.

(** ** The reported return *)

(** X15: in the metrics of a run the equity curve starts at the first
    tick with the initial capital, the holding-period return is the
    reported final capital over the initial capital less one, in percent,
    and the curve spans at least one whole day. *)
Theorem hpr_from_initial_capital (cfg : Config) (t0 : Timestamp) (p0 : Q)
    (rest : list (Timestamp * Q)) (m : Metrics) :
  backtest cfg ((t0, p0) :: rest) = Returned m ->
  hpr m = (final_capital m / cfg_capital cfg - 1) * 100
  /\ (exists curve, m_equity_series m = (t0, cfg_capital cfg) :: curve)
  /\ (exists last_t,
        last (m_equity_series m) = Some (last_t, final_capital m)
        /\ timedelta_days t0 last_t <> 0%Z).
Proof.
  intros Hm. destruct (backtest_returned _ _ _ Hm) as (s & Hrun & Hcalc).
  pose proof (run_first_slot cfg t0 p0 rest) as H0. rewrite Hrun in H0.
  cbn [outcome_state] in H0.
  destruct (equity_series s) as [|[c|] values] eqn:Es; try discriminate.
  cbn in H0. injection H0 as ->.
  unfold calculate_performance_metrics in Hcalc. rewrite Es in Hcalc.
  cbv zeta in Hcalc. cbn [map fst series_dropna] in Hcalc.
  destruct (last ((t0, cfg_capital cfg) :: series_dropna (map fst rest) values))
    as [[lt le]|] eqn:El; [|discriminate].
  destruct (Z.eqb_spec (timedelta_days t0 lt) 0) as [|Hd]; [discriminate|].
  injection Hcalc as <-. cbn [hpr final_capital m_equity_series].
  refine (conj eq_refl (conj _ _)).
  - eexists. reflexivity.
  - exists lt. split; [exact El | exact Hd].
Qed.

Lemma hpr_from_initial_capital_witness :
  exists m,
    backtest default_config series_a = Returned m
    /\ hpr m = (final_capital m / cfg_capital default_config - 1) * 100
    /\ (exists curve, m_equity_series m = (at_ 0 9 0, cfg_capital default_config) :: curve)
    /\ (exists last_t,
          last (m_equity_series m) = Some (last_t, final_capital m)
          /\ timedelta_days (at_ 0 9 0) last_t <> 0%Z).
Proof.
  eexists. split; [vm_compute; reflexivity|].
  apply (hpr_from_initial_capital default_config (at_ 0 9 0) 100
           [(at_ 0 9 1, 99); (at_ 0 15 0, 99); (at_ 1 9 0, 99)]).
  vm_compute. reflexivity.
Defined.

(** ** The drawdown *)

Lemma drawdown_bounds (x m : Q) :
  0 < x -> x <= m -> - 100 < (x - m) / m * 100 /\ (x - m) / m * 100 <= 0.
Proof.
  intros Hx Hm. assert (H0 : 0 < m) by lra.
  assert (E : (x - m) / m * 100 == x / m * 100 - 100) by (field; lra).
  rewrite E.
  assert (H1 : 0 < x / m) by (apply Qlt_shift_div_l; lra).
  assert (H2 : x / m <= 1) by (apply Qle_shift_div_r; lra).
  split; lra.
Qed.

Lemma drawdowns_from_bounds (r : list Q) :
  forall m,
    0 < m -> Forall (fun e => 0 < e) r ->
    Forall (fun d => - 100 < d /\ d <= 0)
      (zip_with (fun e rolling_max => (e - rolling_max) / rolling_max * 100)
         r (cummax_from m r)).
Proof.
  induction r as [|x r IH]; intros m Hm Hr; [constructor|].
  inversion Hr as [|? ? Hx Hr']; subst. cbn [cummax_from zip_with].
  pose proof (pymax_ge_l m x). pose proof (pymax_ge_r m x).
  constructor.
  - now apply drawdown_bounds.
  - apply IH; [lra | exact Hr'].
Qed.

Lemma fold_left_pymin_choice (P : Q -> Prop) (r : list Q) :
  forall x, P x -> Forall P r -> P (fold_left pymin r x).
Proof.
  induction r as [|y r IH]; intros x Hx Hr; [exact Hx|].
  inversion Hr; subst. cbn [fold_left]. apply IH; [|assumption].
  unfold pymin. now destruct (Qlt_bool y x).
Qed.

(** X16: on an equity curve of positive values every drawdown, in
    percent of the running maximum, lies above -100 and is at most 0, and
    the first one is 0; the maximum drawdown lies in the same range and
    is undefined only for an empty curve. *)
Theorem max_drawdown_bounds (equity : list Q) :
  Forall (fun e => 0 < e) equity ->
  Forall (fun d => - 100 < d /\ d <= 0) (drawdowns equity)
  /\ match max_drawdown equity with
     | Some d => - 100 < d /\ d <= 0 /\ equity <> []
     | None => equity = []
     end
  /\ match drawdowns equity with d :: _ => d == 0 | [] => equity = [] end.
Proof.
  intros He.
  assert (Hall : Forall (fun d => - 100 < d /\ d <= 0) (drawdowns equity)).
  { destruct equity as [|x r]; [constructor|].
    inversion He as [|? ? Hx Hr]; subst. unfold drawdowns. cbn [cummax zip_with].
    constructor.
    - apply drawdown_bounds; [exact Hx | apply Qle_refl].
    - now apply drawdowns_from_bounds. }
  refine (conj Hall (conj _ _)).
  - unfold max_drawdown, series_min.
    destruct equity as [|x r]; [reflexivity|].
    unfold drawdowns in *. cbn [cummax zip_with] in *.
    inversion Hall as [|? ? Hd Hds]; subst.
    pose proof (fold_left_pymin_choice (fun d => - 100 < d /\ d <= 0) _ _ Hd Hds)
      as (H1 & H2).
    refine (conj H1 (conj H2 _)). discriminate.
  - destruct equity as [|x r]; [reflexivity|].
    inversion He; subst. unfold drawdowns. cbn [cummax zip_with]. field. lra.
Qed.

Lemma max_drawdown_bounds_witness :
  Forall (fun d => - 100 < d /\ d <= 0) (drawdowns [100; 90; 120; 60])
  /\ match max_drawdown [100; 90; 120; 60] with
     | Some d => - 100 < d /\ d <= 0 /\ [100; 90; 120; 60] <> []
     | None => [100; 90; 120; 60] = []
     end
  /\ match drawdowns [100; 90; 120; 60] with
     | d :: _ => d == 0
     | [] => [100; 90; 120; 60] = []
     end.
Proof.
  apply (max_drawdown_bounds [100; 90; 120; 60]).
  repeat constructor.
Defined.

(** ** The daily fee check *)

(** X17: two calls of [check_daily_fee] in a row: the second one adds its
    fee to the total of the first when both fall on one date and starts
    from zero otherwise, it leaves its own date behind, it reports
    whether the total exceeds [daily_fee_limit], and on one date with a
    fee that is not negative a breach reported by the first call is
    reported again. *)
Theorem check_daily_fee_twice (t1 t2 : Timestamp) (f1 f2 : option Q) (s : State) :
  let r1 := check_daily_fee t1 f1 s in
  let r2 := check_daily_fee t2 f2 r1.1 in
  let fee2 := match f2 with Some f => f | None => 0 end in
  last_date r2.1 = Some (ts_date t2)
  /\ daily_fee r2.1
     == (if (ts_date t1 =? ts_date t2)%Z then daily_fee r1.1 else 0) + fee2
  /\ r2.2 = Qlt_bool daily_fee_limit (daily_fee r2.1)
  /\ (ts_date t1 = ts_date t2 -> 0 <= fee2 -> r1.2 = true -> r2.2 = true).
Proof.
  cbv zeta.
  assert (H1 : last_date (check_daily_fee t1 f1 s).1 = Some (ts_date t1)).
  { unfold check_daily_fee. destruct (last_date s) as [d|] eqn:E; [|reflexivity].
    destruct (Z.eqb_spec d (ts_date t1)) as [-> | Hne]; [exact E | reflexivity]. }
  assert (F1 : (check_daily_fee t1 f1 s).2
               = Qlt_bool daily_fee_limit (daily_fee (check_daily_fee t1 f1 s).1))
    by reflexivity.
  destruct (check_daily_fee t1 f1 s) as [s1 b1]. cbn [fst snd] in *.
  unfold check_daily_fee. rewrite H1.
  destruct (Z.eqb_spec (ts_date t1) (ts_date t2)) as [E | Hne].
  - cbn [fst snd daily_fee set_daily_fee last_date].
    refine (conj _ (conj _ (conj eq_refl _))).
    + now rewrite <- E.
    + reflexivity.
    + intros _ Hf Hb. subst b1. apply Qlt_bool_iff in Hb. apply Qlt_bool_iff. lra.
  - cbn [fst snd daily_fee set_daily_fee last_date set_last_date].
    refine (conj eq_refl (conj _ (conj eq_refl _))); [reflexivity|].
    intros E. contradiction.
Qed.

(** ** The date range of the data *)

(** X18: what [prepare_data] hands on is never an empty series: it is
    the points of the loaded series that lie in the date range, each of
    them and in their order, and preparing it again changes nothing. *)
Theorem prepare_data_range (start_date end_date : Timestamp)
    (loaded prices : list (Timestamp * Q)) :
  prepare_data start_date end_date (Some loaded) = Some prices ->
  prices <> []
  /\ prices = List.filter (in_date_range start_date end_date) loaded
  /\ Forall (fun tp => ts_leb start_date (fst tp) = true
                       /\ ts_leb (fst tp) end_date = true) prices
  /\ sublist prices loaded
  /\ prepare_data start_date end_date (Some prices) = Some prices.
Proof.
  unfold prepare_data. cbv zeta.
  destruct (List.filter (in_date_range start_date end_date) loaded) as [|tp l] eqn:E;
    [discriminate|].
  intros [= <-]. rewrite <- E.
  refine (conj _ (conj eq_refl (conj _ (conj _ _)))).
  - rewrite E. discriminate.
  - apply Forall_forall. intros x Hx. apply list_elem_of_In, List.filter_In in Hx.
    destruct Hx as (_ & Hx). unfold in_date_range in Hx.
    now apply andb_true_iff in Hx.
  - clear E. induction loaded as [|y r IH]; cbn; [constructor|].
    destruct (in_date_range start_date end_date y); now constructor.
  - assert (Hi : List.filter (in_date_range start_date end_date)
                   (List.filter (in_date_range start_date end_date) loaded)
                 = List.filter (in_date_range start_date end_date) loaded).
    { clear E. induction loaded as [|y r IH]; [reflexivity|]. cbn.
      destruct (in_date_range start_date end_date y) eqn:Ey; [|exact IH].
      cbn. now rewrite Ey, IH. }
    rewrite Hi, E. reflexivity.
Qed.

Lemma prepare_data_range_witness :
  let prices := [(at_ 0 9 1, 99); (at_ 0 15 0, 99)] in
  prices <> []
  /\ prices = List.filter (in_date_range (at_ 0 9 1) (at_ 0 23 0)) series_a
  /\ Forall (fun tp => ts_leb (at_ 0 9 1) (fst tp) = true
                       /\ ts_leb (fst tp) (at_ 0 23 0) = true) prices
  /\ sublist prices series_a
  /\ prepare_data (at_ 0 9 1) (at_ 0 23 0) (Some prices) = Some prices.
Proof.
  apply (prepare_data_range (at_ 0 9 1) (at_ 0 23 0) series_a).
  vm_compute. reflexivity.
Defined.

(** ** The two logs of entries *)

Lemma entries_of_app (h k : list TradeRecord) :
  entries_of (h ++ k) = entries_of h ++ entries_of k.
Proof. unfold entries_of. apply flat_map_app. Qed.

Lemma entries_of_close_records (cfg : Config) (price : Q) (timestamp : Timestamp)
    (ps : list Position) :
  entries_of (map (close_record cfg price timestamp) ps) = [].
Proof. induction ps as [|p ps IH]; [reflexivity | exact IH]. Qed.

Lemma booked_same (s s' : State) :
  trades s' = trades s -> trade_history s' = trade_history s -> booked s -> booked s'.
Proof. unfold booked. now intros -> ->. Qed.

Lemma booked_log (r : TradeRecord) (s s' : State) :
  trades s' = trades s -> trade_history s' = trade_history s ++ [r] ->
  entries_of [r] = [] -> booked s -> booked s'.
Proof.
  unfold booked. intros -> -> Hr (H1 & H2).
  rewrite entries_of_app, Hr, app_nil_r. now split.
Qed.

Lemma total_volume_units (ts : list Trade) :
  Forall (fun trade => t_size trade = 1%Z) ts ->
  total_volume ts = Z.of_nat (length ts).
Proof.
  unfold total_volume. induction 1 as [|t r Ht Hr IH]; [reflexivity|].
  cbn [map fold_right length]. rewrite IH, Ht. lia.
Qed.

Section Booked.

Variable cfg : Config.

Lemma close_all_positions_booked (price : Q) (timestamp : Timestamp) (s : State) :
  booked s -> booked (close_all_positions cfg price timestamp s).1.
Proof.
  intros (H1 & H2).
  destruct (close_all_positions_effect cfg price timestamp s)
    as (_ & _ & _ & _ & (tl & H & Htl)).
  pose proof (close_all_positions_frame cfg price timestamp s) as (Ht & _).
  cbv zeta in Ht. unfold booked. rewrite Ht, H.
  rewrite !entries_of_app, entries_of_close_records.
  split; [|exact H2].
  destruct Htl as [-> | (f & _ & ->)]; cbn; now rewrite app_nil_r.
Qed.

Lemma entry_step_booked (timestamp : Timestamp) (price : Q) (forced : bool)
    (s : State) :
  well_formed s -> booked s -> booked (entry_step cfg timestamp price forced s).
Proof.
  intros Hw H. unfold entry_step. case_cond; [|exact H].
  apply andb_true_iff in Heqb. destruct Heqb as (_ & Hsz). apply Z.ltb_lt in Hsz.
  assert (Hone : size s = 1%Z).
  { destruct Hw as (_ & _ & _ & _ & Hg). destruct (grid_size s); lia. }
  assert (H1 : size (check_daily_fee timestamp (Some 0) s).1 = 1%Z
               /\ booked (check_daily_fee timestamp (Some 0) s).1).
  { unfold check_daily_fee. repeat case_cond; cbn [fst]; split; auto. }
  destruct (check_daily_fee timestamp (Some 0) s) as [s1 over]. cbn [fst] in H1.
  case_cond; [|exact (proj2 H1)].
  apply (Inv_entry_loop cfg (fun u => size u = 1%Z /\ booked u)); [| |exact H1].
  - intros t p sd u (Hu & (Hb & Hf)). split; [exact Hu|]. split.
    + change (trades (open_position t p sd u))
        with (trades u ++ [mkTrade sd p p (size u)]).
      change (trade_history (open_position t p sd u))
        with (trade_history u ++ [mkRec t (OPEN sd) p (size u) 0 0]).
      rewrite entries_of_app, <- Hb. reflexivity.
    + change (trades (open_position t p sd u))
        with (trades u ++ [mkTrade sd p p (size u)]).
      apply Forall_app. split; [exact Hf|]. constructor; [exact Hu | constructor].
  - intros t p sd other u (Hu & Hb). split; [exact Hu|].
    eapply (booked_log _ u); [reflexivity | reflexivity | reflexivity | exact Hb].
Qed.

Lemma loop_body_booked (prices : list (Timestamp * Q)) (ld : Z) (i : nat)
    (s : State) :
  well_formed s /\ booked s ->
  (fun u => well_formed u /\ booked u) (outcome_state (loop_body cfg prices ld i s)).
Proof.
  apply (stage_loop_body cfg prices (fun u => well_formed u /\ booked u)).
  - intros t u (Hw & Hb). split.
    + destruct (rollover_shape t u) as (H1 & H2 & H3). now apply (well_formed_same u).
    + unfold rollover, apply_overnight_fee. repeat case_cond; try exact Hb.
      eapply (booked_log _ u); [reflexivity | reflexivity | reflexivity | exact Hb].
  - intros t u (Hw & Hb). split.
    + destruct (daily_atr_bootstrap_shape prices t u) as (H1 & H2 & H3).
      now apply (well_formed_same u).
    + unfold daily_atr_bootstrap. repeat case_cond; exact Hb.
  - intros p t u (Hw & Hb). split;
      [now apply close_all_positions_well_formed | now apply close_all_positions_booked].
  - intros j v u Hu. exact Hu.
  - intros v j p a u (Hw & Hb). split; [now apply init_grid_well_formed|].
    unfold init_grid. destruct (grid_size u); [exact Hb|].
    rewrite (surjective_pairing (calculate_grid cfg p (Some a) v j u)).
    rewrite (surjective_pairing (calculate_grid cfg p (Some a) v j u).2).
    rewrite calculate_grid_state. exact Hb.
  - intros v j p u (Hw & Hb). split; [now apply rebase_well_formed|].
    unfold rebase.
    match goal with |- context [calculate_grid cfg ?p ?a ?v ?j ?t] =>
      rewrite (surjective_pairing (calculate_grid cfg p a v j t));
      rewrite (surjective_pairing (calculate_grid cfg p a v j t).2);
      rewrite calculate_grid_state end.
    exact Hb.
  - intros p t pos u (Hw & Hb). split; [now apply take_profit_one_well_formed|].
    eapply (booked_log _ u); [reflexivity | reflexivity | reflexivity | exact Hb].
  - intros t p forced u (Hw & Hb). split;
      [now apply entry_step_well_formed | now apply entry_step_booked].
Qed.

End Booked.

(** X19: after every tick of a run [trades] holds exactly the entries
    that [trade_history] records as BUY or SELL, in the same order and
    with the same price and size, and each of them is one contract: the
    traded volume is the number of entries. *)
Theorem trades_are_logged_entries (cfg : Config) (prices : list (Timestamp * Q)) :
  Forall (fun s =>
            trades s = entries_of (trade_history s)
            /\ total_volume (trades s) = Z.of_nat (length (trades s)))
    (trace cfg prices).
Proof.
  eapply Forall_impl.
  - apply (Inv_trace cfg prices (fun u => well_formed u /\ booked u)).
    + intros t0 p0 n. split; [apply initial_state_well_formed|].
      split; [reflexivity | constructor].
    + intros ld i s H. now apply loop_body_booked.
  - intros s (_ & (H1 & H2)). split; [exact H1 | now apply total_volume_units].
Qed.

(** ** The records of a tick *)

Section Written.

Variable cfg : Config.
Variable prices : list (Timestamp * Q).
Variables (timestamp : Timestamp) (price : Q).
Variable s : State.

Lemma written_refl : written timestamp price s s.
Proof. exists []. split; [now rewrite app_nil_r | constructor]. Qed.

Lemma written_same (u v : State) :
  trade_history v = trade_history u ->
  written timestamp price s u -> written timestamp price s v.
Proof. unfold written. now intros ->. Qed.

Lemma written_app (k : list TradeRecord) (u v : State) :
  written timestamp price s u ->
  trade_history v = trade_history u ++ k ->
  Forall (stamped timestamp price) k ->
  written timestamp price s v.
Proof.
  intros (k0 & H & Hk) Hv Hr. exists (k0 ++ k). split.
  - now rewrite Hv, H, app_assoc.
  - now apply Forall_app.
Qed.

Lemma written_log (r : TradeRecord) (u v : State) :
  written timestamp price s u ->
  trade_history v = trade_history u ++ [r] ->
  stamped timestamp price r ->
  written timestamp price s v.
Proof.
  intros Hu Hv Hr. apply (written_app [r] u v Hu Hv). now constructor.
Qed.

Lemma close_all_positions_written (u : State) :
  written timestamp price s u ->
  written timestamp price s (close_all_positions cfg price timestamp u).1.
Proof.
  intros Hu.
  destruct (close_all_positions_effect cfg price timestamp u)
    as (_ & _ & _ & _ & (tl & H & Htl)).
  apply (written_app _ u _ Hu H). apply Forall_app. split.
  - apply Forall_forall. intros r Hr. apply list_elem_of_In, in_map_iff in Hr.
    destruct Hr as (pos & <- & _). split; reflexivity.
  - destruct Htl as [-> | (f & _ & ->)]; [constructor|].
    constructor; [split; reflexivity | constructor].
Qed.

Lemma entry_iter_written (g : Q) (n : Z) (acc : Z * Z * State) :
  written timestamp price s acc.2 ->
  written timestamp price s (entry_iter cfg timestamp price g n acc).2.
Proof.
  destruct acc as [[nb ns] u]. cbn [snd]. intros H.
  unfold entry_iter. repeat case_cond; cbn [snd];
    repeat first
      [ assumption
      | eapply written_log; [ | reflexivity | split; reflexivity ] ].
Qed.

Lemma entry_loop_written (g : Q) (ns : list Z) :
  forall acc,
    written timestamp price s acc.2 ->
    written timestamp price s (entry_loop cfg timestamp price g ns acc).2.
Proof.
  induction ns as [|n rest IH]; intros acc H; [exact H|].
  cbn [entry_loop]. apply IH. now apply entry_iter_written.
Qed.

Lemma entry_step_written (forced : bool) (u : State) :
  written timestamp price s u ->
  written timestamp price s (entry_step cfg timestamp price forced u).
Proof.
  intros H. unfold entry_step. case_cond; [|exact H].
  assert (H1 : written timestamp price s (check_daily_fee timestamp (Some 0) u).1).
  { unfold check_daily_fee. repeat case_cond; exact H. }
  destruct (check_daily_fee timestamp (Some 0) u) as [u1 over]. cbn [fst] in H1.
  case_cond; [|exact H1]. now apply entry_loop_written.
Qed.

Lemma loop_body_written (ld : Z) (i : nat) :
  prices !! i = Some (timestamp, price) ->
  written timestamp price s (outcome_state (loop_body cfg prices ld i s)).
Proof.
  intros Hp.
  apply (at_loop_body cfg prices i timestamp price (fun u => u = s)
           (written timestamp price s));
    [| | | | | | | |exact Hp|reflexivity].
  - intros u ->. unfold rollover, apply_overnight_fee.
    repeat case_cond; try apply written_refl.
    eapply written_log; [apply written_refl | reflexivity | split; reflexivity].
  - intros u Hu. unfold daily_atr_bootstrap. repeat case_cond; exact Hu.
  - intros u Hu. now apply close_all_positions_written.
  - intros v u Hu. exact Hu.
  - intros a u Hu. unfold init_grid. destruct (grid_size u); [exact Hu|].
    pose proof (calculate_grid_state cfg price (Some a) (map snd prices) i u) as Hs.
    destruct (calculate_grid cfg price (Some a) (map snd prices) i u) as [u1 [g sz]].
    cbn [fst] in Hs. subst u1. exact Hu.
  - intros u Hu.
    destruct (rebase_fields cfg (map snd prices) i price u)
      as (_ & _ & _ & Hh & _).
    now apply (written_same u).
  - intros pos u Hu. eapply written_log; [exact Hu | reflexivity | split; reflexivity].
  - intros forced u Hu. now apply entry_step_written.
Qed.

End Written.

(** X20: the records that a tick adds to [trade_history] all carry the
    timestamp of that tick, and its price, but for the OVERNIGHT_FEE
    record, whose price is 0; the records of earlier ticks stay as they
    are. *)
Theorem records_carry_their_tick (cfg : Config) (prices : list (Timestamp * Q))
    (i : nat) (u u' : State) (t : Timestamp) (p : Q) :
  timeline cfg prices !! i = Some u ->
  timeline cfg prices !! S i = Some u' ->
  prices !! S i = Some (t, p) ->
  trade_history u'
  = trade_history u ++ appended (trade_history u) (trade_history u')
  /\ Forall (fun r =>
               r_time r = t
               /\ match r_kind r with
                  | OVERNIGHT_FEE => r_price r = 0
                  | _ => r_price r = p
                  end)
       (appended (trade_history u) (trade_history u')).
Proof.
  intros Hu Hu' Hp.
  rewrite (timeline_step cfg prices i u u' Hu Hu').
  destruct (loop_body_written cfg prices t p u (last_data_date prices) (S i) Hp)
    as (k & H & Hk).
  unfold appended. rewrite H, drop_app_length. split; [reflexivity | exact Hk].
Qed.

Lemma records_carry_their_tick_witness :
  let u := nth 0 (timeline default_config series_a)
             (initial_state default_config (at_ 0 9 0) 100 4) in
  let u' := nth 1 (timeline default_config series_a)
              (initial_state default_config (at_ 0 9 0) 100 4) in
  trade_history u'
  = trade_history u ++ appended (trade_history u) (trade_history u')
  /\ Forall (fun r =>
               r_time r = at_ 0 9 1
               /\ match r_kind r with
                  | OVERNIGHT_FEE => r_price r = 0
                  | _ => r_price r = 99
                  end)
       (appended (trade_history u) (trade_history u')).
Proof.
  apply (records_carry_their_tick default_config series_a 0 _ _ (at_ 0 9 1) 99);
    vm_compute; reflexivity.
Defined.

(** ** The value of an equity mark *)

Lemma trading_tick_mark (cfg : Config) (values : list Q) (i : nat) (is_last : bool)
    (timestamp : Timestamp) (price atr : Q) (s : State) :
  (i < length (equity_series s))%nat ->
  let s' := outcome_state (trading_tick cfg values i is_last timestamp price atr s) in
  exists v, equity_series s' !! i = Some (Some v) /\ v == mark cfg price s'.
Proof.
  intros Hi. cbv zeta.
  destruct (trading_tick_equity cfg values i is_last timestamp price atr s)
    as (v & Hv & _). cbv zeta in Hv.
  assert (Hlen : length (equity_series
                           (outcome_state
                              (trading_tick cfg values i is_last timestamp price atr s)))
                 = length (equity_series s))
    by (rewrite Hv; apply length_insert).
  clear Hv. revert Hlen. unfold trading_tick.
  destruct (breach_step cfg values i timestamp price
              (init_grid cfg values i price atr s)) as [s2 b].
  destruct (exit_step cfg values i timestamp price s2) as [s3 forced].
  set (s4 := entry_step cfg timestamp price forced s3).
  set (s5 := set_equity i (mark cfg price s4) s4).
  assert (H5 : length (equity_series s5) = length (equity_series s) ->
               exists v, equity_series s5 !! i = Some (Some v)
                         /\ v == mark cfg price s5).
  { intros L. exists (mark cfg price s4). split; [|reflexivity].
    subst s5. unfold set_equity in *. cbn [equity_series set_equity_series] in *.
    rewrite length_insert in L. apply list_lookup_insert_eq. lia. }
  destruct (Qlt_bool (capital s5) 0); [exact H5|].
  destruct (is_last && nonempty (positions s5)); [|exact H5].
  pose proof (close_all_positions_empty cfg price timestamp s5) as He.
  destruct (close_all_positions cfg price timestamp s5) as [s6 tot].
  cbn [fst outcome_state] in *. intros L. exists (capital s6). split.
  - unfold set_equity in *. cbn [equity_series set_equity_series] in *.
    rewrite length_insert in L. apply list_lookup_insert_eq. lia.
  - unfold mark.
    change (positions (set_equity i (capital s6) s6)) with (positions s6).
    change (capital (set_equity i (capital s6) s6)) with (capital s6).
    rewrite He. cbn [map Qsum]. ring.
Qed.

Lemma loop_body_mark (cfg : Config) (prices : list (Timestamp * Q)) (ld : Z)
    (i : nat) (s : State) (timestamp : Timestamp) (price : Q) :
  prices !! i = Some (timestamp, price) ->
  (i < length (equity_series s))%nat ->
  gated ld timestamp s = false ->
  let s' := outcome_state (loop_body cfg prices ld i s) in
  exists v,
    equity_series s' !! i = Some (Some v)
    /\ v == (if reaches_grid ld timestamp s then mark cfg price s' else capital s').
Proof.
  intros Hp Hi Hg. cbv zeta. unfold loop_body. rewrite Hp.
  destruct (rollover_fields timestamp s) as (P1 & E1).
  destruct (daily_atr_bootstrap_fields prices timestamp (rollover timestamp s))
    as (P2 & E2 & _).
  set (s1 := daily_atr_bootstrap prices timestamp (rollover timestamp s)) in *.
  assert (P : positions s1 = positions s) by congruence.
  assert (E : equity_series s1 = equity_series s) by congruence.
  unfold gated, reaches_grid, terminal, skipped in *. rewrite P.
  destruct ((ts_date timestamp =? ld)%Z && (time 14 29 <=? ts_time timestamp)%Z
            && nonempty (positions s)).
  - cbn [negb andb].
    pose proof (close_all_positions_frame cfg price timestamp s1)
      as (_ & _ & _ & _ & _ & _ & E3 & _). cbv zeta in E3.
    destruct (close_all_positions cfg price timestamp s1) as [s2 tot].
    cbn [fst outcome_state] in *. exists (capital s2). split; [|reflexivity].
    unfold set_equity. cbn [equity_series set_equity_series].
    apply list_lookup_insert_eq. rewrite E3, E. exact Hi.
  - cbn [negb andb] in Hg |- *. rewrite Hg. cbn [negb andb].
    destruct (is_trading_time timestamp), (is_end_of_day timestamp);
      cbn [negb andb orb outcome_state].
    + exists (capital s1). split; [|reflexivity].
      unfold set_equity. cbn [equity_series set_equity_series].
      apply list_lookup_insert_eq. now rewrite E.
    + apply trading_tick_mark. now rewrite E.
    + exists (capital s1). split; [|reflexivity].
      unfold set_equity. cbn [equity_series set_equity_series].
      apply list_lookup_insert_eq. now rewrite E.
    + exists (capital s1). split; [|reflexivity].
      unfold set_equity. cbn [equity_series set_equity_series].
      apply list_lookup_insert_eq. now rewrite E.
Qed.

(** Later ticks leave the slot of a tick alone. *)
Lemma final_slot_from (cfg : Config) (prices : list (Timestamp * Q)) (ld : Z)
    (n : nat) :
  forall (a : nat) (s : State) (i : nat) (u' : State),
    (s :: trace_from (loop_body cfg prices ld) (seq a n) s) !! S i = Some u' ->
    equity_series (outcome_state (for_loop (loop_body cfg prices ld) (seq a n) s))
      !! (a + i)%nat
    = equity_series u' !! (a + i)%nat.
Proof.
  induction n as [|n IH]; intros a s i u' Hu; [destruct i; discriminate|].
  cbn [seq trace_from for_loop] in *.
  destruct (loop_body cfg prices ld a s) as [s1|s1] eqn:Eb.
  - destruct i as [|i].
    + injection Hu as <-. rewrite Nat.add_0_r.
      destruct (slots_from cfg prices ld n (S a) s1) as (_ & A & _).
      cbv zeta in A. apply A. lia.
    + replace (a + S i)%nat with (S a + i)%nat by lia.
      apply (IH (S a) s1 i u'). exact Hu.
  - destruct i as [|i]; [|destruct i; discriminate].
    injection Hu as <-. reflexivity.
Qed.

Lemma timeline_equity_length (cfg : Config) (prices : list (Timestamp * Q)) :
  Forall (fun u => length (equity_series u) = length prices) (timeline cfg prices).
Proof.
  unfold timeline, trace. destruct prices as [|[t0 p0] rest] eqn:E; [constructor|].
  rewrite <- E.
  assert (H0 : length (equity_series (initial_state cfg t0 p0 (length prices)))
               = length prices)
    by (cbn [equity_series initial_state]; now rewrite length_insert, length_replicate).
  constructor; [exact H0|].
  apply trace_from_invariant; [|exact H0].
  intros i s _ Hs. now rewrite loop_body_equity_length.
Qed.

(** X21: the entry that the reported equity series has for a tick which
    the off-hours gate does not skip is, where the tick reaches the grid
    evaluation, the capital plus the unrealised profit of the positions
    left open by the tick at its price, and the capital alone
    otherwise, also in the end-of-day window with positions open. *)
Theorem equity_mark_value (cfg : Config) (prices : list (Timestamp * Q))
    (i : nat) (u u' : State) (t : Timestamp) (p : Q) :
  timeline cfg prices !! i = Some u ->
  timeline cfg prices !! S i = Some u' ->
  prices !! S i = Some (t, p) ->
  gated (last_data_date prices) t u = false ->
  exists v,
    equity_series (outcome_state (run cfg prices)) !! S i = Some (Some v)
    /\ v == (if reaches_grid (last_data_date prices) t u
             then capital u' + Qsum (map (gross_profit cfg p) (positions u'))
             else capital u').
Proof.
  intros Hu Hu' Hp Hg.
  assert (Hfin : equity_series (outcome_state (run cfg prices)) !! S i
                 = equity_series u' !! S i).
  { unfold timeline, trace, run in *.
    destruct prices as [|[t0 p0] rest] eqn:E; [discriminate|]. rewrite <- E in *.
    apply (final_slot_from cfg prices (last_data_date prices) (length prices - 1) 1
             _ i u' Hu'). }
  rewrite Hfin, (timeline_step cfg prices i u u' Hu Hu').
  apply (loop_body_mark cfg prices (last_data_date prices) (S i) u t p Hp); [|exact Hg].
  pose proof (timeline_equity_length cfg prices) as HL.
  rewrite Forall_lookup in HL. rewrite (HL i u Hu).
  now apply lookup_lt_Some in Hp.
Qed.

Lemma equity_mark_value_witness :
  let u := nth 0 (timeline default_config series_a)
             (initial_state default_config (at_ 0 9 0) 100 4) in
  let u' := nth 1 (timeline default_config series_a)
              (initial_state default_config (at_ 0 9 0) 100 4) in
  exists v,
    equity_series (outcome_state (run default_config series_a)) !! 1%nat
    = Some (Some v)
    /\ v == (if reaches_grid (last_data_date series_a) (at_ 0 9 1) u
             then capital u'
                  + Qsum (map (gross_profit default_config 99) (positions u'))
             else capital u').
Proof.
  apply (equity_mark_value default_config series_a 0 _ _ (at_ 0 9 1) 99);
    vm_compute; reflexivity.
Defined.
